(** * Birthday engine of the reminder bot: a shallow embedding and its properties

    The development follows the Python sources
    - [utils/validators.py]        (InputValidator),
    - [services/birthday_service.py] (BirthdayService),
    - [services/admin_service.py]  (AdminService.get_analytics_report),
    - [scheduler/reminder_scheduler.py] (BirthdayReminder).

    Python integers are unbounded, so they are [Z]; counts are [nat].  Python
    dictionaries are stdpp [gmap]s, tables of the store are lists in primary-key
    order (the order [.first()] uses).  Exceptions are an explicit [result]. *)

From Stdlib Require Import ZArith Lia List String Ascii Bool.
From stdpp Require Import base option list gmap strings sorting.

Local Open Scope Z_scope.

(** ** Exceptions *)

Inductive exn : Type :=
| ValueError
| OverflowError.

Inductive result (A : Type) : Type :=
| Return (a : A)
| Raise (e : exn).

Arguments Return {A} a.
Arguments Raise {A} e.

#[global] Instance result_ret : MRet result := fun _ a => Return a.

#[global] Instance result_bind : MBind result := fun _ _ k r =>
  match r with
  | Return a => k a
  | Raise e => Raise e
  end.

(** ** The [datetime.date] type of the Python standard library

    A Python [date] always holds a calendar date of the proleptic Gregorian
    calendar with [MINYEAR <= year <= MAXYEAR]; the constructor and [replace]
    raise [ValueError] otherwise.  The record carries plain integers and
    [date_ok] is the validity check of the constructor. *)

Module Calendar.

Record date : Type := mkdate { year : Z; month : Z; day : Z }.

Definition MINYEAR : Z := 1.
Definition MAXYEAR : Z := 9999.

Definition is_leap (y : Z) : bool :=
  (y mod 4 =? 0) && (negb (y mod 100 =? 0) || (y mod 400 =? 0)).

Definition days_in_month (y m : Z) : Z :=
  match m with
  | 1 => 31 | 2 => if is_leap y then 29 else 28 | 3 => 31 | 4 => 30
  | 5 => 31 | 6 => 30 | 7 => 31 | 8 => 31
  | 9 => 30 | 10 => 31 | 11 => 30 | 12 => 31
  | _ => 0
  end.

Definition check_date_fields (y m d : Z) : bool :=
  (MINYEAR <=? y) && (y <=? MAXYEAR) &&
  (1 <=? m) && (m <=? 12) &&
  (1 <=? d) && (d <=? days_in_month y m).

Definition date_ok (d : date) : bool :=
  check_date_fields (year d) (month d) (day d).

(** [date(y, m, d)] *)
Definition new_date (y m d : Z) : result date :=
  if check_date_fields y m d then Return (mkdate y m d) else Raise ValueError.

(** [d.replace(month=m, day=dd)] and [d.replace(year=y)] *)
Definition replace_month_day (d : date) (m dd : Z) : result date :=
  new_date (year d) m dd.

Definition replace_year (d : date) (y : Z) : result date :=
  new_date y (month d) (day d).

(** Number of days before January 1st of year [y]. *)
Definition days_before_year (y : Z) : Z :=
  let y1 := y - 1 in
  y1 * 365 + y1 / 4 - y1 / 100 + y1 / 400.

(** Number of days in year [y] before the first day of month [m]. *)
Definition days_before_month (y m : Z) : Z :=
  let base :=
    match m with
    | 1 => 0 | 2 => 31 | 3 => 59 | 4 => 90 | 5 => 120 | 6 => 151
    | 7 => 181 | 8 => 212 | 9 => 243 | 10 => 273 | 11 => 304 | 12 => 334
    | _ => 0
    end in
  if (2 <? m) && is_leap y then base + 1 else base.

Definition toordinal (d : date) : Z :=
  days_before_year (year d) + days_before_month (year d) (month d) + day d.

(** [(d1 - d2).days] *)
Definition sub_days (d1 d2 : date) : Z := toordinal d1 - toordinal d2.

(** Tuple comparison [(m1, d1) > (m2, d2)] of Python. *)
Definition md_gt (m1 d1 m2 d2 : Z) : bool :=
  (m2 <? m1) || ((m1 =? m2) && (d2 <? d1)).

(** [d1 < d2] and [d1 <= d2] on dates: comparison of (year, month, day). *)
Definition date_lt (d1 d2 : date) : bool :=
  (year d1 <? year d2) ||
  ((year d1 =? year d2) && md_gt (month d2) (day d2) (month d1) (day d1)).

Definition date_le (d1 d2 : date) : bool := negb (date_lt d2 d1).

(** The day after [d], as [d + timedelta(days=1)] computes it; the result
    leaves the supported range after December 31st of [MAXYEAR]. *)
Definition tomorrow (d : date) : date :=
  if day d <? days_in_month (year d) (month d)
  then mkdate (year d) (month d) (day d + 1)
  else if month d <? 12
       then mkdate (year d) (month d + 1) 1
       else mkdate (year d + 1) 1 1.

Fixpoint add_days_raw (d : date) (n : nat) : date :=
  match n with
  | O => d
  | S k => add_days_raw (tomorrow d) k
  end.

(** [d + timedelta(days=n)] for [n >= 0]; Python raises [OverflowError] when
    the result is after [MAXYEAR]. *)
Definition add_days (d : date) (n : nat) : result date :=
  let r := add_days_raw d n in
  if year r <=? MAXYEAR then Return r else Raise OverflowError.

(** [calendar.month_name[m]] *)
Definition month_name (m : Z) : string :=
  match m with
  | 1 => "January" | 2 => "February" | 3 => "March" | 4 => "April"
  | 5 => "May" | 6 => "June" | 7 => "July" | 8 => "August"
  | 9 => "September" | 10 => "October" | 11 => "November" | 12 => "December"
  | _ => ""
  end%string.

End Calendar.

Import Calendar.

(** ** Strings

    A Python [str] is modelled as a [string] of bytes (its UTF-8 encoding).
    Case mapping and white space are those of the ASCII range; bytes above 127
    are caseless and are not white space. *)

Module Text.

Definition code (c : ascii) : N := N_of_ascii c.

Definition in_range (lo hi : N) (c : ascii) : bool :=
  ((lo <=? code c) && (code c <=? hi))%N.

(** [str.isspace] on the ASCII range: tab, LF, VT, FF, CR, FS, GS, RS, US, space. *)
Definition isspace (c : ascii) : bool := in_range 9 13 c || in_range 28 32 c.
Definition isupper (c : ascii) : bool := in_range 65 90 c.
Definition islower (c : ascii) : bool := in_range 97 122 c.
Definition isalpha (c : ascii) : bool := isupper c || islower c.
Definition isdigit (c : ascii) : bool := in_range 48 57 c.

Definition lower_char (c : ascii) : ascii :=
  if isupper c then ascii_of_N (code c + 32) else c.
Definition upper_char (c : ascii) : ascii :=
  if islower c then ascii_of_N (code c - 32) else c.

Fixpoint map_chars (f : ascii -> ascii) (s : string) : string :=
  match s with
  | EmptyString => EmptyString
  | String c s' => String (f c) (map_chars f s')
  end.

(** [s.lower()], [s.upper()] *)
Definition lower : string -> string := map_chars lower_char.
Definition upper : string -> string := map_chars upper_char.

Fixpoint lstrip (s : string) : string :=
  match s with
  | EmptyString => EmptyString
  | String c s' => if isspace c then lstrip s' else s
  end.

Definition rstrip (s : string) : string := String.rev (lstrip (String.rev s)).

(** [s.strip()] *)
Definition strip (s : string) : string := rstrip (lstrip s).

(** [s.title()]: a cased character is upper-cased when the character before
    it is not cased, and lower-cased otherwise. *)
Fixpoint title_from (prev_cased : bool) (s : string) : string :=
  match s with
  | EmptyString => EmptyString
  | String c s' =>
      if isalpha c
      then String (if prev_cased then lower_char c else upper_char c)
                  (title_from true s')
      else String c (title_from false s')
  end.

Definition title : string -> string := title_from false.

Fixpoint all_chars (p : ascii -> bool) (s : string) : bool :=
  match s with
  | EmptyString => true
  | String c s' => p c && all_chars p s'
  end.

Fixpoint startswith (s pre : string) : bool :=
  match pre, s with
  | EmptyString, _ => true
  | String _ _, EmptyString => false
  | String a pre', String b s' => Ascii.eqb a b && startswith s' pre'
  end.

(** [s.endswith(suf)] *)
Fixpoint endswith (s suf : string) : bool :=
  String.eqb s suf ||
  match s with
  | EmptyString => false
  | String _ s' => endswith s' suf
  end.

(** [sub in s] *)
Fixpoint contains (s sub : string) : bool :=
  startswith s sub ||
  match s with
  | EmptyString => false
  | String _ s' => contains s' sub
  end.

(** [', '.join(l)] and friends *)
Fixpoint join (sep : string) (l : list string) : string :=
  match l with
  | [] => EmptyString
  | [x] => x
  | x :: l' => x +:+ sep +:+ join sep l'
  end.

Definition digit_char (n : Z) : ascii := ascii_of_N (48 + Z.to_N (n mod 10)).

(** Decimal digits of [n >= 0], at least [width] of them (zero padded), as
    the format [%0{width}d] prints them. *)
Fixpoint digits_fuel (fuel : nat) (width : nat) (n : Z) (acc : string) : string :=
  match fuel with
  | O => acc
  | S f =>
      let acc' := String (digit_char n) acc in
      let w' := Nat.pred width in
      if (n / 10 =? 0) && (w' =? 0)%nat then acc'
      else digits_fuel f w' (n / 10) acc'
  end.

Definition zfill (width : nat) (n : Z) : string :=
  digits_fuel (width + Z.to_nat (Z.log2_up (n + 1)) + 1) width n EmptyString.

(** [str(n)] for an integer *)
Definition str_of_Z (n : Z) : string :=
  if n <? 0 then String "-"%char (zfill 1 (- n)) else zfill 1 n.

(** [str(d)] for a date: ISO format YYYY-MM-DD *)
Definition str_of_date (d : date) : string :=
  zfill 4 (year d) +:+ "-" +:+ zfill 2 (month d) +:+ "-" +:+ zfill 2 (day d).

Definition digit_val (c : ascii) : Z := Z.of_N (code c) - 48.

(** [int(s)] for a string of decimal digits *)
Fixpoint int_of_digits (acc : Z) (s : string) : Z :=
  match s with
  | EmptyString => acc
  | String c s' => int_of_digits (10 * acc + digit_val c) s'
  end.

End Text.

(** ** [bot_config.py] *)

Definition BIRTHDAY_CATEGORIES : list (string * string) :=
  [ ("love", "💕 Love");
    ("family", "👨‍👩‍👧‍👦 Family");
    ("relative", "👥 Relative");
    ("work", "💼 Work");
    ("friend", "👫 Friend");
    ("other", "🌟 Other") ].

Definition category_keys : list string := BIRTHDAY_CATEGORIES.*1.

(** [BIRTHDAY_CATEGORIES.get(k, default)] *)
Definition category_display (k default : string) : string :=
  match list_find (fun p => p.1 = k) BIRTHDAY_CATEGORIES with
  | Some (_, p) => p.2
  | None => default
  end.

(** The clock: [datetime.now()] gives a calendar date and a time of day. *)
Record datetime : Type := mkdatetime { dt_date : date; dt_micros : Z }.

(** ** [utils/validators.py] *)

Module InputValidator.

Import Text.

(** The pattern [^\d{4}-\d{2}-\d{2}$]; in Python [$] also matches just before
    a newline that ends the string. *)
Definition date_shape (s : string) : bool :=
  match s with
  | String y1 (String y2 (String y3 (String y4 (String h1
    (String m1 (String m2 (String h2 (String d1 (String d2 rest))))))))) =>
      isdigit y1 && isdigit y2 && isdigit y3 && isdigit y4 &&
      Ascii.eqb h1 "-" &&
      isdigit m1 && isdigit m2 &&
      Ascii.eqb h2 "-" &&
      isdigit d1 && isdigit d2 &&
      (String.eqb rest "" || String.eqb rest (String "010" ""))
  | _ => false
  end.

(** [datetime.strptime(s, '%Y-%m-%d').date()] on a string that has the shape
    above: the three fields are converted and checked by the [date]
    constructor; anything after the day is unconverted data. *)
Definition strptime_ymd (s : string) : result date :=
  if negb (String.length s =? 10)%nat then Raise ValueError
  else
    new_date (int_of_digits 0 (substring 0 4 s))
             (int_of_digits 0 (substring 5 2 s))
             (int_of_digits 0 (substring 8 2 s)).

Definition parse_date (now : datetime) (date_str : string) : option date :=
  if negb (date_shape date_str) then None
  else
    match strptime_ymd date_str with
    | Raise _ => None
    | Return parsed_date =>
        let current_year := year (dt_date now) in
        if (year parsed_date <? 1900) || (current_year + 50 <? year parsed_date)
        then None
        else Some parsed_date
    end.

(** Character class [[a-zA-Z\s\-\'\.]] *)
Definition name_char (c : ascii) : bool :=
  isalpha c || isspace c || Ascii.eqb c "-" || Ascii.eqb c "'" || Ascii.eqb c ".".

Definition validate_name (name : string) : bool :=
  if String.eqb name "" || (String.length (strip name) =? 0)%nat then false
  else if (100 <? String.length (strip name))%nat then false
  else if negb (negb (String.eqb (strip name) "") && all_chars name_char (strip name))
       then false
       else true.

Definition image_extensions : list string :=
  [".jpg"; ".jpeg"; ".png"; ".gif"; ".bmp"; ".webp"].

Definition image_hosts : list string :=
  [ "imgur.com"; "i.imgur.com"; "cdn.discordapp.com"; "pbs.twimg.com";
    "images.unsplash.com"; "googleusercontent.com"; "cloudinary.com" ].

Section ImageUrl.
(** [validators.url] of the third-party [validators] package: whether the
    string is a well-formed URL. *)
Context (url_ok : string -> bool).

(** The argument is [None] or a string. *)
Definition validate_image_url (url : option string) : bool :=
  match url with
  | None => true
  | Some u =>
      if String.eqb u "" then true
      else if negb (url_ok u) then false
      else
        let url_lower := lower u in
        if existsb (fun ext => endswith url_lower ext) image_extensions then true
        else if existsb (fun host => contains url_lower host) image_hosts then true
        else false
  end.
End ImageUrl.

Definition validate_category (category : string) : bool :=
  bool_decide (lower category ∈ category_keys).

End InputValidator.

(** ** [models/birthday.py]: the two tables of the store

    A table is the list of its rows in primary-key order, which is the order
    of [.first()].  Rows are never removed (deletion is a flag). *)

Module Store.

Record User : Type := mkUser {
  user_id : Z;
  username : option string;
  first_name : option string;
  is_superadmin : bool;
  timezone : string;
  user_created_at : datetime;
  user_is_deleted : bool;
  user_deleted_at : option datetime
}.

Record Birthday : Type := mkBirthday {
  id : Z;
  user : Z;
  name : string;
  birthdate : date;
  category : string;
  image_url : option string;
  notes : option string;
  created_at : datetime;
  updated_at : datetime;
  is_deleted : bool;
  deleted_at : option datetime
}.

Record db : Type := mkdb { users : list User; birthdays : list Birthday }.

Definition empty_db : db := mkdb [] [].

(** [User.get_or_none(user_id=uid)] *)
Definition get_or_none (d : db) (uid : Z) : option User :=
  List.find (fun u => user_id u =? uid) (users d).

(** [User.get_or_create(user_id=uid, defaults={...})]; the defaults used in
    the repository are [username] and [first_name] (on [/start]) and
    [is_superadmin] (at initialisation). *)
Definition get_or_create (now : datetime) (d : db) (uid : Z)
    (uname fname : option string) (superadmin : bool) : User * db :=
  match get_or_none d uid with
  | Some u => (u, d)
  | None =>
      let u := mkUser uid uname fname superadmin "UTC" now false None in
      (u, mkdb (users d ++ [u]) (birthdays d))
  end.

(** The key an auto-increment primary key takes next. *)
Definition next_id (d : db) : Z := 1 + foldr Z.max 0 (id <$> birthdays d).

(** [Birthday.create(user=..., name=..., ...)] *)
Definition create (now : datetime) (d : db) (uid : Z) (nm : string)
    (bd : date) (cat : string) (img nts : option string) : Birthday * db :=
  let b := mkBirthday (next_id d) uid nm bd cat img nts now now false None in
  (b, mkdb (users d) (birthdays d ++ [b])).

(** [b.save()]: the row with the key of [b] takes the fields of [b];
    [updated_at] is an [auto_now] column. *)
Definition save (now : datetime) (b : Birthday) (d : db) : db :=
  let b' := mkBirthday (id b) (user b) (name b) (birthdate b) (category b)
              (image_url b) (notes b) (created_at b) now (is_deleted b)
              (deleted_at b) in
  mkdb (users d) ((fun r => if id r =? id b then b' else r) <$> birthdays d).

(** The lookup [name__iexact]: equality of the upper-cased strings. *)
Definition iexact (a b : string) : bool :=
  String.eqb (Text.upper a) (Text.upper b).

(** [Birthday.filter(user=u, name__iexact=nm).first()] *)
Definition first_by_name (d : db) (uid : Z) (nm : string) : option Birthday :=
  List.find (fun b => (user b =? uid) && iexact (name b) nm) (birthdays d).

(** [Birthday.filter(user=u, name__iexact=nm, is_deleted=flag).first()] *)
Definition first_by_name_deleted (d : db) (uid : Z) (nm : string) (flag : bool)
    : option Birthday :=
  List.find (fun b => (user b =? uid) && iexact (name b) nm &&
                      Bool.eqb (is_deleted b) flag) (birthdays d).

(** [Birthday.filter(user=u, is_deleted=False)] *)
Definition active_of_user (d : db) (uid : Z) : list Birthday :=
  List.filter (fun b => (user b =? uid) && negb (is_deleted b)) (birthdays d).

End Store.

Import Store.

(** Truth value of an optional string: [None] and the empty string are false. *)
Definition truthy (s : option string) : bool :=
  match s with
  | Some x => negb (String.eqb x "")
  | None => false
  end.

(** ** [services/birthday_service.py] *)

Module BirthdayService.

Import Text InputValidator.

(** The dictionaries [{"success": ..., "message": ..., "birthday": ...}]. *)
Record reply : Type := mkreply {
  success : bool;
  message : string;
  birthday : option Birthday
}.

Definition failure (msg : string) : reply := mkreply false msg None.

Definition invalid_category_message : string :=
  "Invalid category. Use: " +:+ join ", " category_keys.

Section Mutations.
Context (url_ok : string -> bool).

Definition add_birthday (now : datetime) (d : db) (uid : Z)
    (nm birthdate_str cat : string) (img nts : option string) : reply * db :=
  if negb (validate_name nm) then (failure "Invalid name format", d)
  else
    match parse_date now birthdate_str with
    | None => (failure "Invalid date format. Use YYYY-MM-DD", d)
    | Some bd =>
        if negb (validate_category cat) then (failure invalid_category_message, d)
        else if truthy img && negb (validate_image_url url_ok img)
        then (failure "Invalid image URL format", d)
        else
          let '(u, d1) := get_or_create now d uid None None false in
          match first_by_name d1 (user_id u) (strip nm) with
          | Some existing =>
              if negb (is_deleted existing)
              then (failure ("Birthday for " +:+ nm +:+ " already exists"), d1)
              else
                let existing' :=
                  mkBirthday (id existing) (user existing) (name existing) bd
                    (lower cat) img nts (created_at existing) now false None in
                let d2 := save now existing' d1 in
                (mkreply true
                   ("Birthday restored for " +:+ name existing' +:+
                    " (" +:+ str_of_date bd +:+ ")")
                   (Some existing'), d2)
          | None =>
              let '(b, d2) :=
                create now d1 (user_id u) (title (strip nm)) bd (lower cat) img nts in
              (mkreply true
                 ("Birthday added for " +:+ name b +:+ " (" +:+ str_of_date bd +:+
                  ") - Category: " +:+ category_display (lower cat) cat)
                 (Some b), d2)
          end
    end.

Definition delete_birthday (now : datetime) (d : db) (uid : Z) (nm : string)
    : reply * db :=
  match get_or_none d uid with
  | None => (failure "User not found", d)
  | Some u =>
      match first_by_name_deleted d (user_id u) (strip nm) false with
      | None => (failure ("Birthday for " +:+ nm +:+ " not found"), d)
      | Some b =>
          let b' :=
            mkBirthday (id b) (user b) (name b) (birthdate b) (category b)
              (image_url b) (notes b) (created_at b) (updated_at b) true (Some now) in
          (mkreply true ("Birthday for " +:+ nm +:+ " deleted") None, save now b' d)
      end
  end.

(** The four optional patches of [update_birthday], applied in order to the
    in-memory row; a failed validation returns before [save]. *)
Definition update_birthday (now : datetime) (d : db) (uid : Z) (nm : string)
    (new_date_str new_category new_image_url new_notes : option string)
    : reply * db :=
  match get_or_none d uid with
  | None => (failure "User not found", d)
  | Some u =>
      match first_by_name_deleted d (user_id u) (strip nm) false with
      | None => (failure ("Birthday for " +:+ nm +:+ " not found"), d)
      | Some b =>
          let step_date : option (date * list string) :=
            if truthy new_date_str then
              match parse_date now (default "" new_date_str) with
              | None => None
              | Some nd => Some (nd, ["date to " +:+ str_of_date nd])
              end
            else Some (birthdate b, []) in
          match step_date with
          | None => (failure "Invalid date format. Use YYYY-MM-DD", d)
          | Some (bd1, f1) =>
              let step_cat : option (string * list string) :=
                if truthy new_category then
                  let c := default "" new_category in
                  if negb (validate_category c) then None
                  else Some (lower c,
                             f1 ++ ["category to " +:+ category_display (lower c) "None"])
                else Some (category b, f1) in
              match step_cat with
              | None => (failure invalid_category_message, d)
              | Some (cat1, f2) =>
                  let step_img : option (option string * list string) :=
                    match new_image_url with
                    | None => Some (image_url b, f2)
                    | Some i =>
                        if truthy (Some i) && negb (validate_image_url url_ok (Some i))
                        then None
                        else Some (if truthy (Some i) then Some i else None,
                                   f2 ++ ["image"])
                    end in
                  match step_img with
                  | None => (failure "Invalid image URL format", d)
                  | Some (img1, f3) =>
                      let '(nts1, f4) :=
                        match new_notes with
                        | None => (notes b, f3)
                        | Some n => (if truthy (Some n) then Some n else None,
                                     f3 ++ ["notes"])
                        end in
                      let b' :=
                        mkBirthday (id b) (user b) (name b) bd1 cat1 img1 nts1
                          (created_at b) (updated_at b) (is_deleted b) (deleted_at b) in
                      let updates_text :=
                        match f4 with
                        | [] => "no changes"
                        | _ => join ", " f4
                        end in
                      (mkreply true
                         ("Birthday for " +:+ nm +:+ " updated: " +:+ updates_text)
                         None, save now b' d)
                  end
              end
          end
      end
  end.

Definition restore_deleted_birthday (now : datetime) (d : db) (uid : Z)
    (nm : string) : reply * db :=
  match get_or_none d uid with
  | None => (failure "User not found", d)
  | Some u =>
      match first_by_name_deleted d (user_id u) (strip nm) true with
      | None => (failure ("No deleted birthday found for " +:+ nm), d)
      | Some b =>
          let b' :=
            mkBirthday (id b) (user b) (name b) (birthdate b) (category b)
              (image_url b) (notes b) (created_at b) now false None in
          (mkreply true ("Birthday for " +:+ nm +:+ " restored successfully") None,
           save now b' d)
      end
  end.
End Mutations.

(** The orders of [order_by('birthdate')] and [order_by('birthdate__day')].
    Rows with equal keys come in an order the database chooses; the sort used
    here keeps them in primary-key order. *)
Definition birthdate_le (a b : Birthday) : Prop :=
  date_le (birthdate a) (birthdate b) = true.

Definition day_le (a b : Birthday) : Prop :=
  day (birthdate a) <= day (birthdate b).

#[global] Instance birthdate_le_dec : RelDecision birthdate_le :=
  fun a b => decide (date_le (birthdate a) (birthdate b) = true).

#[global] Instance day_le_dec : RelDecision day_le :=
  fun a b => decide (day (birthdate a) <= day (birthdate b)).

Definition get_user_birthdays (d : db) (uid : Z) (include_deleted : bool)
    : list Birthday :=
  match get_or_none d uid with
  | None => []
  | Some u =>
      if include_deleted
      then merge_sort birthdate_le
             (List.filter (fun b => user b =? user_id u) (birthdays d))
      else merge_sort birthdate_le (active_of_user d (user_id u))
  end.

Definition get_birthdays_by_category (d : db) (uid : Z) (cat : string)
    : list Birthday :=
  if negb (validate_category cat) then []
  else
    match get_or_none d uid with
    | None => []
    | Some u =>
        merge_sort birthdate_le
          (List.filter (fun b => (user b =? user_id u) &&
                                 String.eqb (category b) (lower cat) &&
                                 negb (is_deleted b)) (birthdays d))
    end.


End BirthdayService.

(** ** Rounding to one decimal place

    A rounded float [round(num / den, 1)] is represented by its number of
    tenths, the integer nearest to [10 * num / den].  Binary floating point
    only matters when the exact quotient lies half-way between two tenths;
    which neighbour is taken there is left to the parameter [half_up]. *)

Section Rounding.
Context (half_up : Z -> Z -> bool).

Definition round1 (num den : Z) : Z :=
  let q := (10 * num) / den in
  let r := (10 * num) mod den in
  if 2 * r <? den then q
  else if den <? 2 * r then q + 1
  else if half_up num den then q + 1 else q.
End Rounding.

Definition sumZ (l : list Z) : Z := foldr Z.add 0 l.

(** [min(l)], [max(l)] of a non-empty list, [0] standing for the guarded
    empty case [... if ages else 0]. *)
Definition minZ (l : list Z) : Z :=
  match l with
  | [] => 0
  | x :: l' => foldr Z.min x l'
  end.

Definition maxZ (l : list Z) : Z :=
  match l with
  | [] => 0
  | x :: l' => foldr Z.max x l'
  end.

(** The age computation that [get_user_stats] and [get_analytics_report]
    both write out: year difference, minus one when the birthday's
    (month, day) is after today's. *)
Definition age (bd today : date) : Z :=
  let a := year today - year bd in
  if md_gt (month bd) (day bd) (month today) (day today) then a - 1 else a.

Module UserStatistics.

Record NextBirthday : Type := mkNext {
  nb_name : string;
  nb_date : date;
  nb_days_until : Z;
  nb_category : string
}.

Record UserStats : Type := mkStats {
  total_birthdays : nat;
  upcoming_this_month : nat;
  next_birthday : option NextBirthday;
  category_breakdown : gmap string nat;
  monthly_distribution : gmap string nat;
  average_age : Z;                 (* in tenths *)
  age_range : option (Z * Z)       (* the key is absent in the zero case *)
}.

(** [{}] when the user is unknown, a statistics dictionary otherwise. *)
Inductive stats_reply : Type :=
| NoStats
| Stats (s : UserStats).

Definition count_category (m : gmap string nat) (b : Birthday) : gmap string nat :=
  <[category b := (default 0%nat (m !! category b) + 1)%nat]> m.

Definition month_keys : list string := month_name <$> seqZ 1 12.

Definition zero_months : gmap string nat :=
  foldl (fun m k => <[k := 0%nat]> m) ∅ month_keys.

(** [monthly_counts[month_name] += 1]; the key is present for every month
    of a calendar date. *)
Definition count_month (m : gmap string nat) (b : Birthday) : gmap string nat :=
  alter S (month_name (month (birthdate b))) m.

(** The body of the next-birthday loop for one record. *)
Definition days_until_next (bd current_date : date) : result Z :=
  this_year ← replace_month_day current_date (month bd) (day bd);
  this_year' ← (if date_lt this_year current_date
                then replace_year this_year (year current_date + 1)
                else mret this_year);
  mret (sub_days this_year' current_date).

(** [days_until < min_days], where [None] is [float('inf')]. *)
Definition below (days : Z) (min_days : option Z) : bool :=
  match min_days with
  | None => true
  | Some m => days <? m
  end.

Fixpoint next_birthday_loop (current_date : date) (bs : list Birthday)
    (min_days : option Z) (nb : option NextBirthday) : result (option NextBirthday) :=
  match bs with
  | [] => mret nb
  | b :: rest =>
      days_until ← days_until_next (birthdate b) current_date;
      if below days_until min_days
      then next_birthday_loop current_date rest (Some days_until)
             (Some (mkNext (name b) (birthdate b) days_until (category b)))
      else next_birthday_loop current_date rest min_days nb
  end.

Section Stats.
Context (half_up : Z -> Z -> bool).

Definition get_user_stats (current_date : date) (d : db) (uid : Z)
    : result stats_reply :=
  match get_or_none d uid with
  | None => mret NoStats
  | Some u =>
      let bs := active_of_user d (user_id u) in
      let total_count := length bs in
      if (total_count =? 0)%nat
      then mret (Stats (mkStats 0 0 None ∅ ∅ 0 None))
      else
        let current_month := month current_date in
        let category_counts := foldl count_category ∅ bs in
        let monthly_counts := foldl count_month zero_months bs in
        let ages := (fun b => age (birthdate b) current_date) <$> bs in
        let upcoming :=
          length (List.filter
                    (fun b => (month (birthdate b) =? current_month) &&
                              (day current_date <=? day (birthdate b))) bs) in
        nb ← next_birthday_loop current_date bs None None;
        mret (Stats (mkStats total_count upcoming nb category_counts monthly_counts
                       (round1 half_up (sumZ ages) (Z.of_nat (length ages)))
                       (Some (minZ ages, maxZ ages))))
  end.
End Stats.

End UserStatistics.

(** ** [services/admin_service.py] *)

Module AdminService.

(** The row dictionaries of [get_all_birthdays]. *)
Record Row : Type := mkRow {
  r_id : Z;
  r_user_id : Z;
  r_username : option string;
  r_name : string;
  r_birthdate : date;
  r_category : string;
  r_image_url : option string;
  r_notes : option string;
  r_created_at : datetime;
  r_is_deleted : bool;
  r_deleted_at : option datetime
}.

Definition row_of (d : db) (b : Birthday) : Row :=
  mkRow (id b) (user b) (u ← get_or_none d (user b); username u) (name b)
        (birthdate b) (category b) (image_url b) (notes b) (created_at b)
        (is_deleted b) (deleted_at b).

Definition get_all_birthdays (d : db) (include_deleted : bool) : list Row :=
  if include_deleted then row_of d <$> birthdays d
  else row_of d <$> List.filter (fun b => negb (is_deleted b)) (birthdays d).

(** The rows of [df_data]. *)
Record DfRow : Type := mkDf {
  df_user_id : Z;
  df_category : string;
  df_age : Z;
  df_birth_month : Z;
  df_is_deleted : bool;
  df_has_image : bool;
  df_has_notes : bool
}.

Record Overview : Type := mkOverview {
  total_users : nat;
  total_birthdays : nat;
  active_birthdays : nat;
  deleted_birthdays : nat;
  deletion_rate : Z
}.

Record CategoryStat : Type := mkCat { cs_count : nat; cs_percentage : Z }.

Record AgeStats : Type := mkAge {
  as_average : Z; as_min : Z; as_max : Z; as_median : Z
}.

Record Engagement : Type := mkEng {
  birthdays_with_images : nat;
  birthdays_with_notes : nat;
  image_usage_rate : Z;
  notes_usage_rate : Z
}.

Record UserActivity : Type := mkAct {
  average_birthdays_per_user : Z;
  most_birthdays_by_single_user : nat;
  total_active_users : nat
}.

Record Report : Type := mkReport {
  overview : Overview;
  category_distribution : gmap string CategoryStat;
  age_statistics : AgeStats;
  monthly_distribution : gmap string nat;
  engagement : Engagement;
  user_activity : UserActivity
}.

(** [{"error": msg}] or the report. *)
Inductive analytics : Type :=
| AnalyticsError (msg : string)
| Analytics (r : Report).

Definition count_if {A} (p : A -> bool) (l : list A) : nat :=
  length (List.filter p l).

(** [sorted(ages)[len(ages) // 2] if ages else 0] *)
Definition median (ages : list Z) : Z :=
  match ages with
  | [] => 0
  | _ => default 0 (merge_sort Z.le ages !! (length ages / 2)%nat)
  end.

Definition month_names : list string :=
  ["Jan"; "Feb"; "Mar"; "Apr"; "May"; "Jun";
   "Jul"; "Aug"; "Sep"; "Oct"; "Nov"; "Dec"].

Definition count_user (m : gmap Z nat) (b : DfRow) : gmap Z nat :=
  if df_is_deleted b then m
  else <[df_user_id b := (default 0%nat (m !! df_user_id b) + 1)%nat]> m.

Definition values_sum (m : gmap Z nat) : nat :=
  map_fold (fun _ v acc => (v + acc)%nat) 0%nat m.

Definition values_max (m : gmap Z nat) : nat :=
  map_fold (fun _ v acc => Nat.max v acc) 0%nat m.

(** The loop that builds [df_data] from the rows. *)
Definition df_data_of (now : datetime) (all_birthdays : list Row) : list DfRow :=
  (fun b => mkDf (r_user_id b) (r_category b)
              (age (r_birthdate b) (dt_date now))
              (month (r_birthdate b)) (r_is_deleted b)
              (truthy (r_image_url b)) (truthy (r_notes b)))
  <$> all_birthdays.

(** [[b['age'] for b in df_data if not b['is_deleted']]] *)
Definition ages_of (df_data : list DfRow) : list Z :=
  df_age <$> List.filter (fun b => negb (df_is_deleted b)) df_data.

(** The ages of the active records of the store, as the report collects them. *)
Definition report_ages (now : datetime) (rows : list Row) : list Z :=
  ages_of (df_data_of now rows).

(** The counts of the two comprehension loops. *)
Definition category_count (active_birthdays : list Row) (cat_key : string) : nat :=
  count_if (fun b => String.eqb (r_category b) cat_key) active_birthdays.

Definition month_count (df_data : list DfRow) (i : Z) : nat :=
  count_if (fun b => (df_birth_month b =? i) && negb (df_is_deleted b)) df_data.

(** The loop [for i, month_name in enumerate(month_names, 1)]. *)
Definition monthly_of (df_data : list DfRow) : gmap string nat :=
  foldl (fun m '(i, month_name) => <[month_name := month_count df_data i]> m)
        ∅ (zip (seqZ 1 12) month_names).

Section Analytics.
Context (half_up : Z -> Z -> bool).

(** [round(count / total * 100, 1) if total > 0 else 0] *)
Definition percentage (count total : nat) : Z :=
  if (0 <? total)%nat
  then round1 half_up (100 * Z.of_nat count) (Z.of_nat total)
  else 0.

(** The loop [for cat_key, cat_name in BIRTHDAY_CATEGORIES.items()]. *)
Definition category_stats_of (active_birthdays : list Row)
    : gmap string CategoryStat :=
  foldl (fun m '(cat_key, cat_name) =>
           let count := category_count active_birthdays cat_key in
           <[cat_name := mkCat count (percentage count (length active_birthdays))]> m)
        ∅ BIRTHDAY_CATEGORIES.

Definition get_analytics_report (now : datetime) (d : db) : analytics :=
  let all_birthdays := get_all_birthdays d true in
  let active_birthdays := get_all_birthdays d false in
  match all_birthdays with
  | [] => AnalyticsError "No data available for analysis"
  | _ =>
      let df_data := df_data_of now all_birthdays in
      let total_users :=
        size (list_to_set (r_user_id <$> all_birthdays) : gset Z) in
      let total_birthdays := length all_birthdays in
      let active_birthdays_count := length active_birthdays in
      let deleted_birthdays_count := (total_birthdays - active_birthdays_count)%nat in
      let category_stats := category_stats_of active_birthdays in
      let ages := ages_of df_data in
      let age_stats :=
        mkAge (match ages with
               | [] => 0
               | _ => round1 half_up (sumZ ages) (Z.of_nat (length ages))
               end)
              (minZ ages) (maxZ ages) (median ages) in
      let monthly_distribution := monthly_of df_data in
      let users_with_images :=
        count_if (fun b => df_has_image b && negb (df_is_deleted b)) df_data in
      let users_with_notes :=
        count_if (fun b => df_has_notes b && negb (df_is_deleted b)) df_data in
      let user_birthday_counts := foldl count_user ∅ df_data in
      let activity :=
        if bool_decide (user_birthday_counts = ∅)
        then mkAct 0 0 (size user_birthday_counts)
        else mkAct (round1 half_up (Z.of_nat (values_sum user_birthday_counts))
                      (Z.of_nat (size user_birthday_counts)))
                   (values_max user_birthday_counts)
                   (size user_birthday_counts) in
      Analytics
        (mkReport
           (mkOverview total_users total_birthdays active_birthdays_count
              deleted_birthdays_count
              (percentage deleted_birthdays_count total_birthdays))
           category_stats age_stats monthly_distribution
           (mkEng users_with_images users_with_notes
              (percentage users_with_images active_birthdays_count)
              (percentage users_with_notes active_birthdays_count))
           activity)
  end.
End Analytics.

(** [User.filter(is_deleted=False).count()] and the two row counts. *)
Definition get_user_count (d : db) : nat :=
  count_if (fun u => negb (user_is_deleted u)) (users d).

Definition get_birthday_count (d : db) : nat :=
  count_if (fun b => negb (is_deleted b)) (birthdays d).

Definition get_deleted_birthdays_count (d : db) : nat :=
  count_if (fun b => is_deleted b) (birthdays d).

End AdminService.

(** ** [scheduler/reminder_scheduler.py]

    The reminder texts are represented by what they are built from: the
    matched records with the numbers printed next to them. *)

Module BirthdayReminder.

Record TodayEntry : Type := mkToday { te_birthday : Birthday; te_age : Z }.

Record UpcomingEntry : Type := mkUpcoming {
  ue_birthday : Birthday;
  ue_days_ahead : nat;
  ue_age : Z
}.

Inductive event : Type :=
| BirthdayReminderSent (uid : Z) (entries : list TodayEntry)
| UpcomingReminderSent (uid : Z) (entries : list UpcomingEntry).

(** [user.birthdays] *)
Definition birthdays_of (d : db) (u : User) : list Birthday :=
  List.filter (fun b => user b =? user_id u) (birthdays d).

Definition on_day (bs : list Birthday) (day_ : date) : list Birthday :=
  List.filter (fun b => negb (is_deleted b) &&
                        (month (birthdate b) =? month day_) &&
                        (day (birthdate b) =? day day_)) bs.

Section Scheduler.
(** [TimezoneHelper.get_user_time(tz)], the current time in the zone named
    [tz] (UTC when the name is unknown), and [date.today()], the current
    date of the server. *)
Context (get_user_time : string -> datetime) (today : date).

Definition _send_birthday_reminder (u : User) (bs : list Birthday) : event :=
  BirthdayReminderSent (user_id u)
    ((fun b => mkToday b (year today - year (birthdate b))) <$> bs).

Definition check_birthdays_today (d : db) : list event :=
  flat_map
    (fun u =>
       let user_today := dt_date (get_user_time (timezone u)) in
       let todays_birthdays := on_day (birthdays_of d u) user_today in
       match todays_birthdays with
       | [] => []
       | _ => [_send_birthday_reminder u todays_birthdays]
       end)
    (List.filter (fun u => negb (user_is_deleted u)) (users d)).

Definition _send_upcoming_reminder (u : User) (upcoming : list (Birthday * nat))
    : event :=
  UpcomingReminderSent (user_id u)
    ((fun '(b, days_ahead) =>
        mkUpcoming b days_ahead (year today - year (birthdate b) + 1))
     <$> upcoming).

(** The matches of one user over [days_ahead] in [range(1, 4)]. *)
Fixpoint upcoming_of (bs : list Birthday) (user_date : date)
    (offsets : list nat) : result (list (Birthday * nat)) :=
  match offsets with
  | [] => mret []
  | days_ahead :: rest =>
      future_date ← add_days user_date days_ahead;
      more ← upcoming_of bs user_date rest;
      mret (((fun b => (b, days_ahead)) <$> on_day bs future_date) ++ more)
  end.

(** The loop over the users; an exception ends it (it is logged by the
    handler around the loop), the reminders already sent stay sent. *)
Fixpoint upcoming_loop (d : db) (us : list User) : list event :=
  match us with
  | [] => []
  | u :: rest =>
      let user_time := get_user_time (timezone u) in
      match upcoming_of (birthdays_of d u) (dt_date user_time) [1; 2; 3]%nat with
      | Raise _ => []
      | Return [] => upcoming_loop d rest
      | Return upcoming =>
          _send_upcoming_reminder u upcoming :: upcoming_loop d rest
      end
  end.

Definition check_upcoming_birthdays (d : db) : list event :=
  upcoming_loop d (List.filter (fun u => negb (user_is_deleted u)) (users d)).
End Scheduler.

End BirthdayReminder.

(** ** States of the store that the service can produce *)

Module Invariant.

Import BirthdayService.

(** What [name__iexact] together with the owner identifies. *)
Definition key (b : Birthday) : Z * string := (user b, Text.upper (name b)).

(** Primary keys are unique, a user holds at most one row (deleted or not)
    per case-insensitive name, and every row has its owner in the users
    table. *)
Record db_wf (d : db) : Prop := mk_wf {
  wf_ids : NoDup (id <$> birthdays d);
  wf_keys : NoDup (key <$> birthdays d);
  wf_owner : forall b, b ∈ birthdays d -> is_Some (get_or_none d (user b))
}.

(** Number of active rows of user [uid] whose name is [nm] up to case. *)
Definition active_count (d : db) (uid : Z) (nm : string) : nat :=
  length (List.filter (fun b => iexact (name b) nm) (active_of_user d uid)).

Section Reachable.
Context (url_ok : string -> bool).

(** The store starts empty and is written by [User.get_or_create] (on
    [/start] and at initialisation) and by the four mutations of
    [BirthdayService]. *)
Inductive reachable : db -> Prop :=
| reach_empty : reachable empty_db
| reach_user now d uid uname fname sa :
    reachable d -> reachable (get_or_create now d uid uname fname sa).2
| reach_add now d uid nm ds cat img nts :
    reachable d -> reachable (add_birthday url_ok now d uid nm ds cat img nts).2
| reach_delete now d uid nm :
    reachable d -> reachable (delete_birthday now d uid nm).2
| reach_update now d uid nm nd nc ni nn :
    reachable d -> reachable (update_birthday url_ok now d uid nm nd nc ni nn).2
| reach_restore now d uid nm :
    reachable d -> reachable (restore_deleted_birthday now d uid nm).2.
End Reachable.

(** The row [save] writes for the object [b]. *)
Definition touched (now : datetime) (b : Birthday) : Birthday :=
  mkBirthday (id b) (user b) (name b) (birthdate b) (category b)
    (image_url b) (notes b) (created_at b) now (is_deleted b) (deleted_at b).

(** What never changes in a row once it is created. *)
Definition identity (b : Birthday) : Z * Z * string * datetime :=
  (id b, user b, name b, created_at b).

(** The store only grows: users and rows are appended, and a row keeps its
    identity. *)
Definition grows (d d' : db) : Prop :=
  users d `prefix_of` users d' /\
  (identity <$> birthdays d) `prefix_of` (identity <$> birthdays d').

(** All rows of a user, deleted or not. *)
Definition rows_of_user (d : db) (uid : Z) : list Birthday :=
  List.filter (fun b => user b =? uid) (birthdays d).

(** What validation guarantees of a stored row: a calendar date from 1900
    on, one of the six categories, a name of 1 to 100 allowed characters. *)
Definition row_ok (b : Birthday) : Prop :=
  date_ok (birthdate b) = true /\
  1900 <= year (birthdate b) /\
  category b ∈ category_keys /\
  (0 < String.length (name b) <= 100)%nat /\
  Text.all_chars InputValidator.name_char (name b) = true.

End Invariant.

(** ** The scheme of a loop that fills a dictionary from a fixed list of keys:
    [for x, k in l: m[k] = g(x)]. *)

Definition insert_all {A V : Type} (g : A -> V) (m0 : gmap string V)
    (l : list (A * string)) : gmap string V :=
  foldl (fun m '(x, k) => <[k := g x]> m) m0 l.

(** ** Notions the specification words its claims with *)

Module Spec.

Import Text InputValidator AdminService.

(** [turningAge(record, today) = age(record, today) + 1] *)
Definition turning_age (bd today : date) : Z := age bd today + 1.

(** The lower of the two middle elements of the ascending sort, for a list
    of even length: the element at index [n/2 - 1]. *)
Definition lower_middle (ages : list Z) : Z :=
  default 0 (merge_sort Z.le ages !! (length ages / 2 - 1)%nat).

(** [p] tenths of a percent is a nearest tenth to [count / total * 100],
    and is 0 when the denominator is 0. *)
Definition nearest_tenth_pct (p : Z) (count total : nat) : Prop :=
  (total = 0%nat -> p = 0) /\
  ((0 < total)%nat ->
   2 * Z.abs (1000 * Z.of_nat count - p * Z.of_nat total) <= Z.of_nat total).

(** The percentage reported for a category (by its display name) and the sum
    over the category dimension; the sum over the engagement dimension. *)
Definition category_percentage (r : Report) (cat_name : string) : Z :=
  from_option cs_percentage 0 (category_distribution r !! cat_name).

Definition category_percentage_sum (r : Report) : Z :=
  sumZ (category_percentage r <$> BIRTHDAY_CATEGORIES.*2).

Definition engagement_percentage_sum (r : Report) : Z :=
  image_usage_rate (engagement r) + notes_usage_rate (engagement r).

(** The counts of the six categories and of the twelve months of a report,
    added up. *)
Definition category_count_total (r : Report) : nat :=
  foldr Nat.add 0%nat
    ((fun nm => from_option cs_count 0%nat (category_distribution r !! nm))
     <$> BIRTHDAY_CATEGORIES.*2).

Definition monthly_total (r : Report) : nat :=
  foldr Nat.add 0%nat
    ((fun nm => default 0%nat (monthly_distribution r !! nm)) <$> month_names).

(** Components of a URL [scheme://authority/path?query#fragment]. *)
Fixpoint take_until (stop : ascii -> bool) (s : string) : string :=
  match s with
  | EmptyString => EmptyString
  | String c s' => if stop c then EmptyString else String c (take_until stop s')
  end.

Fixpoint drop_until (stop : ascii -> bool) (s : string) : string :=
  match s with
  | EmptyString => EmptyString
  | String c s' => if stop c then s else drop_until stop s'
  end.

Fixpoint after_scheme (s : string) : string :=
  match s with
  | EmptyString => EmptyString
  | String _ s' =>
      if startswith s "://" then substring 3 (String.length s - 3) s
      else after_scheme s'
  end.

Definition one_of (cs : list ascii) (c : ascii) : bool :=
  existsb (Ascii.eqb c) cs.

Definition url_authority (u : string) : string :=
  take_until (one_of ["/"; "?"; "#"]%char) (after_scheme u).

(** The host: the authority without user information and port. *)
Definition url_host (u : string) : string :=
  let a := url_authority u in
  let a' := if contains a "@"
            then substring 1 (String.length a) (drop_until (one_of ["@"]%char) a)
            else a in
  take_until (one_of [":"]%char) a'.

Definition url_path (u : string) : string :=
  take_until (one_of ["?"; "#"]%char)
    (drop_until (one_of ["/"; "?"; "#"]%char) (after_scheme u)).

(** [validateImageUrl] in the words of the specification: empty or absent is
    valid; otherwise the URL is well formed and its path ends in a known
    image extension or its host is on the allowlist. *)
Definition spec_validate_image_url (url_ok : string -> bool)
    (url : option string) : bool :=
  match url with
  | None => true
  | Some u =>
      if String.eqb u "" then true
      else url_ok u &&
           (existsb (fun ext => endswith (lower (url_path u)) ext) image_extensions ||
            bool_decide (lower (url_host u) ∈ image_hosts))
  end.

End Spec.

(** ** Sample data used in examples *)

Module Samples.

Import BirthdayService.

Definition nov3 : date := mkdate 2026 11 3.
Definition now_nov3 : datetime := mkdatetime nov3 0.

(** A permissive stand-in for [validators.url]. *)
Definition http_url (s : string) : bool :=
  Text.startswith s "http://" || Text.startswith s "https://".

Definition round_half_up : Z -> Z -> bool := fun _ _ => true.

(** User 7 after adding John once. *)
Definition db_john : db :=
  (add_birthday http_url now_nov3 empty_db 7 "John" "1995-09-27" "family" None None).2.

(** John added, then deleted. *)
Definition db_john_deleted : db := (delete_birthday now_nov3 db_john 7 "John").2.

(** The row that call creates. *)
Definition john_row : Birthday :=
  mkBirthday 1 7 "John" (mkdate 1995 9 27) "family" None None
    now_nov3 now_nov3 false None.

(** User 7 known to the store, without records. *)
Definition db_user_only : db := (get_or_create now_nov3 empty_db 7 None None false).2.

(** Adding one record for user 7 on 2026-11-03. *)
Definition add_for7 (d : db) (nm ds cat : string) (img nts : option string) : db :=
  (add_birthday http_url now_nov3 d 7 nm ds cat img nts).2.

(** Four records of ages 1, 2, 3 and 4 on 2026-11-03. *)
Definition db_four : db :=
  add_for7 (add_for7 (add_for7 (add_for7 empty_db
    "Ann" "2025-01-01" "friend" None None)
    "Bob" "2024-01-01" "friend" None None)
    "Cid" "2023-01-01" "friend" None None)
    "Dan" "2022-01-01" "friend" None None.

(** One record in each of the six categories. *)
Definition db_six : db :=
  add_for7 (add_for7 (add_for7 (add_for7 (add_for7 (add_for7 empty_db
    "Ann" "1990-01-01" "love" None None)
    "Bob" "1990-01-01" "family" None None)
    "Cid" "1990-01-01" "relative" None None)
    "Dan" "1990-01-01" "work" None None)
    "Eve" "1990-01-01" "friend" None None)
    "Fay" "1990-01-01" "other" None None.

(** One record that has both a photo and notes. *)
Definition db_photo_notes : db :=
  add_for7 empty_db "Ann" "1990-01-01" "friend"
    (Some "https://example.com/ann.png") (Some "likes tea").

(** One record whose birthday is two days after 2026-11-03. *)
Definition db_in_two_days : db :=
  add_for7 empty_db "Ann" "1990-11-05" "friend" None None.

Definition ann_row : Birthday :=
  mkBirthday 1 7 "Ann" (mkdate 1990 11 5) "friend" None None
    now_nov3 now_nov3 false None.

(** User 7 with one record born on a leap day. *)
Definition db_leap : db :=
  (add_birthday http_url now_nov3 empty_db 7 "Leap" "2000-02-29" "friend" None None).2.

(** Later moments, for calls made one after another. *)
Definition now_nov4 : datetime := mkdatetime (mkdate 2026 11 4) 0.
Definition now_nov5 : datetime := mkdatetime (mkdate 2026 11 5) 0.

(** Every user's local time is 2026-11-03, 00:00. *)
Definition local_nov3 : string -> datetime := fun _ => now_nov3.

(** A day after the leap day of a leap year. *)
Definition mar1_2028 : date := mkdate 2028 3 1.

Definition leap_row : Birthday :=
  mkBirthday 1 7 "Leap" (mkdate 2000 2 29) "friend" None None
    now_nov3 now_nov3 false None.

(** Three records 52, 2 and 17 days ahead of 2026-11-03. *)
Definition db_three : db :=
  add_for7 (add_for7 (add_for7 empty_db
    "Ann" "1990-12-25" "friend" None None)
    "Bob" "1991-11-05" "work" None None)
    "Cid" "1992-11-20" "friend" None None.

(** One record whose birthday is 2026-11-03. *)
Definition db_today : db :=
  add_for7 empty_db "Ann" "1990-11-03" "friend" None None.

Definition today_row : Birthday :=
  mkBirthday 1 7 "Ann" (mkdate 1990 11 3) "friend" None None
    now_nov3 now_nov3 false None.

End Samples.

(** * Properties *)

(** ** Calendar arithmetic *)

Section CalendarFacts.

Lemma check_date_fields_spec y m d :
  check_date_fields y m d = true <->
  MINYEAR <= y <= MAXYEAR /\ 1 <= m <= 12 /\ 1 <= d <= days_in_month y m.
Proof.
  unfold check_date_fields.
  rewrite !andb_true_iff, !Z.leb_le. tauto.
Qed.

Lemma new_date_Return y m d r :
  new_date y m d = Return r ->
  r = mkdate y m d /\ check_date_fields y m d = true.
Proof.
  unfold new_date. destruct (check_date_fields y m d); [|discriminate].
  intros [= <-]. auto.
Qed.

Lemma new_date_Raise y m d e : new_date y m d = Raise e -> e = ValueError.
Proof.
  unfold new_date. destruct (check_date_fields y m d); congruence.
Qed.

Lemma md_gt_spec m1 d1 m2 d2 :
  md_gt m1 d1 m2 d2 = true <-> m2 < m1 \/ (m1 = m2 /\ d2 < d1).
Proof.
  unfold md_gt.
  rewrite orb_true_iff, andb_true_iff, !Z.ltb_lt, Z.eqb_eq. tauto.
Qed.

Lemma md_gt_false m1 d1 m2 d2 :
  md_gt m1 d1 m2 d2 = false <-> m1 < m2 \/ (m1 = m2 /\ d1 <= d2).
Proof.
  rewrite <- not_true_iff_false, md_gt_spec. lia.
Qed.

(** Case analysis on a month number known to lie in 1..12. *)
Ltac month_cases m :=
  let H := fresh "Hm" in
  assert (H : m = 1 \/ m = 2 \/ m = 3 \/ m = 4 \/ m = 5 \/ m = 6 \/ m = 7 \/
              m = 8 \/ m = 9 \/ m = 10 \/ m = 11 \/ m = 12) by lia;
  repeat (destruct H as [H | H]); subst m.

(** Day of the year grows with (month, day). *)
Lemma day_of_year_mono y m1 d1 m2 d2 :
  1 <= m1 <= 12 -> 1 <= d1 <= days_in_month y m1 ->
  1 <= m2 <= 12 -> 1 <= d2 <= days_in_month y m2 ->
  md_gt m2 d2 m1 d1 = true ->
  days_before_month y m1 + d1 < days_before_month y m2 + d2.
Proof.
  intros Hm1 Hd1 Hm2 Hd2 Hgt.
  apply md_gt_spec in Hgt.
  unfold days_before_month, days_in_month in *.
  destruct (is_leap y); month_cases m1; month_cases m2; simpl in *; lia.
Qed.

Lemma day_of_year_range y m d :
  1 <= m <= 12 -> 1 <= d <= days_in_month y m ->
  1 <= days_before_month y m + d <= (if is_leap y then 366 else 365).
Proof.
  intros Hm Hd.
  unfold days_before_month, days_in_month in *.
  destruct (is_leap y); month_cases m; simpl in *; lia.
Qed.

(** The same (month, day) in two years: the day of the year moves by at most
    one (the leap day). *)
Lemma day_of_year_shift y y' m d :
  1 <= m <= 12 ->
  days_before_month y' m + d <= days_before_month y m + d + 1.
Proof.
  intros Hm. unfold days_before_month.
  destruct (is_leap y), (is_leap y'); month_cases m; simpl; lia.
Qed.

Lemma days_before_year_succ y :
  days_before_year (y + 1) =
  days_before_year y + (if is_leap y then 366 else 365).
Proof.
  unfold days_before_year, is_leap.
  replace (y + 1 - 1) with y by lia.
  destruct (y mod 4 =? 0) eqn:H4, (y mod 100 =? 0) eqn:H100,
           (y mod 400 =? 0) eqn:H400; simpl;
    rewrite ?Z.eqb_eq, ?Z.eqb_neq in *;
    Z.div_mod_to_equations; lia.
Qed.

Lemma date_lt_same_year y m1 d1 m2 d2 :
  date_lt (mkdate y m1 d1) (mkdate y m2 d2) = md_gt m2 d2 m1 d1.
Proof.
  unfold date_lt. simpl. rewrite Z.ltb_irrefl, Z.eqb_refl. reflexivity.
Qed.

(** The successor used for [date + timedelta] agrees with the ordinal used
    for [date - date]. *)
Lemma toordinal_tomorrow d :
  date_ok d = true -> toordinal (tomorrow d) = toordinal d + 1.
Proof.
  destruct d as [y m dd]. unfold date_ok. simpl.
  intros (Hy & Hm & Hd)%check_date_fields_spec.
  unfold tomorrow, toordinal. simpl.
  destruct (dd <? days_in_month y m) eqn:E1; simpl; [lia|].
  apply Z.ltb_ge in E1.
  destruct (m <? 12) eqn:E2; simpl.
  - apply Z.ltb_lt in E2.
    unfold days_before_month, days_in_month in *.
    destruct (is_leap y); month_cases m; simpl in *; lia.
  - apply Z.ltb_ge in E2. assert (m = 12) as -> by lia.
    rewrite days_before_year_succ.
    unfold days_before_month, days_in_month in *.
    destruct (is_leap y); simpl in *; lia.
Qed.

End CalendarFacts.

(** ** Ages *)

Section Ages.
Import InputValidator.

(** C3, as stated, fails: a birthdate accepted by [parse_date] may lie in the
    future (the year bound is the current year plus fifty), and its age is
    then negative.  Here the date 2030-01-01 is validated on 2026-11-03 and
    its age on that day is -4. *)
Lemma validated_age_negative :
  exists bd,
    parse_date Samples.now_nov3 "2030-01-01" = Some bd /\
    1900 <= year bd <= 2026 + 50 /\
    ~ (0 <= age bd Samples.nov3).
Proof.
  exists (mkdate 2030 1 1). vm_compute. repeat split; congruence.
Qed.

(** C3 (amended): for every birthdate and every reference date, the age is
    non-negative exactly when the birthdate is on or before the reference
    date. *)
Theorem age_nonneg_iff (bd today : date) :
  0 <= age bd today <-> date_le bd today = true.
Proof.
  unfold age, date_le, date_lt.
  rewrite negb_true_iff, orb_false_iff, andb_false_iff, Z.ltb_ge, Z.eqb_neq.
  destruct (md_gt (month bd) (day bd) (month today) (day today)) eqn:Hgt.
  - split; [intros H; split; [lia | left; lia] | intros [H1 [H2 | H2]]; [lia | discriminate]].
  - split; [intros H; split; [lia | right; reflexivity] | intros [H1 _]; lia].
Qed.

End Ages.

(** ** Days until the next occurrence *)

Section DaysUntil.
Import UserStatistics.

Lemma days_until_next_Raise bd today e :
  days_until_next bd today = Raise e -> e = ValueError.
Proof.
  unfold days_until_next, replace_month_day, replace_year.
  destruct (new_date (year today) (month bd) (day bd)) as [t|e1] eqn:H1; simpl.
  - destruct (date_lt t today); simpl.
    + destruct (new_date (year today + 1) (month t) (day t)) eqn:H2; simpl;
        [discriminate|]. intros [= <-]. eauto using new_date_Raise.
    + discriminate.
  - intros [= <-]. eauto using new_date_Raise.
Qed.

(** C4: whenever the computation of the loop body returns, the number of
    days lies between 0 and 366, and it is 0 exactly when the record's month
    and day are today's. *)
Theorem days_until_next_bounds (bd today : date) (n : Z) :
  date_ok today = true ->
  days_until_next bd today = Return n ->
  0 <= n <= 366 /\ (n = 0 <-> month bd = month today /\ day bd = day today).
Proof.
  intros Hok Hret.
  destruct today as [ty tm td], bd as [byr bm bdd].
  unfold date_ok in Hok. simpl in Hok.
  apply check_date_fields_spec in Hok as (Hy & Htm & Htd).
  unfold days_until_next, replace_month_day, replace_year in Hret. simpl in Hret.
  destruct (new_date ty bm bdd) as [t|] eqn:H1; simpl in Hret; [|discriminate].
  apply new_date_Return in H1 as [-> H1].
  apply check_date_fields_spec in H1 as (_ & Hbm & Hbd).
  rewrite date_lt_same_year in Hret.
  pose proof (day_of_year_range ty tm td Htm Htd) as Rt.
  pose proof (day_of_year_range ty bm bdd Hbm Hbd) as Rb.
  destruct (md_gt tm td bm bdd) eqn:Hlt; simpl in Hret.
  - destruct (new_date (ty + 1) bm bdd) as [t|] eqn:H2; simpl in Hret; [|discriminate].
    apply new_date_Return in H2 as [-> H2].
    apply check_date_fields_spec in H2 as (_ & _ & Hbd').
    injection Hret as <-.
    unfold sub_days, toordinal. simpl.
    rewrite days_before_year_succ.
    pose proof (day_of_year_range (ty + 1) bm bdd Hbm Hbd') as Rb'.
    pose proof (day_of_year_shift ty (ty + 1) bm bdd Hbm) as Sh.
    pose proof (day_of_year_mono ty bm bdd tm td Hbm Hbd Htm Htd Hlt) as Mo.
    apply md_gt_spec in Hlt.
    destruct (is_leap ty); lia.
  - injection Hret as <-.
    unfold sub_days, toordinal. simpl.
    destruct (md_gt bm bdd tm td) eqn:Hgt.
    + pose proof (day_of_year_mono ty tm td bm bdd Htm Htd Hbm Hbd Hgt) as Mo.
      apply md_gt_spec in Hgt.
      destruct (is_leap ty); lia.
    + apply md_gt_false in Hlt. apply md_gt_false in Hgt.
      assert (bm = tm /\ bdd = td) as [-> ->] by lia.
      lia.
Qed.

(** The scenario of the specification: on 2024-09-27 a birthday on December
    31st is 95 days away. *)
Lemma days_until_next_bounds_witness :
  date_ok (mkdate 2024 9 27) = true /\
  days_until_next (mkdate 1985 12 31) (mkdate 2024 9 27) = Return 95 /\
  (0 <= 95 <= 366 /\
   (95 = 0 <-> month (mkdate 1985 12 31) = month (mkdate 2024 9 27) /\
               day (mkdate 1985 12 31) = day (mkdate 2024 9 27))).
Proof.
  split; [reflexivity|]. split; [reflexivity|].
  apply (days_until_next_bounds (mkdate 1985 12 31) (mkdate 2024 9 27) 95);
    reflexivity.
Defined.

Lemma next_birthday_loop_raises today bs b :
  b ∈ bs ->
  days_until_next (birthdate b) today = Raise ValueError ->
  forall min_days nb,
    next_birthday_loop today bs min_days nb = Raise ValueError.
Proof.
  induction bs as [|a bs IH]; intros Hin Hb min_days nb.
  - inversion Hin.
  - simpl.
    destruct (days_until_next (birthdate a) today) as [n|e] eqn:Ha; simpl.
    + assert (b ∈ bs) as Hin'.
      { apply elem_of_cons in Hin as [-> | Hin]; [congruence | exact Hin]. }
      destruct (below n min_days); apply IH; assumption.
    + apply days_until_next_Raise in Ha. congruence.
Qed.

Lemma leap_day_not_in_common_year today bd :
  month bd = 2 -> day bd = 29 -> is_leap (year today) = false ->
  days_until_next bd today = Raise ValueError.
Proof.
  intros Hm Hd Hleap.
  unfold days_until_next, replace_month_day, new_date, check_date_fields.
  rewrite Hm, Hd. simpl. rewrite Hleap. simpl.
  rewrite !andb_false_r. reflexivity.
Qed.

Lemma get_or_none_user_id d uid u : get_or_none d uid = Some u -> user_id u = uid.
Proof.
  unfold get_or_none. intros H. apply find_some in H as [_ H]. lia.
Qed.

(** C5: when the user has an active record born on February 29 and the
    current year is not a leap year, [get_user_stats] raises [ValueError]
    instead of returning a dictionary. *)
Theorem get_user_stats_leap_day_raises (half_up : Z -> Z -> bool)
    (today : date) (d : db) (uid : Z) (b : Birthday) :
  is_Some (get_or_none d uid) ->
  b ∈ active_of_user d uid ->
  month (birthdate b) = 2 -> day (birthdate b) = 29 ->
  is_leap (year today) = false ->
  get_user_stats half_up today d uid = Raise ValueError.
Proof.
  intros [u Hu] Hin Hm Hd Hleap.
  unfold get_user_stats. rewrite Hu.
  rewrite (get_or_none_user_id _ _ _ Hu).
  destruct (active_of_user d uid) as [|a bs] eqn:Hbs; [inversion Hin|].
  change (length (a :: bs) =? 0)%nat with false. cbv iota.
  rewrite (next_birthday_loop_raises today (a :: bs) b Hin
             (leap_day_not_in_common_year today _ Hm Hd Hleap)).
  reflexivity.
Qed.

End DaysUntil.

Section DaysUntilWitness.
Import UserStatistics Samples.

Lemma get_user_stats_leap_day_raises_witness :
  exists b,
    is_Some (get_or_none db_leap 7) /\
    b ∈ active_of_user db_leap 7 /\
    month (birthdate b) = 2 /\ day (birthdate b) = 29 /\
    is_leap (year nov3) = false /\
    get_user_stats round_half_up nov3 db_leap 7 = Raise ValueError.
Proof.
  eexists.
  assert (Hu : is_Some (get_or_none db_leap 7)) by (eexists; reflexivity).
  assert (Hin : mkBirthday 1 7 "Leap" (mkdate 2000 2 29) "friend" None None
                  now_nov3 now_nov3 false None ∈ active_of_user db_leap 7)
    by (vm_compute; apply list_elem_of_here).
  split; [exact Hu|]. split; [exact Hin|].
  do 3 (split; [reflexivity|]).
  apply (get_user_stats_leap_day_raises round_half_up nov3 db_leap 7 _ Hu Hin);
    reflexivity.
Defined.

End DaysUntilWitness.

(** ** The store: names, rows and the invariant *)

Section TextFacts.
Import Text.

Lemma upper_char_lower_char c : upper_char (lower_char c) = upper_char c.
Proof. destruct c as [[] [] [] [] [] [] [] []]; reflexivity. Qed.

Lemma upper_char_idem c : upper_char (upper_char c) = upper_char c.
Proof. destruct c as [[] [] [] [] [] [] [] []]; reflexivity. Qed.

(** Title-casing changes letters only in their case. *)
Lemma upper_title_from p s : upper (title_from p s) = upper s.
Proof.
  unfold upper. revert p.
  induction s as [|c s IH]; intros p; simpl; [reflexivity|].
  destruct (isalpha c); simpl; rewrite IH; [|reflexivity].
  destruct p; [rewrite upper_char_lower_char | rewrite upper_char_idem];
    reflexivity.
Qed.

Lemma upper_title s : upper (title s) = upper s.
Proof. apply upper_title_from. Qed.

Lemma iexact_spec a b : iexact a b = true <-> upper a = upper b.
Proof. unfold iexact. apply String.eqb_eq. Qed.

End TextFacts.

Section ListFacts.
Context {A B : Type}.

Lemma find_Some_elem (p : A -> bool) (l : list A) (x : A) :
  List.find p l = Some x -> x ∈ l /\ p x = true.
Proof. intros H. apply find_some in H. rewrite list_elem_of_In. exact H. Qed.

Lemma find_None_elem (p : A -> bool) (l : list A) :
  List.find p l = None -> forall x, x ∈ l -> p x = false.
Proof.
  intros H x Hx. apply (find_none p l H). apply list_elem_of_In. exact Hx.
Qed.

Lemma find_is_Some (p : A -> bool) (l : list A) (x : A) :
  x ∈ l -> p x = true -> is_Some (List.find p l).
Proof.
  intros Hx Hp. destruct (List.find p l) eqn:E; [eauto|].
  rewrite (find_None_elem p l E x Hx) in Hp. discriminate.
Qed.

Lemma filter_elem (p : A -> bool) (l : list A) (x : A) :
  x ∈ List.filter p l <-> x ∈ l /\ p x = true.
Proof. rewrite !list_elem_of_In. apply filter_In. Qed.

Lemma NoDup_List_filter (p : A -> bool) (l : list A) :
  NoDup l -> NoDup (List.filter p l).
Proof.
  induction 1 as [|x l Hx Hl IH]; simpl; [constructor|].
  destruct (p x); [|exact IH].
  constructor; [|exact IH]. rewrite filter_elem. tauto.
Qed.

(** A function whose image of [l] has no duplicates is injective on [l]. *)
Lemma NoDup_fmap_eq (f : A -> B) (l : list A) (x y : A) :
  NoDup (f <$> l) -> x ∈ l -> y ∈ l -> f x = f y -> x = y.
Proof.
  induction l as [|a l IH]; intros Hnd Hx Hy Hf; [inversion Hx|].
  rewrite fmap_cons in Hnd. apply NoDup_cons in Hnd as [Ha Hnd].
  apply elem_of_cons in Hx as [-> | Hx]; apply elem_of_cons in Hy as [-> | Hy].
  - reflexivity.
  - exfalso. apply Ha. rewrite Hf. apply list_elem_of_fmap_2. exact Hy.
  - exfalso. apply Ha. rewrite <- Hf. apply list_elem_of_fmap_2. exact Hx.
  - apply IH; assumption.
Qed.

Lemma NoDup_all_equal (l : list A) (b : A) :
  NoDup l -> b ∈ l -> (forall x, x ∈ l -> x = b) -> length l = 1%nat.
Proof.
  intros Hnd Hb Hall.
  destruct l as [|x [|y l]]; [inversion Hb | reflexivity |].
  exfalso. apply NoDup_cons in Hnd as [Hx _]. apply Hx.
  rewrite (Hall x), <- (Hall y); [| right |]; left.
Qed.

End ListFacts.

Section StoreFacts.
Import Text InputValidator BirthdayService Invariant.

Lemma fmap_ext_elem {A B} (f g : A -> B) (l : list A) :
  (forall x, x ∈ l -> f x = g x) -> f <$> l = g <$> l.
Proof.
  induction l as [|a l IH]; intros H; [reflexivity|].
  rewrite !fmap_cons, (H a), IH; [reflexivity | | left].
  intros x Hx. apply H. right. exact Hx.
Qed.

Lemma find_app {A} (p : A -> bool) (l1 l2 : list A) :
  List.find p (l1 ++ l2) =
  match List.find p l1 with Some x => Some x | None => List.find p l2 end.
Proof.
  induction l1 as [|a l1 IH]; simpl; [reflexivity|].
  destruct (p a); [reflexivity | exact IH].
Qed.

Lemma next_id_fresh d b : b ∈ birthdays d -> id b < next_id d.
Proof.
  unfold next_id. induction (birthdays d) as [|a l IH]; intros H; [inversion H|].
  rewrite fmap_cons. cbn [foldr].
  apply elem_of_cons in H as [-> | H]; [lia | specialize (IH H); lia].
Qed.

Lemma get_or_none_elem d uid u :
  get_or_none d uid = Some u -> u ∈ users d /\ user_id u = uid.
Proof.
  unfold get_or_none. intros H. apply find_Some_elem in H as [H1 H2].
  split; [exact H1 | lia].
Qed.

Lemma get_or_create_spec now d uid un fn sa :
  let r := get_or_create now d uid un fn sa in
  user_id r.1 = uid /\
  birthdays r.2 = birthdays d /\
  get_or_none r.2 uid = Some r.1 /\
  (forall x, is_Some (get_or_none d x) -> is_Some (get_or_none r.2 x)) /\
  (is_Some (get_or_none d uid) -> r.2 = d).
Proof.
  unfold get_or_create.
  destruct (get_or_none d uid) as [u|] eqn:Hu; simpl.
  - apply get_or_none_elem in Hu as Hu'. intuition.
  - repeat split.
    + unfold get_or_none in *. simpl. rewrite find_app, Hu. simpl.
      rewrite Z.eqb_refl. reflexivity.
    + intros x [v Hv]. unfold get_or_none in *. simpl.
      rewrite find_app, Hv. eauto.
    + intros [v Hv]. discriminate.
Qed.

(** [save] keeps identifiers, owners and names when the saved object has
    those of the stored row it came from. *)
Lemma save_wf now b b' d :
  db_wf d -> b ∈ birthdays d ->
  id b' = id b -> user b' = user b -> name b' = name b ->
  db_wf (save now b' d).
Proof.
  intros [Hids Hkeys Hown] Hb Hid Hu Hn.
  set (g := fun r : Birthday =>
              if id r =? id b'
              then mkBirthday (id b') (user b') (name b') (birthdate b') (category b')
                     (image_url b') (notes b') (created_at b') now (is_deleted b')
                     (deleted_at b')
              else r).
  assert (Hg : forall r, r ∈ birthdays d ->
                 id (g r) = id r /\ key (g r) = key r /\ user (g r) = user r).
  { intros r Hr. unfold g. destruct (id r =? id b') eqn:E; [|auto].
    apply Z.eqb_eq in E.
    assert (r = b) as ->
      by (apply (NoDup_fmap_eq id (birthdays d)); auto; congruence).
    unfold key. simpl. rewrite Hid, Hu, Hn. auto. }
  assert (Hbs : birthdays (save now b' d) = g <$> birthdays d) by reflexivity.
  split.
  - rewrite Hbs, <- list_fmap_compose.
    rewrite (fmap_ext_elem (id ∘ g) id); [exact Hids|].
    intros r Hr. simpl. apply Hg, Hr.
  - rewrite Hbs, <- list_fmap_compose.
    rewrite (fmap_ext_elem (key ∘ g) key); [exact Hkeys|].
    intros r Hr. simpl. apply Hg, Hr.
  - intros r Hr. rewrite Hbs in Hr.
    apply list_elem_of_fmap in Hr as (r0 & -> & Hr0).
    destruct (Hg r0 Hr0) as (_ & _ & ->).
    apply (Hown r0 Hr0).
Qed.

Lemma create_wf now d uid nm nm' bd cat img nts :
  db_wf d -> is_Some (get_or_none d uid) ->
  first_by_name d uid nm' = None -> upper nm = upper nm' ->
  db_wf (create now d uid nm bd cat img nts).2.
Proof.
  intros [Hids Hkeys Hown] Hu Hnone Hup.
  unfold create. simpl. split; simpl.
  - rewrite fmap_app. apply NoDup_app. split; [exact Hids|]. split.
    + intros x Hx Hx'. apply list_elem_of_singleton in Hx'. simpl in Hx'.
      apply list_elem_of_fmap in Hx as (r & -> & Hr).
      apply next_id_fresh in Hr. lia.
    + apply NoDup_singleton.
  - rewrite fmap_app. apply NoDup_app. split; [exact Hkeys|]. split.
    + intros x Hx Hx'. apply list_elem_of_singleton in Hx'.
      unfold key in Hx'. simpl in Hx'. subst x.
      apply list_elem_of_fmap in Hx as (r & Hk & Hr).
      unfold key in Hk. injection Hk as Hk1 Hk2.
      pose proof (find_None_elem _ _ Hnone r Hr) as Hf. simpl in Hf.
      apply andb_false_iff in Hf as [Hf | Hf].
      * apply Z.eqb_neq in Hf. congruence.
      * apply not_true_iff_false in Hf. apply Hf. apply iexact_spec. congruence.
    + apply NoDup_singleton.
  - intros r Hr. apply elem_of_app in Hr as [Hr | Hr].
    + apply (Hown r Hr).
    + apply list_elem_of_singleton in Hr. subst r. exact Hu.
Qed.

Lemma get_or_create_wf now d uid un fn sa :
  db_wf d -> db_wf (get_or_create now d uid un fn sa).2.
Proof.
  intros Hwf. destruct (get_or_create_spec now d uid un fn sa) as (_ & Hb & _ & Hmono & _).
  destruct Hwf as [Hids Hkeys Hown].
  split; rewrite ?Hb; auto.
Qed.

Lemma delete_birthday_wf now d uid nm :
  db_wf d -> db_wf (delete_birthday now d uid nm).2.
Proof.
  intros Hwf. unfold delete_birthday.
  destruct (get_or_none d uid) as [u|]; [|exact Hwf].
  destruct (first_by_name_deleted d (user_id u) (strip nm) false) as [b|] eqn:Hf;
    [|exact Hwf].
  apply find_Some_elem in Hf as [Hb _].
  simpl. apply (save_wf now b); auto.
Qed.

Lemma restore_deleted_birthday_wf now d uid nm :
  db_wf d -> db_wf (restore_deleted_birthday now d uid nm).2.
Proof.
  intros Hwf. unfold restore_deleted_birthday.
  destruct (get_or_none d uid) as [u|]; [|exact Hwf].
  destruct (first_by_name_deleted d (user_id u) (strip nm) true) as [b|] eqn:Hf;
    [|exact Hwf].
  apply find_Some_elem in Hf as [Hb _].
  simpl. apply (save_wf now b); auto.
Qed.

Lemma update_birthday_wf url_ok now d uid nm nd nc ni nn :
  db_wf d -> db_wf (update_birthday url_ok now d uid nm nd nc ni nn).2.
Proof.
  intros Hwf. unfold update_birthday.
  destruct (get_or_none d uid) as [u|]; [|exact Hwf].
  destruct (first_by_name_deleted d (user_id u) (strip nm) false) as [b|] eqn:Hf;
    [|exact Hwf].
  apply find_Some_elem in Hf as [Hb _].
  repeat case_match; simpl; try exact Hwf; apply (save_wf now b); auto.
Qed.

Lemma add_birthday_wf url_ok now d uid nm ds cat img nts :
  db_wf d -> db_wf (add_birthday url_ok now d uid nm ds cat img nts).2.
Proof.
  intros Hwf. unfold add_birthday.
  destruct (validate_name nm); simpl; [|exact Hwf].
  destruct (parse_date now ds) as [bd|]; [|exact Hwf].
  destruct (validate_category cat); simpl; [|exact Hwf].
  destruct (truthy img && negb (validate_image_url url_ok img)); [exact Hwf|].
  pose proof (get_or_create_spec now d uid None None false) as (Hid & Hb & Hget & _ & _).
  pose proof (get_or_create_wf now d uid None None false Hwf) as Hwf1.
  destruct (get_or_create now d uid None None false) as [u d1]. simpl in *.
  destruct (first_by_name d1 (user_id u) (strip nm)) as [existing|] eqn:Hf.
  - apply find_Some_elem in Hf as [He _].
    destruct (is_deleted existing); simpl; [|exact Hwf1].
    apply (save_wf now existing); auto.
  - apply (create_wf now d1 (user_id u) _ (strip nm)); auto.
    + rewrite Hid, Hget. eauto.
    + apply upper_title.
Qed.

Theorem reachable_wf url_ok d : reachable url_ok d -> db_wf d.
Proof.
  induction 1.
  - split; simpl; [constructor | constructor | intros b Hb; inversion Hb].
  - apply get_or_create_wf; assumption.
  - apply add_birthday_wf; assumption.
  - apply delete_birthday_wf; assumption.
  - apply update_birthday_wf; assumption.
  - apply restore_deleted_birthday_wf; assumption.
Qed.

End StoreFacts.

(** ** Duplicate names, restoring and deleting *)

Section Duplicates.
Import Text InputValidator BirthdayService Invariant.

Lemma active_elem d uid b :
  b ∈ active_of_user d uid <->
  b ∈ birthdays d /\ user b = uid /\ is_deleted b = false.
Proof.
  unfold active_of_user.
  rewrite filter_elem, andb_true_iff, negb_true_iff, Z.eqb_eq. tauto.
Qed.

(** Two rows of one user with the same name up to case are the same row. *)
Lemma same_key d b r nm :
  db_wf d -> b ∈ birthdays d -> r ∈ birthdays d -> user r = user b ->
  iexact (name b) nm = true -> iexact (name r) nm = true -> r = b.
Proof.
  intros Hwf Hb Hr Hu Hnb Hnr.
  apply (NoDup_fmap_eq key (birthdays d)); auto using wf_keys.
  apply iexact_spec in Hnb, Hnr. unfold key. congruence.
Qed.

Lemma active_count_one d uid nm b :
  db_wf d -> b ∈ active_of_user d uid -> iexact (name b) nm = true ->
  active_count d uid nm = 1%nat.
Proof.
  intros Hwf Hb Hn. unfold active_count.
  apply active_elem in Hb as Hb'. destruct Hb' as (Hb1 & Hb2 & Hb3).
  apply (NoDup_all_equal _ b).
  - unfold active_of_user. do 2 apply NoDup_List_filter.
    apply (NoDup_fmap_1 id). apply (wf_ids _ Hwf).
  - apply filter_elem. auto.
  - intros x Hx. apply filter_elem in Hx as [Hx Hxn].
    apply active_elem in Hx as (Hx1 & Hx2 & _).
    apply (same_key d b x nm); auto. congruence.
Qed.

Lemma first_by_name_active d uid nm b :
  db_wf d -> b ∈ active_of_user d uid -> iexact (name b) nm = true ->
  first_by_name d uid nm = Some b.
Proof.
  intros Hwf Hb Hn. apply active_elem in Hb as (Hb1 & Hb2 & Hb3).
  unfold first_by_name.
  destruct (find_is_Some (fun r => (user r =? uid) && iexact (name r) nm)
              (birthdays d) b Hb1) as [r Hr].
  { rewrite Hn, Hb2, Z.eqb_refl. reflexivity. }
  rewrite Hr. f_equal.
  apply find_Some_elem in Hr as [Hr1 Hr2].
  apply andb_true_iff in Hr2 as [Hr2 Hr3]. apply Z.eqb_eq in Hr2.
  apply (same_key d b r nm); auto. congruence.
Qed.

(** C8: in a store the service has produced, when the user already holds an
    active record with the given name (up to case), [add_birthday] returns a
    failure, leaves the store as it is, and the name is held by exactly one
    active record; when the arguments are valid (as they are in a repeated
    call) the message is the duplicate message. *)
Theorem add_birthday_duplicate (url_ok : string -> bool) (now : datetime)
    (d : db) (uid : Z) (nm ds cat : string) (img nts : option string)
    (b : Birthday) :
  reachable url_ok d ->
  b ∈ active_of_user d uid ->
  iexact (name b) (strip nm) = true ->
  exists msg,
    add_birthday url_ok now d uid nm ds cat img nts = (failure msg, d) /\
    active_count d uid (strip nm) = 1%nat /\
    (validate_name nm = true ->
     is_Some (parse_date now ds) ->
     validate_category cat = true ->
     (truthy img = true -> validate_image_url url_ok img = true) ->
     msg = "Birthday for " +:+ nm +:+ " already exists").
Proof.
  intros Hreach Hb Hn.
  pose proof (reachable_wf _ _ Hreach) as Hwf.
  pose proof (active_count_one d uid (strip nm) b Hwf Hb Hn) as Hcount.
  pose proof (first_by_name_active d uid (strip nm) b Hwf Hb Hn) as Hfirst.
  apply active_elem in Hb as (Hb1 & Hb2 & Hb3).
  unfold add_birthday.
  destruct (validate_name nm); simpl;
    [|eexists; split; [reflexivity|]; split; [exact Hcount|]; intros; discriminate].
  destruct (parse_date now ds) as [bd|];
    [|eexists; split; [reflexivity|]; split; [exact Hcount|];
      intros _ [? ?]; discriminate].
  destruct (validate_category cat); simpl;
    [|eexists; split; [reflexivity|]; split; [exact Hcount|]; intros; discriminate].
  destruct (truthy img && negb (validate_image_url url_ok img)) eqn:Himg.
  { eexists; split; [reflexivity|]; split; [exact Hcount|].
    intros _ _ _ Hi. apply andb_true_iff in Himg as [Ht Hv].
    rewrite (Hi Ht) in Hv. discriminate. }
  pose proof (get_or_create_spec now d uid None None false) as (Hid & _ & _ & _ & Hsame).
  destruct (get_or_create now d uid None None false) as [u d1]. simpl in *.
  rewrite Hsame by (rewrite <- Hb2; apply (wf_owner _ Hwf), Hb1).
  rewrite Hid, Hfirst, Hb3. simpl.
  eexists; split; [reflexivity|]; split; [exact Hcount|]. reflexivity.
Qed.

(** C9: in a store the service has produced, restoring a name whose record
    is active fails with the no-deleted-record message and changes nothing;
    and after a successful [delete_birthday], deleting the same name again
    fails with the not-found message and changes nothing. *)
Theorem restore_active_and_delete_twice (url_ok : string -> bool)
    (now now' : datetime) (d : db) (uid : Z) (nm : string) :
  reachable url_ok d ->
  (forall b, b ∈ active_of_user d uid -> iexact (name b) (strip nm) = true ->
     restore_deleted_birthday now d uid nm =
     (failure ("No deleted birthday found for " +:+ nm), d)) /\
  (forall r1 d1, delete_birthday now d uid nm = (r1, d1) -> success r1 = true ->
     delete_birthday now' d1 uid nm =
     (failure ("Birthday for " +:+ nm +:+ " not found"), d1)).
Proof.
  intros Hreach. pose proof (reachable_wf _ _ Hreach) as Hwf. split.
  - intros b Hb Hn. apply active_elem in Hb as (Hb1 & Hb2 & Hb3).
    unfold restore_deleted_birthday.
    destruct (wf_owner _ Hwf b Hb1) as [u Hu]. rewrite Hb2 in Hu. rewrite Hu.
    apply get_or_none_elem in Hu as [_ Hid]. rewrite Hid.
    destruct (first_by_name_deleted d uid (strip nm) true) as [r|] eqn:Hf;
      [|reflexivity].
    exfalso. apply find_Some_elem in Hf as [Hr Hp].
    apply andb_true_iff in Hp as [Hp Hdel].
    apply andb_true_iff in Hp as [Hru Hrn].
    apply Z.eqb_eq in Hru. apply Bool.eqb_prop in Hdel.
    assert (r = b) by (apply (same_key d b r (strip nm)); auto; congruence).
    congruence.
  - intros r1 d1. unfold delete_birthday.
    destruct (get_or_none d uid) as [u|] eqn:Hu;
      [|intros [= <- <-]; discriminate].
    apply get_or_none_elem in Hu as Hu'. destruct Hu' as [_ Hid]. rewrite Hid.
    destruct (first_by_name_deleted d uid (strip nm) false) as [b|] eqn:Hf;
      [|intros [= <- <-]; discriminate].
    intros [= <- <-] _.
    apply find_Some_elem in Hf as [Hb Hp].
    apply andb_true_iff in Hp as [Hp Hbdel].
    apply andb_true_iff in Hp as [Hbu Hbn]. apply Z.eqb_eq in Hbu.
    change (get_or_none (save now _ d) uid) with (get_or_none d uid).
    rewrite Hu, Hid.
    match goal with
    | |- context [first_by_name_deleted ?d1 uid (strip nm) false] =>
        destruct (first_by_name_deleted d1 uid (strip nm) false) as [r|] eqn:Hf
    end; [|reflexivity].
    exfalso. apply find_Some_elem in Hf as [Hr Hp].
    apply andb_true_iff in Hp as [Hp Hrdel].
    apply andb_true_iff in Hp as [Hru Hrn]. apply Z.eqb_eq in Hru.
    apply Bool.eqb_prop in Hrdel.
    simpl in Hr. apply list_elem_of_fmap in Hr as (r0 & Hr0 & Hr0in).
    simpl in Hr0. destruct (id r0 =? id b) eqn:E.
    + subst r. simpl in Hrdel. discriminate.
    + subst r0. apply Z.eqb_neq in E. apply E. f_equal.
      apply (same_key d b r (strip nm)); auto. congruence.
Qed.

End Duplicates.

Section DuplicatesWitness.
Import Text InputValidator BirthdayService Invariant Samples.

Lemma reachable_db_john : reachable http_url db_john.
Proof. unfold db_john. apply reach_add, reach_empty. Qed.

Lemma john_row_active : john_row ∈ active_of_user db_john 7.
Proof. vm_compute. apply list_elem_of_here. Qed.

(** The scenario of the specification: John is added twice in a row. *)
Lemma add_birthday_duplicate_witness :
  reachable http_url db_john /\
  john_row ∈ active_of_user db_john 7 /\
  iexact (name john_row) (strip "John") = true /\
  exists msg,
    add_birthday http_url now_nov3 db_john 7 "John" "1995-09-27" "family" None None
      = (failure msg, db_john) /\
    active_count db_john 7 (strip "John") = 1%nat /\
    (validate_name "John" = true ->
     is_Some (parse_date now_nov3 "1995-09-27") ->
     validate_category "family" = true ->
     (truthy None = true -> validate_image_url http_url None = true) ->
     msg = "Birthday for " +:+ "John" +:+ " already exists").
Proof.
  split; [exact reachable_db_john|].
  split; [exact john_row_active|].
  split; [reflexivity|].
  apply (add_birthday_duplicate http_url now_nov3 db_john 7 "John" "1995-09-27"
           "family" None None john_row reachable_db_john john_row_active).
  reflexivity.
Defined.

Lemma restore_active_and_delete_twice_witness :
  reachable http_url db_john /\
  restore_deleted_birthday now_nov3 db_john 7 "john" =
    (failure "No deleted birthday found for john", db_john) /\
  delete_birthday now_nov3 (delete_birthday now_nov3 db_john 7 "John").2 7 "John" =
    (failure "Birthday for John not found",
     (delete_birthday now_nov3 db_john 7 "John").2).
Proof.
  split; [exact reachable_db_john|]. split.
  - apply (proj1 (restore_active_and_delete_twice http_url now_nov3 now_nov3
                    db_john 7 "john" reachable_db_john) john_row john_row_active).
    reflexivity.
  - apply (proj2 (restore_active_and_delete_twice http_url now_nov3 now_nov3
                    db_john 7 "John" reachable_db_john)
             (delete_birthday now_nov3 db_john 7 "John").1).
    + vm_compute. reflexivity.
    + reflexivity.
Defined.

End DuplicatesWitness.

(** ** Dictionaries filled by a loop over fixed keys *)

Section LoopMaps.
Context {A V : Type} (g : A -> V).

Lemma insert_all_notin l : forall m0 s,
  s ∉ l.*2 -> insert_all g m0 l !! s = m0 !! s.
Proof.
  induction l as [|[x k] l IH]; intros m0 s Hs; [reflexivity|].
  rewrite fmap_cons in Hs. apply not_elem_of_cons in Hs as [Hne Hs].
  simpl in Hne. unfold insert_all in *. simpl. rewrite IH by exact Hs.
  apply lookup_insert_ne. congruence.
Qed.

Lemma insert_all_lookup l : forall m0 a s,
  NoDup l.*2 -> (a, s) ∈ l -> insert_all g m0 l !! s = Some (g a).
Proof.
  induction l as [|[x k] l IH]; intros m0 a s Hnd Hin; [inversion Hin|].
  rewrite fmap_cons in Hnd. apply NoDup_cons in Hnd as [Hk Hnd].
  apply elem_of_cons in Hin as [[= -> ->] | Hin].
  - change (insert_all g (<[k := g x]> m0) l !! k = Some (g x)).
    rewrite insert_all_notin by exact Hk. apply lookup_insert_eq.
  - change (insert_all g (<[k := g x]> m0) l !! s = Some (g a)).
    apply IH; assumption.
Qed.

End LoopMaps.

(** ** Monthly distribution *)

Section Monthly.
Import UserStatistics AdminService Samples.

Lemma count_if_none {A} (p : A -> bool) (l : list A) :
  (forall x, x ∈ l -> p x = false) -> count_if p l = 0%nat.
Proof.
  unfold count_if. induction l as [|a l IH]; intros H; [reflexivity|].
  simpl. rewrite (H a) by left. apply IH. intros x Hx. apply H. right. exact Hx.
Qed.

Lemma month_names_pairs k :
  k ∈ month_names -> exists i, (i, k) ∈ zip (seqZ 1 12) month_names.
Proof.
  intros Hk. unfold month_names in Hk.
  repeat (apply elem_of_cons in Hk as [-> | Hk]);
    [exists 1 | exists 2 | exists 3 | exists 4 | exists 5 | exists 6
    | exists 7 | exists 8 | exists 9 | exists 10 | exists 11 | exists 12
    | inversion Hk].
  all: apply (bool_decide_unpack _); vm_compute; exact I.
Qed.

Lemma monthly_of_lookup df i k :
  (i, k) ∈ zip (seqZ 1 12) month_names ->
  monthly_of df !! k = Some (month_count df i).
Proof.
  intros Hin. unfold monthly_of.
  apply (insert_all_lookup (month_count df)); [|exact Hin].
  apply (bool_decide_unpack _). vm_compute. exact I.
Qed.

(** C2, as stated, fails: a known user without records gets the empty
    mapping as monthly distribution, and the analytics over an empty store is
    the error dictionary. *)
Lemma zero_records_no_months :
  (exists s,
     get_user_stats round_half_up nov3 db_user_only 7 = Return (Stats s) /\
     UserStatistics.monthly_distribution s !! "January" = None) /\
  get_analytics_report round_half_up now_nov3 empty_db =
    AnalyticsError "No data available for analysis".
Proof.
  split; [|reflexivity].
  eexists. split; [vm_compute; reflexivity|]. reflexivity.
Qed.

(** C2 (amended): for a known user with zero active records
    [get_user_stats] returns the zero dictionary, whose monthly distribution
    is the empty mapping (and the empty dictionary for a user the store does
    not know); the analytics over a store with zero records is the error
    dictionary; over a store with at least one record the report has all
    twelve months as keys, each with count 0 when no record is active. *)
Theorem monthly_distribution_zero_records (half_up : Z -> Z -> bool) :
  (forall today d uid,
     get_or_none d uid = None ->
     get_user_stats half_up today d uid = Return NoStats) /\
  (forall today d uid,
     is_Some (get_or_none d uid) -> active_of_user d uid = [] ->
     get_user_stats half_up today d uid =
       Return (Stats (mkStats 0 0 None ∅ ∅ 0 None))) /\
  (forall now d,
     birthdays d = [] ->
     get_analytics_report half_up now d =
       AnalyticsError "No data available for analysis") /\
  (forall now d,
     birthdays d <> [] ->
     exists r,
       get_analytics_report half_up now d = Analytics r /\
       (forall k, k ∈ month_names ->
          is_Some (AdminService.monthly_distribution r !! k)) /\
       ((forall b, b ∈ birthdays d -> is_deleted b = true) ->
        forall k, k ∈ month_names ->
          AdminService.monthly_distribution r !! k = Some 0%nat)).
Proof.
  split; [|split; [|split]].
  - intros today d uid Hu. unfold get_user_stats. rewrite Hu. reflexivity.
  - intros today d uid [u Hu] Hnone.
    unfold get_user_stats. rewrite Hu, (get_or_none_user_id _ _ _ Hu), Hnone.
    reflexivity.
  - intros now d Hnone. unfold get_analytics_report, get_all_birthdays.
    rewrite Hnone. reflexivity.
  - intros now d Hne. unfold get_analytics_report.
    change (get_all_birthdays d true) with (row_of d <$> birthdays d).
    destruct (birthdays d) as [|b0 bs] eqn:Hbs; [congruence|].
    rewrite fmap_cons. cbv iota.
    eexists. split; [reflexivity|]. cbn [AdminService.monthly_distribution].
    split.
    + intros k Hk. destruct (month_names_pairs k Hk) as [i Hi].
      rewrite (monthly_of_lookup _ i k Hi). eauto.
    + intros Hdel k Hk. destruct (month_names_pairs k Hk) as [i Hi].
      rewrite (monthly_of_lookup _ i k Hi). f_equal.
      apply count_if_none. intros x Hx.
      rewrite <- fmap_cons in Hx.
      apply list_elem_of_fmap in Hx as (row & -> & Hrow).
      apply list_elem_of_fmap in Hrow as (b & -> & Hb).
      cbn [df_is_deleted df_birth_month row_of r_is_deleted].
      rewrite (Hdel b Hb). apply andb_false_r.
Qed.

Lemma monthly_distribution_zero_records_witness :
  (get_or_none empty_db 7 = None /\
   get_user_stats round_half_up nov3 empty_db 7 = Return NoStats) /\
  (is_Some (get_or_none db_user_only 7) /\ active_of_user db_user_only 7 = [] /\
   get_user_stats round_half_up nov3 db_user_only 7 =
     Return (Stats (mkStats 0 0 None ∅ ∅ 0 None))) /\
  (birthdays empty_db = [] /\
   get_analytics_report round_half_up now_nov3 empty_db =
     AnalyticsError "No data available for analysis") /\
  (birthdays db_john_deleted <> [] /\
   (forall b, b ∈ birthdays db_john_deleted -> is_deleted b = true) /\
   exists r,
     get_analytics_report round_half_up now_nov3 db_john_deleted = Analytics r /\
     AdminService.monthly_distribution r !! "Sep" = Some 0%nat).
Proof.
  destruct (monthly_distribution_zero_records round_half_up) as (H0 & H1 & H2 & H3).
  assert (Hu : is_Some (get_or_none db_user_only 7)) by (eexists; reflexivity).
  assert (Hne : birthdays db_john_deleted <> []) by (vm_compute; discriminate).
  assert (Hdel : forall b, b ∈ birthdays db_john_deleted -> is_deleted b = true).
  { intros b Hb. vm_compute in Hb. apply list_elem_of_singleton in Hb.
    subst b. reflexivity. }
  split; [|split; [|split]].
  - split; [reflexivity|]. apply (H0 nov3 empty_db 7). reflexivity.
  - split; [exact Hu|]. split; [reflexivity|].
    apply (H1 nov3 db_user_only 7 Hu). reflexivity.
  - split; [reflexivity|]. apply (H2 now_nov3 empty_db). reflexivity.
  - split; [exact Hne|]. split; [exact Hdel|].
    destruct (H3 now_nov3 db_john_deleted Hne) as (r & Hr & _ & Hzero).
    exists r. split; [exact Hr|].
    apply (Hzero Hdel). apply (bool_decide_unpack _). vm_compute. exact I.
Defined.

End Monthly.

(** ** Median age *)

Section Median.
Import AdminService Spec Samples.

Lemma report_median half_up now d r :
  get_analytics_report half_up now d = Analytics r ->
  as_median (age_statistics r) = median (report_ages now (get_all_birthdays d true)).
Proof.
  unfold get_analytics_report.
  destruct (get_all_birthdays d true); [discriminate|].
  intros [= <-]. reflexivity.
Qed.

Lemma median_lookup ages :
  ages <> [] ->
  merge_sort Z.le ages !! (length ages / 2)%nat = Some (median ages).
Proof.
  intros Hne.
  assert (Hlen : length (merge_sort Z.le ages) = length ages)
    by (apply Permutation_length, merge_sort_Permutation).
  assert (Hpos : (0 < length ages)%nat)
    by (destruct ages; [congruence | simpl; lia]).
  assert (Hlt : (length ages / 2 < length (merge_sort Z.le ages))%nat)
    by (rewrite Hlen; apply Nat.div_lt; lia).
  apply lookup_lt_is_Some_2 in Hlt as [x Hx].
  unfold median. destruct ages; [congruence|].
  rewrite Hx. reflexivity.
Qed.

(** C6, as stated, fails: on four records of ages 1, 2, 3 and 4 the report's
    median is 3, the element at index [n/2 = 2] of the sorted ages, whereas
    the lower-middle element is 2. *)
Lemma median_is_not_lower_middle :
  exists r,
    get_analytics_report round_half_up now_nov3 db_four = Analytics r /\
    report_ages now_nov3 (get_all_birthdays db_four true) = [1; 2; 3; 4] /\
    as_median (age_statistics r) = 3 /\
    lower_middle [1; 2; 3; 4] = 2 /\
    as_median (age_statistics r) <> lower_middle [1; 2; 3; 4].
Proof.
  eexists. split; [vm_compute; reflexivity|].
  repeat split; try reflexivity. vm_compute. discriminate.
Qed.

(** C6 (amended): for every non-empty set of active records the median of
    the report is the element at index [n/2] of the ages sorted ascending;
    for an even number of ages this is the upper-middle element: [n/2]
    elements of the sorted list come before it and [n/2 - 1] after it. *)
Theorem median_upper_middle (half_up : Z -> Z -> bool) (now : datetime)
    (d : db) (r : Report) :
  get_analytics_report half_up now d = Analytics r ->
  report_ages now (get_all_birthdays d true) <> [] ->
  exists l1 l2,
    merge_sort Z.le (report_ages now (get_all_birthdays d true)) =
      l1 ++ as_median (age_statistics r) :: l2 /\
    Sorted Z.le (l1 ++ as_median (age_statistics r) :: l2) /\
    length l1 = (length (report_ages now (get_all_birthdays d true)) / 2)%nat /\
    (Nat.Even (length (report_ages now (get_all_birthdays d true))) ->
     S (length l2) = length l1).
Proof.
  intros Hr Hne. rewrite (report_median _ _ _ _ Hr).
  set (ages := report_ages now (get_all_birthdays d true)) in *.
  pose proof (median_lookup ages Hne) as Hx.
  assert (Hlen : length (merge_sort Z.le ages) = length ages)
    by (apply Permutation_length, merge_sort_Permutation).
  exists (take (length ages / 2) (merge_sort Z.le ages)),
         (drop (S (length ages / 2)) (merge_sort Z.le ages)).
  rewrite (take_drop_middle _ _ _ Hx).
  split; [reflexivity|]. split; [apply Sorted_merge_sort; apply _|].
  apply lookup_lt_Some in Hx.
  rewrite length_take, length_drop, Hlen. split; [lia|].
  intros [k Hk]. rewrite Hk in *.
  replace (2 * k / 2)%nat with k in * by (symmetry; rewrite Nat.mul_comm; apply Nat.div_mul; lia).
  lia.
Qed.

Lemma median_upper_middle_witness :
  exists r,
    get_analytics_report round_half_up now_nov3 db_four = Analytics r /\
    report_ages now_nov3 (get_all_birthdays db_four true) <> [] /\
    exists l1 l2,
      merge_sort Z.le (report_ages now_nov3 (get_all_birthdays db_four true)) =
        l1 ++ as_median (age_statistics r) :: l2 /\
      Sorted Z.le (l1 ++ as_median (age_statistics r) :: l2) /\
      length l1 = (length (report_ages now_nov3 (get_all_birthdays db_four true)) / 2)%nat /\
      (Nat.Even (length (report_ages now_nov3 (get_all_birthdays db_four true))) ->
       S (length l2) = length l1).
Proof.
  eexists.
  assert (Hne : report_ages now_nov3 (get_all_birthdays db_four true) <> [])
    by (vm_compute; discriminate).
  split; [vm_compute; reflexivity|]. split; [exact Hne|].
  apply (median_upper_middle round_half_up now_nov3 db_four _); [|exact Hne].
  vm_compute. reflexivity.
Defined.

End Median.

(** ** Percentages *)

Section Percentages.
Import AdminService Spec Samples.

Lemma round1_nearest half_up num den :
  0 < den -> 2 * Z.abs (10 * num - round1 half_up num den * den) <= den.
Proof.
  intros Hden. unfold round1.
  pose proof (Z.div_mod (10 * num) den ltac:(lia)) as Hdm.
  pose proof (Z.mod_pos_bound (10 * num) den Hden) as Hr.
  set (q := 10 * num / den) in *. set (r := (10 * num) mod den) in *.
  destruct (2 * r <? den) eqn:H1; [apply Z.ltb_lt in H1; lia|].
  apply Z.ltb_ge in H1.
  destruct (den <? 2 * r) eqn:H2; [apply Z.ltb_lt in H2; lia|].
  apply Z.ltb_ge in H2.
  destruct (half_up num den); lia.
Qed.

Lemma percentage_nearest half_up count total :
  nearest_tenth_pct (percentage half_up count total) count total.
Proof.
  unfold nearest_tenth_pct, percentage. split.
  - intros ->. reflexivity.
  - intros Hpos. destruct (0 <? total)%nat eqn:E; [|apply Nat.ltb_ge in E; lia].
    pose proof (round1_nearest half_up (100 * Z.of_nat count) (Z.of_nat total)
                  ltac:(lia)) as H.
    replace (1000 * Z.of_nat count) with (10 * (100 * Z.of_nat count)) by lia.
    exact H.
Qed.

Lemma percentage_range half_up count total :
  (count <= total)%nat -> 0 <= percentage half_up count total <= 1000.
Proof.
  intros Hle. destruct (percentage_nearest half_up count total) as [H0 Hn].
  destruct total as [|t]; [rewrite H0 by reflexivity; lia|].
  specialize (Hn ltac:(lia)).
  set (p := percentage half_up count (S t)) in *.
  set (T := Z.of_nat (S t)) in *. set (C := Z.of_nat count) in *.
  assert (0 < T) by (unfold T; lia). assert (0 <= C <= T) by (unfold C, T; lia).
  split; nia.
Qed.

(** What rounding to the nearest tenth can add to one share. *)
Lemma percentage_upper half_up count total :
  (0 < total)%nat ->
  2 * Z.of_nat total * percentage half_up count total
  <= 2000 * Z.of_nat count + Z.of_nat total.
Proof.
  intros Hpos. destruct (percentage_nearest half_up count total) as [_ Hn].
  specialize (Hn Hpos). lia.
Qed.

Lemma count_if_le {A} (p : A -> bool) (l : list A) : (count_if p l <= length l)%nat.
Proof. unfold count_if. apply filter_length_le. Qed.

(** The six category counts are counts of disjoint sets of rows. *)
Lemma category_counts_le active :
  (category_count active "love" + category_count active "family" +
   category_count active "relative" + category_count active "work" +
   category_count active "friend" + category_count active "other"
   <= length active)%nat.
Proof.
  unfold category_count, count_if.
  induction active as [|a l IH]; simpl; [lia|].
  destruct (String.eqb (r_category a) "love") eqn:E1;
  destruct (String.eqb (r_category a) "family") eqn:E2;
  destruct (String.eqb (r_category a) "relative") eqn:E3;
  destruct (String.eqb (r_category a) "work") eqn:E4;
  destruct (String.eqb (r_category a) "friend") eqn:E5;
  destruct (String.eqb (r_category a) "other") eqn:E6;
  rewrite ?String.eqb_eq in *; simpl; try lia; congruence.
Qed.

Lemma category_stats_lookup half_up active key nm :
  (key, nm) ∈ BIRTHDAY_CATEGORIES ->
  category_stats_of half_up active !! nm =
  Some (mkCat (category_count active key)
          (percentage half_up (category_count active key) (length active))).
Proof.
  intros Hin. unfold category_stats_of.
  apply (insert_all_lookup
           (fun k => mkCat (category_count active k)
                       (percentage half_up (category_count active k) (length active))));
    [|exact Hin].
  apply (bool_decide_unpack _). vm_compute. exact I.
Qed.

(** Rows counted among the non-deleted rows of [df_data] are at most the
    active rows. *)
Lemma count_active_le now bs d (p : DfRow -> bool) :
  (count_if (fun b => p b && negb (df_is_deleted b)) (df_data_of now (row_of d <$> bs))
   <= length (row_of d <$> List.filter (fun b => negb (is_deleted b)) bs))%nat.
Proof.
  unfold count_if, df_data_of. rewrite length_fmap.
  induction bs as [|b bs IH]; [simpl; lia|].
  rewrite !fmap_cons. cbn [List.filter df_is_deleted row_of r_is_deleted].
  destruct (is_deleted b); cbn [negb]; rewrite ?andb_false_r, ?andb_true_r; [exact IH|].
  destruct (p _); cbn [length]; lia.
Qed.

Lemma analytics_report_inv half_up now d r :
  get_analytics_report half_up now d = Analytics r ->
  overview r =
    mkOverview
      (size (list_to_set (r_user_id <$> get_all_birthdays d true) : gset Z))
      (length (get_all_birthdays d true))
      (length (get_all_birthdays d false))
      (length (get_all_birthdays d true) - length (get_all_birthdays d false))
      (percentage half_up
         (length (get_all_birthdays d true) - length (get_all_birthdays d false))
         (length (get_all_birthdays d true))) /\
  category_distribution r = category_stats_of half_up (get_all_birthdays d false) /\
  engagement r =
    mkEng
      (count_if (fun b => df_has_image b && negb (df_is_deleted b))
         (df_data_of now (get_all_birthdays d true)))
      (count_if (fun b => df_has_notes b && negb (df_is_deleted b))
         (df_data_of now (get_all_birthdays d true)))
      (percentage half_up
         (count_if (fun b => df_has_image b && negb (df_is_deleted b))
            (df_data_of now (get_all_birthdays d true)))
         (length (get_all_birthdays d false)))
      (percentage half_up
         (count_if (fun b => df_has_notes b && negb (df_is_deleted b))
            (df_data_of now (get_all_birthdays d true)))
         (length (get_all_birthdays d false))).
Proof.
  unfold get_analytics_report.
  destruct (get_all_birthdays d true); [discriminate|].
  intros [= <-]. auto.
Qed.

(** The six shares of the category dimension add up to at most 100.3. *)
Lemma category_sum_bound half_up active :
  sumZ ((fun nm => from_option cs_percentage 0
                     (category_stats_of half_up active !! nm))
        <$> BIRTHDAY_CATEGORIES.*2) <= 1003.
Proof.
  cbn [fmap list_fmap BIRTHDAY_CATEGORIES snd sumZ foldr].
  rewrite (category_stats_lookup half_up active "love") by (apply (bool_decide_unpack _); vm_compute; exact I).
  rewrite (category_stats_lookup half_up active "family") by (apply (bool_decide_unpack _); vm_compute; exact I).
  rewrite (category_stats_lookup half_up active "relative") by (apply (bool_decide_unpack _); vm_compute; exact I).
  rewrite (category_stats_lookup half_up active "work") by (apply (bool_decide_unpack _); vm_compute; exact I).
  rewrite (category_stats_lookup half_up active "friend") by (apply (bool_decide_unpack _); vm_compute; exact I).
  rewrite (category_stats_lookup half_up active "other") by (apply (bool_decide_unpack _); vm_compute; exact I).
  cbn [from_option cs_percentage].
  pose proof (category_counts_le active) as Hsum.
  destruct (length active) as [|n] eqn:Hn.
  { unfold percentage. simpl. lia. }
  rewrite <- Hn in *.
  assert (Hpos : (0 < length active)%nat) by lia.
  pose proof (percentage_upper half_up (category_count active "love") _ Hpos).
  pose proof (percentage_upper half_up (category_count active "family") _ Hpos).
  pose proof (percentage_upper half_up (category_count active "relative") _ Hpos).
  pose proof (percentage_upper half_up (category_count active "work") _ Hpos).
  pose proof (percentage_upper half_up (category_count active "friend") _ Hpos).
  pose proof (percentage_upper half_up (category_count active "other") _ Hpos).
  nia.
Qed.

End Percentages.

Section PercentageClaims.
Import AdminService Spec Samples.

(** C7, as stated, fails: with one record in each of the six categories every
    share is 16.7 and the shares add up to 100.2; one record that has a photo
    and notes gives two engagement rates of 100.0 each.  (No quotient in
    these two reports lies half-way between two tenths.) *)
Lemma percentages_exceed_100 :
  (exists r,
     get_analytics_report round_half_up now_nov3 db_six = Analytics r /\
     category_percentage r "💕 Love" = 167 /\
     category_percentage_sum r = 1002 /\
     ~ (category_percentage_sum r <= 1000)) /\
  (exists r,
     get_analytics_report round_half_up now_nov3 db_photo_notes = Analytics r /\
     image_usage_rate (engagement r) = 1000 /\
     notes_usage_rate (engagement r) = 1000 /\
     ~ (engagement_percentage_sum r <= 1000)).
Proof.
  split; eexists; (split; [vm_compute; reflexivity|]);
    repeat split; try reflexivity; vm_compute; congruence.
Qed.

(** C7 (amended): in every report each percentage is a nearest tenth of its
    ratio, is 0 when its denominator is 0, and lies between 0 and 100; the
    six category shares add up to at most 100.3 and the two engagement rates
    to at most 200. *)
Theorem analytics_percentages (half_up : Z -> Z -> bool) (now : datetime)
    (d : db) (r : Report) :
  get_analytics_report half_up now d = Analytics r ->
  (nearest_tenth_pct (deletion_rate (overview r))
     (deleted_birthdays (overview r)) (total_birthdays (overview r)) /\
   0 <= deletion_rate (overview r) <= 1000) /\
  (nearest_tenth_pct (image_usage_rate (engagement r))
     (birthdays_with_images (engagement r)) (active_birthdays (overview r)) /\
   0 <= image_usage_rate (engagement r) <= 1000) /\
  (nearest_tenth_pct (notes_usage_rate (engagement r))
     (birthdays_with_notes (engagement r)) (active_birthdays (overview r)) /\
   0 <= notes_usage_rate (engagement r) <= 1000) /\
  (forall nm, nm ∈ BIRTHDAY_CATEGORIES.*2 ->
     exists cs,
       category_distribution r !! nm = Some cs /\
       nearest_tenth_pct (cs_percentage cs) (cs_count cs)
         (active_birthdays (overview r)) /\
       0 <= cs_percentage cs <= 1000) /\
  category_percentage_sum r <= 1003 /\
  engagement_percentage_sum r <= 2000.
Proof.
  intros Hr. destruct (analytics_report_inv _ _ _ _ Hr) as (Ho & Hc & He).
  unfold category_percentage_sum, category_percentage, engagement_percentage_sum.
  rewrite Ho, Hc, He.
  cbn [deletion_rate deleted_birthdays total_birthdays active_birthdays
       image_usage_rate notes_usage_rate birthdays_with_images birthdays_with_notes].
  pose proof (count_active_le now (birthdays d) d df_has_image) as Himg.
  pose proof (count_active_le now (birthdays d) d df_has_notes) as Hnts.
  change (row_of d <$> birthdays d) with (get_all_birthdays d true) in Himg, Hnts.
  change (row_of d <$> List.filter (fun b => negb (is_deleted b)) (birthdays d))
    with (get_all_birthdays d false) in Himg, Hnts.
  pose proof (percentage_range half_up _ _ Himg) as Rimg.
  pose proof (percentage_range half_up _ _ Hnts) as Rnts.
  repeat split;
    try apply percentage_nearest;
    try (apply percentage_range; lia);
    try lia.
  - intros nm Hnm. apply list_elem_of_fmap in Hnm as ([key nm'] & -> & Hin).
    rewrite (category_stats_lookup half_up _ key nm' Hin).
    eexists. split; [reflexivity|]. cbn [cs_percentage cs_count].
    split; [apply percentage_nearest|].
    apply percentage_range. apply count_if_le.
  - apply category_sum_bound.
Qed.

Lemma analytics_percentages_witness :
  exists r,
    get_analytics_report round_half_up now_nov3 db_six = Analytics r /\
    category_percentage_sum r <= 1003 /\
    engagement_percentage_sum r <= 2000.
Proof.
  eexists. split; [vm_compute; reflexivity|].
  apply (analytics_percentages round_half_up now_nov3 db_six).
  vm_compute. reflexivity.
Defined.

End PercentageClaims.

(** ** Image URLs *)

Section ImageUrls.
Import Text InputValidator Spec Samples.

Lemma append_nil s : "" +:+ s = s.
Proof. reflexivity. Qed.

Lemma append_cons c s t : String c s +:+ t = String c (s +:+ t).
Proof. reflexivity. Qed.

Lemma startswith_spec s pre :
  startswith s pre = true <-> exists rest, s = pre +:+ rest.
Proof.
  revert s. induction pre as [|a pre IH]; intros s.
  - split; [intros _; exists s; reflexivity | intros _; destruct s; reflexivity].
  - destruct s as [|b s]; simpl.
    + split; [discriminate | intros [rest Hr]; rewrite append_cons in Hr; discriminate].
    + rewrite andb_true_iff, Ascii.eqb_eq, IH. split.
      * intros [-> [rest ->]]. exists rest. reflexivity.
      * intros [rest Hr]. rewrite append_cons in Hr. injection Hr as -> ->. eauto.
Qed.

Lemma endswith_spec s suf :
  endswith s suf = true <-> exists pre, s = pre +:+ suf.
Proof.
  induction s as [|c s IH].
  - cbn [endswith]. rewrite orb_false_r, String.eqb_eq. split.
    + intros <-. exists "". reflexivity.
    + intros [[|a pre] Hp]; [exact Hp | rewrite append_cons in Hp; discriminate].
  - cbn [endswith]. rewrite orb_true_iff, String.eqb_eq, IH. split.
    + intros [<- | [pre ->]]; [exists ""; reflexivity|].
      exists (String c pre). reflexivity.
    + intros [[|a pre] Hp]; [left; exact Hp|].
      rewrite append_cons in Hp. injection Hp as -> ->. right. eauto.
Qed.

Lemma contains_spec s sub :
  contains s sub = true <-> exists pre post, s = pre +:+ sub +:+ post.
Proof.
  induction s as [|c s IH].
  - cbn [contains]. rewrite orb_false_r, startswith_spec. split.
    + intros [rest ->]. exists "", rest. reflexivity.
    + intros [[|a pre] [post Hp]]; [eauto | rewrite append_cons in Hp; discriminate].
  - cbn [contains]. rewrite orb_true_iff, startswith_spec, IH. split.
    + intros [[rest ->] | (pre & post & ->)]; [exists "", rest; reflexivity|].
      exists (String c pre), post. reflexivity.
    + intros [[|a pre] [post Hp]]; [left; eauto|].
      rewrite append_cons in Hp. injection Hp as -> ->. right. eauto.
Qed.

(** C10, as stated, fails in both directions: the check is made on the whole
    lower-cased URL string, not on its path and host.  A URL whose path merely
    mentions an allow-listed host is accepted, and a URL whose path ends in
    [.png] but which carries a query string is rejected. *)
Lemma validate_image_url_not_by_components :
  (validate_image_url http_url (Some "http://example.com/imgur.com") = true /\
   url_host "http://example.com/imgur.com" = "example.com" /\
   url_path "http://example.com/imgur.com" = "/imgur.com" /\
   spec_validate_image_url http_url (Some "http://example.com/imgur.com") = false) /\
  (validate_image_url http_url (Some "http://example.com/a.png?x=1") = false /\
   url_path "http://example.com/a.png?x=1" = "/a.png" /\
   spec_validate_image_url http_url (Some "http://example.com/a.png?x=1") = true).
Proof. repeat split; reflexivity. Qed.

(** C10 (amended): [validate_image_url] returns true for every absent or
    empty input; for a non-empty input it returns true exactly when the URL
    check accepts it and the lower-cased URL string ends with a known image
    extension or contains an allow-listed host name somewhere. *)
Theorem validate_image_url_spec (url_ok : string -> bool) (url : option string) :
  validate_image_url url_ok url = true <->
  match url with
  | None => True
  | Some u =>
      u = "" \/
      (url_ok u = true /\
       ((exists ext pre, ext ∈ image_extensions /\ lower u = pre +:+ ext) \/
        (exists host pre post,
           host ∈ image_hosts /\ lower u = pre +:+ host +:+ post)))
  end.
Proof.
  unfold validate_image_url. destruct url as [u|]; [|tauto].
  destruct (String.eqb u "") eqn:Hu.
  { apply String.eqb_eq in Hu. tauto. }
  apply String.eqb_neq in Hu.
  destruct (url_ok u); cbn [negb];
    [|split; [discriminate | intros [? | [? _]]; [contradiction | discriminate]]].
  destruct (existsb (fun ext => endswith (lower u) ext) image_extensions) eqn:Hext.
  { split; [intros _ | reflexivity]. right. split; [reflexivity|]. left.
    apply existsb_exists in Hext as (ext & Hin & He).
    apply endswith_spec in He as [pre Hp].
    exists ext, pre. split; [apply list_elem_of_In, Hin | exact Hp]. }
  destruct (existsb (fun host => contains (lower u) host) image_hosts) eqn:Hhost.
  { split; [intros _ | reflexivity]. right. split; [reflexivity|]. right.
    apply existsb_exists in Hhost as (host & Hin & Hc).
    apply contains_spec in Hc as (pre & post & Hp).
    exists host, pre, post. split; [apply list_elem_of_In, Hin | exact Hp]. }
  split; [discriminate|].
  intros [? | [_ [(ext & pre & Hin & Hp) | (host & pre & post & Hin & Hp)]]];
    [contradiction | |].
  - apply not_true_iff_false in Hext. exfalso. apply Hext.
    apply existsb_exists. exists ext. split; [apply list_elem_of_In, Hin|].
    apply endswith_spec. eauto.
  - apply not_true_iff_false in Hhost. exfalso. apply Hhost.
    apply existsb_exists. exists host. split; [apply list_elem_of_In, Hin|].
    apply contains_spec. eauto.
Qed.

End ImageUrls.

(** ** Upcoming reminders *)

Section Upcoming.
Import BirthdayReminder Spec Samples.

(** The number printed by [_send_upcoming_reminder] against the turning age:
    for a birthday later in the current year it is one more than the turning
    age, and it is the turning age only for a birthday that has already
    passed this year (one reached in the window across New Year). *)
Lemma upcoming_age_vs_turning_age (bd today : date) :
  year today - year bd + 1 =
  if md_gt (month bd) (day bd) (month today) (day today)
  then turning_age bd today + 1
  else turning_age bd today.
Proof.
  unfold turning_age, age.
  destruct (md_gt (month bd) (day bd) (month today) (day today)); lia.
Qed.

(** Every entry of an upcoming reminder carries the year difference plus
    one, computed from the date of the server. *)
Lemma upcoming_entries_age get_user_time today d uid entries e :
  UpcomingReminderSent uid entries ∈ check_upcoming_birthdays get_user_time today d ->
  e ∈ entries ->
  ue_age e = year today - year (birthdate (ue_birthday e)) + 1.
Proof.
  unfold check_upcoming_birthdays.
  induction (List.filter (fun u => negb (user_is_deleted u)) (users d))
    as [|u us IH]; cbn [upcoming_loop]; [intros H; inversion H|].
  destruct (upcoming_of (birthdays_of d u) (dt_date (get_user_time (timezone u)))
              [1%nat; 2%nat; 3%nat]) as [[|m ms]|]; [exact IH | | intros H; inversion H].
  intros Hev He. apply elem_of_cons in Hev as [Hev | Hev]; [|exact (IH Hev He)].
  unfold _send_upcoming_reminder in Hev. injection Hev as _ ->.
  apply elem_of_cons in He as [-> | He]; [destruct m; reflexivity|].
  apply list_elem_of_fmap in He as ([b k] & -> & _). reflexivity.
Qed.

(** C1 on the code: on 2026-11-03 (for the server and for the user) the
    record born on 1990-11-05 is matched at offset 2 and annotated with 37,
    whereas [age + 1] is 36. *)
Theorem upcoming_reminder_age_off_by_one :
  check_upcoming_birthdays (fun _ => now_nov3) nov3 db_in_two_days =
    [UpcomingReminderSent 7 [mkUpcoming ann_row 2 37]] /\
  age (birthdate ann_row) nov3 = 35 /\
  turning_age (birthdate ann_row) nov3 = 36.
Proof. repeat split; reflexivity. Qed.

End Upcoming.

(** * Further properties of the store *)

Section StoreMore.
Import Text InputValidator BirthdayService Invariant.

Lemma save_birthdays now b d :
  birthdays (save now b d) =
  (fun r => if id r =? id b then touched now b else r) <$> birthdays d.
Proof. reflexivity. Qed.

Lemma save_elem now b b0 d r :
  b0 ∈ birthdays d -> id b = id b0 ->
  (r ∈ birthdays (save now b d) <->
   r = touched now b \/ (r ∈ birthdays d /\ id r <> id b)).
Proof.
  intros Hb0 Hid. rewrite save_birthdays, list_elem_of_fmap. split.
  - intros (r0 & -> & Hr0). destruct (id r0 =? id b) eqn:E; [left; reflexivity|].
    right. split; [exact Hr0 | apply Z.eqb_neq, E].
  - intros [-> | [Hr Hne]].
    + exists b0. rewrite <- Hid, Z.eqb_refl. auto.
    + exists r. apply Z.eqb_neq in Hne. rewrite Hne. auto.
Qed.

(** In a well-formed store the owner and name pick out one row. *)
Lemma first_by_name_deleted_unique d uid nm flag b :
  db_wf d -> b ∈ birthdays d -> user b = uid -> iexact (name b) nm = true ->
  first_by_name_deleted d uid nm flag =
  if Bool.eqb (is_deleted b) flag then Some b else None.
Proof.
  intros Hwf Hb Hu Hn. unfold first_by_name_deleted.
  destruct (List.find _ (birthdays d)) as [r|] eqn:Hf.
  - apply find_Some_elem in Hf as [Hr Hp].
    apply andb_true_iff in Hp as [Hp Hdel].
    apply andb_true_iff in Hp as [Hru Hrn]. apply Z.eqb_eq in Hru.
    assert (r = b) as -> by (apply (same_key d b r nm); auto; congruence).
    rewrite Hdel. reflexivity.
  - pose proof (find_None_elem _ _ Hf b Hb) as Hp. simpl in Hp.
    rewrite Hu, Z.eqb_refl, Hn in Hp. simpl in Hp. rewrite Hp. reflexivity.
Qed.

Lemma save_identity now b b' d :
  db_wf d -> b ∈ birthdays d ->
  id b' = id b -> user b' = user b -> name b' = name b ->
  created_at b' = created_at b ->
  identity <$> birthdays (save now b' d) = identity <$> birthdays d.
Proof.
  intros Hwf Hb Hid Hu Hn Hc.
  rewrite save_birthdays, <- list_fmap_compose.
  apply fmap_ext_elem. intros r Hr. simpl.
  destruct (id r =? id b') eqn:E; [|reflexivity].
  apply Z.eqb_eq in E.
  assert (r = b) as ->
    by (apply (NoDup_fmap_eq id (birthdays d)); auto using wf_ids; congruence).
  unfold identity, touched. simpl. congruence.
Qed.

Lemma save_rows_of_other now b b' d uid' :
  db_wf d -> b ∈ birthdays d -> id b' = id b -> user b' = user b ->
  uid' <> user b ->
  rows_of_user (save now b' d) uid' = rows_of_user d uid'.
Proof.
  intros Hwf Hb Hid Hu Hne. unfold rows_of_user. rewrite save_birthdays.
  assert (Hrows : forall r, r ∈ birthdays d -> id r = id b' -> r = b).
  { intros r Hr E. apply (NoDup_fmap_eq id (birthdays d)); auto using wf_ids.
    congruence. }
  revert Hrows. generalize (birthdays d). intros l.
  induction l as [|r l IH]; intros Hrows; [reflexivity|].
  rewrite fmap_cons. cbn [List.filter].
  rewrite IH by (intros x Hx; apply Hrows; right; exact Hx).
  destruct (id r =? id b') eqn:E; [|reflexivity].
  apply Z.eqb_eq in E. rewrite (Hrows r ltac:(left) E).
  cbn [user touched]. rewrite Hu.
  destruct (user b =? uid') eqn:E'; [apply Z.eqb_eq in E'; congruence|].
  reflexivity.
Qed.

Lemma NoDup_same_le {A} (l : list A) :
  NoDup l -> (forall x y, x ∈ l -> y ∈ l -> x = y) -> (length l <= 1)%nat.
Proof.
  intros Hnd Hall. destruct l as [|x [|y l]]; simpl; [lia | lia |].
  exfalso. apply NoDup_cons in Hnd as [Hx _]. apply Hx.
  rewrite (Hall x y); [left | left | right; left].
Qed.

(** X1: in every store the service can produce, a user holds at most one
    active record per case-insensitive name. *)
Theorem active_name_unique (url_ok : string -> bool) (d : db) (uid : Z)
    (nm : string) :
  reachable url_ok d -> (active_count d uid nm <= 1)%nat.
Proof.
  intros Hreach. pose proof (reachable_wf _ _ Hreach) as Hwf.
  unfold active_count. apply NoDup_same_le.
  - unfold active_of_user. do 2 apply NoDup_List_filter.
    apply (NoDup_fmap_1 id), (wf_ids _ Hwf).
  - intros x y Hx Hy.
    apply filter_elem in Hx as [Hx Hxn]. apply filter_elem in Hy as [Hy Hyn].
    apply active_elem in Hx as (Hx1 & Hx2 & _).
    apply active_elem in Hy as (Hy1 & Hy2 & _).
    apply (same_key d y x nm); auto. congruence.
Qed.

End StoreMore.

Section RowsValid.
Import Text InputValidator BirthdayService Invariant.

Lemma parse_date_Some now s d :
  parse_date now s = Some d ->
  date_ok d = true /\ 1900 <= year d <= year (dt_date now) + 50.
Proof.
  unfold parse_date. destruct (date_shape s); simpl; [|discriminate].
  destruct (strptime_ymd s) as [p|] eqn:Hp; [|discriminate].
  destruct ((year p <? 1900) || (year (dt_date now) + 50 <? year p)) eqn:Hy;
    [discriminate|].
  intros [= <-]. apply orb_false_iff in Hy as [H1 H2].
  apply Z.ltb_ge in H1, H2. split; [|lia].
  unfold strptime_ymd in Hp.
  destruct (negb (String.length s =? 10)%nat); [discriminate|].
  apply new_date_Return in Hp as [-> Hc]. exact Hc.
Qed.

Lemma validate_category_keys c :
  validate_category c = true -> lower c ∈ category_keys.
Proof. unfold validate_category. apply bool_decide_eq_true_1. Qed.

Lemma name_char_cased c :
  isalpha c = true ->
  name_char c = true /\ name_char (lower_char c) = true /\
  name_char (upper_char c) = true.
Proof.
  destruct c as [[] [] [] [] [] [] [] []]; intros H; try discriminate H;
    repeat split; reflexivity.
Qed.

Lemma title_from_length p s :
  String.length (title_from p s) = String.length s.
Proof.
  revert p. induction s as [|c s IH]; intros p; simpl; [reflexivity|].
  destruct (isalpha c); simpl; rewrite IH; reflexivity.
Qed.

Lemma title_from_name_chars p s :
  all_chars name_char (title_from p s) = all_chars name_char s.
Proof.
  revert p. induction s as [|c s IH]; intros p; simpl; [reflexivity|].
  destruct (isalpha c) eqn:Ha; simpl; rewrite IH; [|reflexivity].
  destruct (name_char_cased c Ha) as (H1 & H2 & H3).
  rewrite H1. destruct p; [rewrite H2 | rewrite H3]; reflexivity.
Qed.

Lemma validate_name_true nm :
  validate_name nm = true ->
  (0 < String.length (strip nm) <= 100)%nat /\
  all_chars name_char (strip nm) = true.
Proof.
  unfold validate_name.
  destruct (String.eqb nm "" || (String.length (strip nm) =? 0)%nat) eqn:H0;
    [discriminate|].
  apply orb_false_iff in H0 as [_ H0]. apply Nat.eqb_neq in H0.
  destruct (100 <? String.length (strip nm))%nat eqn:H1; [discriminate|].
  apply Nat.ltb_ge in H1.
  destruct (negb (String.eqb (strip nm) "")
            && all_chars name_char (strip nm)) eqn:H2; [|discriminate].
  apply andb_true_iff in H2 as [_ H2]. intros _. split; [lia | exact H2].
Qed.

Lemma save_rows_ok now b d :
  (forall r, r ∈ birthdays d -> row_ok r) -> row_ok b ->
  forall r, r ∈ birthdays (save now b d) -> row_ok r.
Proof.
  intros Hall Hb r Hr. rewrite save_birthdays in Hr.
  apply list_elem_of_fmap in Hr as (r0 & -> & Hr0).
  destruct (id r0 =? id b); [exact Hb | apply Hall, Hr0].
Qed.

(** A row rebuilt with the name of a valid row, a validated date and a
    validated category is valid. *)
Lemma row_ok_rebuild b i u bd cat img nts c1 c2 del dat :
  row_ok b ->
  date_ok bd = true -> 1900 <= year bd -> cat ∈ category_keys ->
  row_ok (mkBirthday i u (name b) bd cat img nts c1 c2 del dat).
Proof.
  intros (_ & _ & _ & Hl & Hc) Hd Hy Hk. unfold row_ok. simpl. auto.
Qed.

Lemma row_ok_same_data b i u img nts c1 c2 del dat :
  row_ok b ->
  row_ok (mkBirthday i u (name b) (birthdate b) (category b) img nts c1 c2 del dat).
Proof. intros (H1 & H2 & H3 & H4 & H5). unfold row_ok. simpl. auto. Qed.

Lemma add_birthday_rows_ok url_ok now d uid nm ds cat img nts :
  (forall r, r ∈ birthdays d -> row_ok r) ->
  forall r, r ∈ birthdays (add_birthday url_ok now d uid nm ds cat img nts).2 ->
            row_ok r.
Proof.
  intros Hall. unfold add_birthday.
  destruct (validate_name nm) eqn:Hv; simpl; [|exact Hall].
  destruct (parse_date now ds) as [bd|] eqn:Hp; [|exact Hall].
  destruct (validate_category cat) eqn:Hc; simpl; [|exact Hall].
  destruct (truthy img && negb (validate_image_url url_ok img)); [exact Hall|].
  pose proof (get_or_create_spec now d uid None None false) as (_ & Hb & _).
  destruct (get_or_create now d uid None None false) as [u d1]. simpl in Hb.
  assert (Hall1 : forall r, r ∈ birthdays d1 -> row_ok r)
    by (rewrite Hb; exact Hall).
  apply parse_date_Some in Hp as [Hok [Hy _]].
  apply validate_category_keys in Hc.
  destruct (first_by_name d1 (user_id u) (strip nm)) as [existing|] eqn:Hf.
  - apply find_Some_elem in Hf as [He _].
    destruct (is_deleted existing); cbn [negb snd]; [|exact Hall1].
    apply save_rows_ok; [exact Hall1|].
    apply row_ok_rebuild; auto.
  - simpl. intros r Hr. apply elem_of_app in Hr as [Hr | Hr]; [auto|].
    apply list_elem_of_singleton in Hr. subst r.
    destruct (validate_name_true nm Hv) as [Hl Hn].
    unfold row_ok. simpl. unfold title.
    rewrite title_from_length, title_from_name_chars. auto.
Qed.

Lemma update_birthday_rows_ok url_ok now d uid nm nd nc ni nn :
  (forall r, r ∈ birthdays d -> row_ok r) ->
  forall r, r ∈ birthdays (update_birthday url_ok now d uid nm nd nc ni nn).2 ->
            row_ok r.
Proof.
  intros Hall. unfold update_birthday.
  destruct (get_or_none d uid) as [u|]; [|exact Hall].
  destruct (first_by_name_deleted d (user_id u) (strip nm) false) as [b|] eqn:Hf;
    [|exact Hall].
  apply find_Some_elem in Hf as [Hb _]. pose proof (Hall b Hb) as Hrow.
  assert (Hdate : forall bd1 f1,
            (if truthy nd
             then match parse_date now (default "" nd) with
                  | Some d0 => Some (d0, ["date to " +:+ str_of_date d0])
                  | None => None
                  end
             else Some (birthdate b, [])) = Some (bd1, f1) ->
            date_ok bd1 = true /\ 1900 <= year bd1).
  { intros bd1 f1. destruct (truthy nd).
    - destruct (parse_date now (default "" nd)) as [d0|] eqn:Hp; [|discriminate].
      intros [= <- _]. apply parse_date_Some in Hp. intuition.
    - intros [= <- _]. destruct Hrow as (? & ? & _). auto. }
  destruct (if truthy nd then _ else _) as [[bd1 f1]|] eqn:Hd; [|exact Hall].
  destruct (Hdate bd1 f1 eq_refl) as [Hok Hy].
  assert (Hcat : forall cat1 f2,
            (if truthy nc
             then if negb (validate_category (default "" nc)) then None
                  else Some (lower (default "" nc),
                             f1 ++ ["category to " +:+
                                    category_display (lower (default "" nc)) "None"])
             else Some (category b, f1)) = Some (cat1, f2) ->
            cat1 ∈ category_keys).
  { intros cat1 f2. destruct (truthy nc).
    - destruct (validate_category (default "" nc)) eqn:Hc; simpl; [|discriminate].
      intros [= <- _]. apply validate_category_keys, Hc.
    - intros [= <- _]. destruct Hrow as (_ & _ & ? & _). auto. }
  destruct (if truthy nc then _ else _) as [[cat1 f2]|] eqn:Hc; [|exact Hall].
  pose proof (Hcat cat1 f2 eq_refl) as Hk.
  destruct (match ni with Some _ => _ | None => _ end) as [[img1 f3]|];
    [|exact Hall].
  destruct (match nn with Some _ => _ | None => _ end) as [nts1 f4].
  cbn [snd]. apply save_rows_ok; [exact Hall|].
  apply row_ok_rebuild; auto.
Qed.

Lemma reachable_rows_ok (url_ok : string -> bool) (d : db) :
  reachable url_ok d -> forall b, b ∈ birthdays d -> row_ok b.
Proof.
  intros Hreach. induction Hreach as
    [ | now d uid un fn sa _ IH | now d uid nm ds cat img nts _ IH
    | now d uid nm _ IH | now d uid nm nd nc ni nn _ IH | now d uid nm _ IH ].
  - intros b Hb. inversion Hb.
  - pose proof (get_or_create_spec now d uid un fn sa) as (_ & Hb & _).
    rewrite Hb. exact IH.
  - apply add_birthday_rows_ok, IH.
  - unfold delete_birthday.
    destruct (get_or_none d uid) as [u|]; [|exact IH].
    destruct (first_by_name_deleted d (user_id u) (strip nm) false) as [b|] eqn:Hf;
      [|exact IH].
    apply find_Some_elem in Hf as [Hb _].
    cbn [snd]. apply save_rows_ok; [exact IH|]. apply row_ok_same_data, IH, Hb.
  - apply update_birthday_rows_ok, IH.
  - unfold restore_deleted_birthday.
    destruct (get_or_none d uid) as [u|]; [|exact IH].
    destruct (first_by_name_deleted d (user_id u) (strip nm) true) as [b|] eqn:Hf;
      [|exact IH].
    apply find_Some_elem in Hf as [Hb _].
    cbn [snd]. apply save_rows_ok; [exact IH|]. apply row_ok_same_data, IH, Hb.
Qed.

(** X2: every row of a store the service can produce carries validated data:
    a calendar date from the year 1900 on, a name of 1 to 100 allowed
    characters, and a category that is one of the six keys as stored, so
    that it passes the category check again. *)
Theorem stored_rows_valid (url_ok : string -> bool) (d : db) (b : Birthday) :
  reachable url_ok d -> b ∈ birthdays d ->
  row_ok b /\ validate_category (category b) = true /\
  lower (category b) = category b.
Proof.
  intros Hreach Hb. pose proof (reachable_rows_ok url_ok d Hreach b Hb) as Hrow.
  split; [exact Hrow|].
  destruct Hrow as (_ & _ & Hc & _).
  unfold category_keys in Hc. cbn in Hc.
  repeat (apply elem_of_cons in Hc as [-> | Hc]); [..|inversion Hc];
    split; reflexivity.
Qed.

End RowsValid.

Section StoreChanges.
Import Text InputValidator BirthdayService Invariant.

(** X3: in a store the service has produced, a mutation that reports a
    failure has not changed the store, whichever of the four it is. *)
Theorem failed_mutation_keeps_store (url_ok : string -> bool) (now : datetime)
    (d : db) (uid : Z) (nm ds cat : string) (img nts nd nc ni nn : option string) :
  reachable url_ok d ->
  (success (add_birthday url_ok now d uid nm ds cat img nts).1 = false ->
   (add_birthday url_ok now d uid nm ds cat img nts).2 = d) /\
  (success (delete_birthday now d uid nm).1 = false ->
   (delete_birthday now d uid nm).2 = d) /\
  (success (update_birthday url_ok now d uid nm nd nc ni nn).1 = false ->
   (update_birthday url_ok now d uid nm nd nc ni nn).2 = d) /\
  (success (restore_deleted_birthday now d uid nm).1 = false ->
   (restore_deleted_birthday now d uid nm).2 = d).
Proof.
  intros Hreach. pose proof (reachable_wf _ _ Hreach) as Hwf.
  split; [|split; [|split]].
  - unfold add_birthday.
    destruct (validate_name nm); cbn [negb]; [|reflexivity].
    destruct (parse_date now ds) as [bd|]; [|reflexivity].
    destruct (validate_category cat); cbn [negb]; [|reflexivity].
    destruct (truthy img && negb (validate_image_url url_ok img)); [reflexivity|].
    pose proof (get_or_create_spec now d uid None None false)
      as (Hid & Hb & _ & _ & Hsame).
    destruct (get_or_create now d uid None None false) as [u d1]. simpl in *.
    destruct (first_by_name d1 (user_id u) (strip nm)) as [existing|] eqn:Hf.
    + apply find_Some_elem in Hf as [He Hp].
      apply andb_true_iff in Hp as [Hu _]. apply Z.eqb_eq in Hu.
      destruct (is_deleted existing); cbn [negb fst snd success];
        [discriminate|].
      intros _. apply Hsame. rewrite Hb in He.
      rewrite <- Hid, <- Hu. apply (wf_owner _ Hwf), He.
    + simpl. discriminate.
  - unfold delete_birthday.
    destruct (get_or_none d uid) as [u|]; [|reflexivity].
    destruct (first_by_name_deleted d (user_id u) (strip nm) false);
      [simpl; discriminate | reflexivity].
  - unfold update_birthday.
    destruct (get_or_none d uid) as [u|]; [|reflexivity].
    destruct (first_by_name_deleted d (user_id u) (strip nm) false);
      [|reflexivity].
    repeat case_match; cbn [fst snd success]; try reflexivity; discriminate.
  - unfold restore_deleted_birthday.
    destruct (get_or_none d uid) as [u|]; [|reflexivity].
    destruct (first_by_name_deleted d (user_id u) (strip nm) true);
      [simpl; discriminate | reflexivity].
Qed.

Lemma grows_refl d : grows d d.
Proof. split; reflexivity. Qed.

Lemma grows_save now b b' d :
  db_wf d -> b ∈ birthdays d ->
  id b' = id b -> user b' = user b -> name b' = name b ->
  created_at b' = created_at b ->
  grows d (save now b' d).
Proof.
  intros Hwf Hb Hid Hu Hn Hc. split; [reflexivity|].
  rewrite (save_identity now b b' d) by assumption. reflexivity.
Qed.

Lemma grows_get_or_create now d uid un fn sa :
  grows d (get_or_create now d uid un fn sa).2.
Proof.
  unfold get_or_create. destruct (get_or_none d uid); [apply grows_refl|].
  split; simpl; [apply prefix_app_r | ]; reflexivity.
Qed.

Lemma grows_trans d1 d2 d3 : grows d1 d2 -> grows d2 d3 -> grows d1 d3.
Proof. intros [H1 H2] [H3 H4]. split; etrans; eassumption. Qed.

(** X4: in a store the service has produced, no mutation removes a user or
    a row or changes the identity of a row (primary key, owner, name and
    creation time): users and rows are only appended. *)
Theorem mutations_only_grow (url_ok : string -> bool) (now : datetime)
    (d : db) (uid : Z) (nm ds cat : string) (img nts nd nc ni nn : option string) :
  reachable url_ok d ->
  grows d (add_birthday url_ok now d uid nm ds cat img nts).2 /\
  grows d (delete_birthday now d uid nm).2 /\
  grows d (update_birthday url_ok now d uid nm nd nc ni nn).2 /\
  grows d (restore_deleted_birthday now d uid nm).2.
Proof.
  intros Hreach. pose proof (reachable_wf _ _ Hreach) as Hwf.
  split; [|split; [|split]].
  - unfold add_birthday.
    destruct (validate_name nm); cbn [negb]; [|apply grows_refl].
    destruct (parse_date now ds) as [bd|]; [|apply grows_refl].
    destruct (validate_category cat); cbn [negb]; [|apply grows_refl].
    destruct (truthy img && negb (validate_image_url url_ok img));
      [apply grows_refl|].
    pose proof (grows_get_or_create now d uid None None false) as Hg.
    pose proof (get_or_create_wf now d uid None None false Hwf) as Hwf1.
    destruct (get_or_create now d uid None None false) as [u d1]. simpl in Hg, Hwf1.
    apply (grows_trans _ d1); [exact Hg|].
    destruct (first_by_name d1 (user_id u) (strip nm)) as [existing|] eqn:Hf.
    + apply find_Some_elem in Hf as [He _].
      destruct (is_deleted existing); cbn [negb snd]; [|apply grows_refl].
      apply (grows_save now existing); auto.
    + simpl. split; simpl; [reflexivity|].
      rewrite fmap_app. apply prefix_app_r. reflexivity.
  - unfold delete_birthday.
    destruct (get_or_none d uid) as [u|]; [|apply grows_refl].
    destruct (first_by_name_deleted d (user_id u) (strip nm) false) as [b|] eqn:Hf;
      [|apply grows_refl].
    apply find_Some_elem in Hf as [Hb _]. cbn [snd].
    apply (grows_save now b); auto.
  - unfold update_birthday.
    destruct (get_or_none d uid) as [u|]; [|apply grows_refl].
    destruct (first_by_name_deleted d (user_id u) (strip nm) false) as [b|] eqn:Hf;
      [|apply grows_refl].
    apply find_Some_elem in Hf as [Hb _].
    repeat case_match; cbn [snd]; try apply grows_refl;
      apply (grows_save now b); auto.
  - unfold restore_deleted_birthday.
    destruct (get_or_none d uid) as [u|]; [|apply grows_refl].
    destruct (first_by_name_deleted d (user_id u) (strip nm) true) as [b|] eqn:Hf;
      [|apply grows_refl].
    apply find_Some_elem in Hf as [Hb _]. cbn [snd].
    apply (grows_save now b); auto.
Qed.

Lemma rows_of_user_get_or_create now d uid un fn sa uid' :
  rows_of_user (get_or_create now d uid un fn sa).2 uid' = rows_of_user d uid'.
Proof.
  unfold rows_of_user.
  pose proof (get_or_create_spec now d uid un fn sa) as (_ & -> & _). reflexivity.
Qed.

(** X5: in a store the service has produced, a mutation made for one user
    leaves the rows of every other user exactly as they were. *)
Theorem mutations_keep_other_users (url_ok : string -> bool) (now : datetime)
    (d : db) (uid uid' : Z) (nm ds cat : string)
    (img nts nd nc ni nn : option string) :
  reachable url_ok d -> uid' <> uid ->
  rows_of_user (add_birthday url_ok now d uid nm ds cat img nts).2 uid'
    = rows_of_user d uid' /\
  rows_of_user (delete_birthday now d uid nm).2 uid' = rows_of_user d uid' /\
  rows_of_user (update_birthday url_ok now d uid nm nd nc ni nn).2 uid'
    = rows_of_user d uid' /\
  rows_of_user (restore_deleted_birthday now d uid nm).2 uid'
    = rows_of_user d uid'.
Proof.
  intros Hreach Hne. pose proof (reachable_wf _ _ Hreach) as Hwf.
  split; [|split; [|split]].
  - unfold add_birthday.
    destruct (validate_name nm); cbn [negb]; [|reflexivity].
    destruct (parse_date now ds) as [bd|]; [|reflexivity].
    destruct (validate_category cat); cbn [negb]; [|reflexivity].
    destruct (truthy img && negb (validate_image_url url_ok img)); [reflexivity|].
    pose proof (rows_of_user_get_or_create now d uid None None false uid') as Hg.
    pose proof (get_or_create_wf now d uid None None false Hwf) as Hwf1.
    pose proof (get_or_create_spec now d uid None None false) as (Hid & _).
    destruct (get_or_create now d uid None None false) as [u d1].
    simpl in Hg, Hwf1, Hid. rewrite <- Hg.
    destruct (first_by_name d1 (user_id u) (strip nm)) as [existing|] eqn:Hf.
    + apply find_Some_elem in Hf as [He Hp].
      apply andb_true_iff in Hp as [Hu _]. apply Z.eqb_eq in Hu.
      destruct (is_deleted existing); cbn [negb snd]; [|reflexivity].
      apply (save_rows_of_other now existing); auto. congruence.
    + simpl. unfold rows_of_user. simpl. rewrite List.filter_app. simpl.
      destruct (user_id u =? uid') eqn:E; [apply Z.eqb_eq in E; congruence|].
      apply app_nil_r.
  - unfold delete_birthday.
    destruct (get_or_none d uid) as [u|] eqn:Hu; [|reflexivity].
    apply get_or_none_elem in Hu as [_ ->].
    destruct (first_by_name_deleted d uid (strip nm) false) as [b|] eqn:Hf;
      [|reflexivity].
    apply find_Some_elem in Hf as [Hb Hp].
    apply andb_true_iff in Hp as [Hp _]. apply andb_true_iff in Hp as [Hbu _].
    apply Z.eqb_eq in Hbu. cbn [snd].
    apply (save_rows_of_other now b); auto. congruence.
  - unfold update_birthday.
    destruct (get_or_none d uid) as [u|] eqn:Hu; [|reflexivity].
    apply get_or_none_elem in Hu as [_ ->].
    destruct (first_by_name_deleted d uid (strip nm) false) as [b|] eqn:Hf;
      [|reflexivity].
    apply find_Some_elem in Hf as [Hb Hp].
    apply andb_true_iff in Hp as [Hp _]. apply andb_true_iff in Hp as [Hbu _].
    apply Z.eqb_eq in Hbu.
    repeat case_match; cbn [snd]; try reflexivity;
      apply (save_rows_of_other now b); auto; congruence.
  - unfold restore_deleted_birthday.
    destruct (get_or_none d uid) as [u|] eqn:Hu; [|reflexivity].
    apply get_or_none_elem in Hu as [_ ->].
    destruct (first_by_name_deleted d uid (strip nm) true) as [b|] eqn:Hf;
      [|reflexivity].
    apply find_Some_elem in Hf as [Hb Hp].
    apply andb_true_iff in Hp as [Hp _]. apply andb_true_iff in Hp as [Hbu _].
    apply Z.eqb_eq in Hbu. cbn [snd].
    apply (save_rows_of_other now b); auto. congruence.
Qed.

End StoreChanges.

Section Compositions.
Import Text InputValidator BirthdayService Invariant.

Lemma owner_lookup d b :
  db_wf d -> b ∈ birthdays d ->
  exists u, get_or_none d (user b) = Some u /\ user_id u = user b.
Proof.
  intros Hwf Hb. destruct (wf_owner _ Hwf b Hb) as [u Hu].
  exists u. split; [exact Hu | apply (get_or_none_elem _ _ _ Hu)].
Qed.

Lemma save_row_in now b b' d :
  b ∈ birthdays d -> id b' = id b -> touched now b' ∈ birthdays (save now b' d).
Proof. intros Hb Hid. apply (save_elem now b' b d); auto. Qed.

(** What [delete_birthday] does when the name has an active row. *)
Lemma delete_birthday_row now d uid nm b :
  db_wf d -> b ∈ active_of_user d uid -> iexact (name b) (strip nm) = true ->
  delete_birthday now d uid nm =
  (mkreply true ("Birthday for " +:+ nm +:+ " deleted") None,
   save now (mkBirthday (id b) (user b) (name b) (birthdate b) (category b)
               (image_url b) (notes b) (created_at b) (updated_at b) true
               (Some now)) d).
Proof.
  intros Hwf Hb Hn. apply active_elem in Hb as (Hb1 & Hb2 & Hb3).
  unfold delete_birthday.
  destruct (owner_lookup d b Hwf Hb1) as (u & Hu & Hid).
  rewrite Hb2 in Hu, Hid. rewrite Hu, Hid.
  rewrite (first_by_name_deleted_unique d uid (strip nm) false b Hwf Hb1 Hb2 Hn).
  rewrite Hb3. reflexivity.
Qed.

(** What [restore_deleted_birthday] does when the name has a deleted row. *)
Lemma restore_deleted_birthday_row now d uid nm b :
  db_wf d -> b ∈ birthdays d -> user b = uid -> is_deleted b = true ->
  iexact (name b) (strip nm) = true ->
  restore_deleted_birthday now d uid nm =
  (mkreply true ("Birthday for " +:+ nm +:+ " restored successfully") None,
   save now (mkBirthday (id b) (user b) (name b) (birthdate b) (category b)
               (image_url b) (notes b) (created_at b) now false None) d).
Proof.
  intros Hwf Hb1 Hb2 Hb3 Hn. unfold restore_deleted_birthday.
  destruct (owner_lookup d b Hwf Hb1) as (u & Hu & Hid).
  rewrite Hb2 in Hu, Hid. rewrite Hu, Hid.
  rewrite (first_by_name_deleted_unique d uid (strip nm) true b Hwf Hb1 Hb2 Hn).
  rewrite Hb3. reflexivity.
Qed.

(** What a successful [add_birthday] leaves behind. *)
Lemma add_birthday_success url_ok now d uid nm ds cat img nts r d1 :
  db_wf d ->
  add_birthday url_ok now d uid nm ds cat img nts = (r, d1) ->
  success r = true ->
  exists b bd,
    birthday r = Some b /\ parse_date now ds = Some bd /\
    validate_name nm = true /\ validate_category cat = true /\
    b ∈ active_of_user d1 uid /\ iexact (name b) (strip nm) = true /\
    birthdate b = bd /\ category b = lower cat /\
    image_url b = img /\ notes b = nts /\
    deleted_at b = None /\ updated_at b = now /\ db_wf d1.
Proof.
  intros Hwf Hadd Hs.
  pose proof (add_birthday_wf url_ok now d uid nm ds cat img nts Hwf) as Hwf1.
  rewrite Hadd in Hwf1. simpl in Hwf1.
  unfold add_birthday in Hadd.
  destruct (validate_name nm) eqn:Hv; cbn [negb] in Hadd;
    [|injection Hadd as <- <-; discriminate].
  destruct (parse_date now ds) as [bd|] eqn:Hp;
    [|injection Hadd as <- <-; discriminate].
  destruct (validate_category cat) eqn:Hc; cbn [negb] in Hadd;
    [|injection Hadd as <- <-; discriminate].
  destruct (truthy img && negb (validate_image_url url_ok img));
    [injection Hadd as <- <-; discriminate|].
  pose proof (get_or_create_spec now d uid None None false) as (Hid & Hb & _).
  destruct (get_or_create now d uid None None false) as [u d0]. simpl in Hid, Hb.
  rewrite Hid in Hadd.
  destruct (first_by_name d0 uid (strip nm)) as [existing|] eqn:Hf.
  - apply find_Some_elem in Hf as [He Hq].
    apply andb_true_iff in Hq as [Hu Hn]. apply Z.eqb_eq in Hu.
    destruct (is_deleted existing); cbn [negb] in Hadd;
      [|injection Hadd as <- <-; discriminate].
    injection Hadd as <- <-. eexists _, bd.
    do 4 (split; [reflexivity || assumption|]).
    split; [|simpl; auto 10].
    apply active_elem. split; [|auto].
    match goal with
    | |- _ ∈ birthdays (save _ ?b' _) =>
        exact (save_row_in now existing b' d0 He eq_refl)
    end.
  - simpl in Hadd. injection Hadd as <- <-. eexists _, bd.
    do 4 (split; [reflexivity || assumption|]).
    split; [|simpl; split; [|auto 10]].
    + apply active_elem. simpl. split; [|auto].
      apply elem_of_app. right. left.
    + apply iexact_spec. apply upper_title.
Qed.

(** X6: adding, deleting and restoring a name brings the store back to what
    it was after the add, except that the row's [updated_at] is the time of
    the restore: date, category, photo, notes, key and creation time are
    preserved, the row is active and its deletion time is cleared. *)
Theorem add_delete_restore_roundtrip (url_ok : string -> bool)
    (now1 now2 now3 : datetime) (d : db) (uid : Z) (nm ds cat : string)
    (img nts : option string) (r1 : reply) (d1 : db) :
  reachable url_ok d ->
  add_birthday url_ok now1 d uid nm ds cat img nts = (r1, d1) ->
  success r1 = true ->
  exists b,
    birthday r1 = Some b /\
    success (delete_birthday now2 d1 uid nm).1 = true /\
    success (restore_deleted_birthday now3
               (delete_birthday now2 d1 uid nm).2 uid nm).1 = true /\
    (restore_deleted_birthday now3 (delete_birthday now2 d1 uid nm).2 uid nm).2
      = save now3 b d1 /\
    touched now3 b ∈ active_of_user (save now3 b d1) uid /\
    deleted_at b = None.
Proof.
  intros Hreach Hadd Hs. pose proof (reachable_wf _ _ Hreach) as Hwf.
  destruct (add_birthday_success _ _ _ _ _ _ _ _ _ _ _ Hwf Hadd Hs)
    as (b & bd & Hr & _ & _ & _ & Hb & Hn & _ & _ & _ & _ & Hda & _ & Hwf1).
  exists b. split; [exact Hr|].
  rewrite (delete_birthday_row now2 d1 uid nm b Hwf1 Hb Hn). cbn [fst snd success].
  split; [reflexivity|].
  apply active_elem in Hb as (Hb1 & Hb2 & Hb3).
  set (bdel := mkBirthday (id b) (user b) (name b) (birthdate b) (category b)
                 (image_url b) (notes b) (created_at b) (updated_at b) true
                 (Some now2)).
  assert (Hwf2 : db_wf (save now2 bdel d1)) by (apply (save_wf now2 b); auto).
  assert (Hin2 : touched now2 bdel ∈ birthdays (save now2 bdel d1))
    by (apply (save_row_in now2 b); auto).
  rewrite (restore_deleted_birthday_row now3 _ uid nm (touched now2 bdel)
             Hwf2 Hin2 Hb2 eq_refl Hn).
  cbn [fst snd success]. split; [reflexivity|]. split.
  - unfold save. cbn [users birthdays]. f_equal.
    rewrite <- list_fmap_compose. apply fmap_ext_elem. intros r Hr'. simpl.
    destruct (id r =? id b) eqn:E; simpl; [|rewrite E; reflexivity].
    rewrite Z.eqb_refl. destruct b; simpl in *. subst. reflexivity.
  - split; [|exact Hda].
    apply active_elem. split; [|simpl; auto].
    apply (save_row_in now3 b); auto.
Qed.

(** X7: deleting a name and adding it again does not create a row: the
    deleted row is taken back into use with the new date, category, photo and
    notes, under its old key, creation time and stored spelling of the name. *)
Theorem delete_then_add_reuses_row (url_ok : string -> bool)
    (now1 now2 : datetime) (d : db) (uid : Z) (nm ds cat : string)
    (img nts : option string) (b : Birthday) (bd : date) :
  reachable url_ok d ->
  b ∈ active_of_user d uid -> iexact (name b) (strip nm) = true ->
  validate_name nm = true -> parse_date now2 ds = Some bd ->
  validate_category cat = true ->
  (truthy img = true -> validate_image_url url_ok img = true) ->
  add_birthday url_ok now2 (delete_birthday now1 d uid nm).2 uid nm ds cat img nts
  = (mkreply true
       ("Birthday restored for " +:+ name b +:+ " (" +:+ str_of_date bd +:+ ")")
       (Some (mkBirthday (id b) (user b) (name b) bd (lower cat) img nts
                (created_at b) now2 false None)),
     save now2 (mkBirthday (id b) (user b) (name b) bd (lower cat) img nts
                  (created_at b) now2 false None) d).
Proof.
  intros Hreach Hb Hn Hv Hp Hc Hi. pose proof (reachable_wf _ _ Hreach) as Hwf.
  rewrite (delete_birthday_row now1 d uid nm b Hwf Hb Hn). cbn [snd].
  apply active_elem in Hb as (Hb1 & Hb2 & Hb3).
  set (bdel := mkBirthday (id b) (user b) (name b) (birthdate b) (category b)
                 (image_url b) (notes b) (created_at b) (updated_at b) true
                 (Some now1)).
  assert (Hwf1 : db_wf (save now1 bdel d)) by (apply (save_wf now1 b); auto).
  assert (Hin1 : touched now1 bdel ∈ birthdays (save now1 bdel d))
    by (apply (save_row_in now1 b); auto).
  unfold add_birthday. rewrite Hv, Hp, Hc. cbn [negb].
  destruct (truthy img && negb (validate_image_url url_ok img)) eqn:Himg.
  { apply andb_true_iff in Himg as [Ht Hf]. rewrite (Hi Ht) in Hf. discriminate. }
  pose proof (get_or_create_spec now2 (save now1 bdel d) uid None None false)
    as (Hid & _ & _ & _ & Hsame).
  destruct (get_or_create now2 (save now1 bdel d) uid None None false) as [u d1].
  simpl in Hid, Hsame.
  rewrite Hsame by (rewrite <- Hb2; apply (wf_owner _ Hwf1 _ Hin1)).
  rewrite Hid.
  assert (Hfirst : first_by_name (save now1 bdel d) uid (strip nm)
                   = Some (touched now1 bdel)).
  { unfold first_by_name.
    destruct (find_is_Some (fun r => (user r =? uid) && iexact (name r) (strip nm))
                (birthdays (save now1 bdel d)) (touched now1 bdel) Hin1) as [r Hr].
    { simpl. rewrite Hb2, Z.eqb_refl, Hn. reflexivity. }
    rewrite Hr. f_equal. apply find_Some_elem in Hr as [Hr1 Hr2].
    apply andb_true_iff in Hr2 as [Hr2 Hr3]. apply Z.eqb_eq in Hr2.
    apply (same_key (save now1 bdel d) (touched now1 bdel) r (strip nm)); auto;
      simpl; congruence. }
  rewrite Hfirst. cbn [is_deleted touched bdel negb].
  cbn [id user name created_at]. f_equal.
  unfold save. cbn [users birthdays id]. f_equal.
  rewrite <- list_fmap_compose. apply fmap_ext_elem. intros r Hr'. simpl.
  destruct (id r =? id b) eqn:E; simpl; [|rewrite E; reflexivity].
  rewrite Z.eqb_refl. reflexivity.
Qed.

(** After a successful delete the store is the old one with the matched row
    marked, and no active row of the user has the name. *)
Lemma delete_birthday_done now d uid nm r d' :
  db_wf d ->
  delete_birthday now d uid nm = (r, d') -> success r = true ->
  db_wf d' /\
  (forall x, x ∈ active_of_user d' uid -> iexact (name x) (strip nm) = false) /\
  exists u b',
    get_or_none d' uid = Some u /\ user_id u = uid /\
    b' ∈ birthdays d' /\ user b' = uid /\
    iexact (name b') (strip nm) = true /\
    is_deleted b' = true /\ deleted_at b' = Some now.
Proof.
  intros Hwf Hdel Hs.
  pose proof (delete_birthday_wf now d uid nm Hwf) as Hwf'.
  rewrite Hdel in Hwf'. simpl in Hwf'. split; [exact Hwf'|].
  unfold delete_birthday in Hdel.
  destruct (get_or_none d uid) as [u|] eqn:Hu;
    [|injection Hdel as <- <-; discriminate].
  apply get_or_none_elem in Hu as Hu'. destruct Hu' as [_ Hid].
  rewrite Hid in Hdel.
  destruct (first_by_name_deleted d uid (strip nm) false) as [b|] eqn:Hf;
    [|injection Hdel as <- <-; discriminate].
  injection Hdel as <- <-.
  apply find_Some_elem in Hf as [Hb Hp].
  apply andb_true_iff in Hp as [Hp _]. apply andb_true_iff in Hp as [Hbu Hn].
  apply Z.eqb_eq in Hbu.
  match type of Hwf' with db_wf (save now ?x d) => set (bdel := x) in * end.
  assert (Hin : touched now bdel ∈ birthdays (save now bdel d))
    by (apply (save_row_in now b); auto).
  split.
  - intros x Hx. apply active_elem in Hx as (Hx1 & Hx2 & Hx3).
    destruct (iexact (name x) (strip nm)) eqn:E; [|reflexivity].
    assert (x = touched now bdel)
      by (apply (same_key (save now bdel d) (touched now bdel) x (strip nm)); auto;
          simpl; congruence).
    subst x. discriminate.
  - exists u, (touched now bdel). simpl. auto 10.
Qed.

(** X8: after a successful [delete_birthday] the name has no active record
    and the listing of the user's birthdays no longer shows it, while the
    row is still in the store, marked deleted at the time of the call, and
    the listing with deleted rows shows it. *)
Theorem delete_birthday_effect (url_ok : string -> bool) (now : datetime)
    (d : db) (uid : Z) (nm : string) (r : reply) (d' : db) :
  reachable url_ok d ->
  delete_birthday now d uid nm = (r, d') -> success r = true ->
  active_count d' uid (strip nm) = 0%nat /\
  (forall x, x ∈ get_user_birthdays d' uid false ->
             iexact (name x) (strip nm) = false) /\
  exists b', b' ∈ get_user_birthdays d' uid true /\
             iexact (name b') (strip nm) = true /\
             is_deleted b' = true /\ deleted_at b' = Some now.
Proof.
  intros Hreach Hdel Hs. pose proof (reachable_wf _ _ Hreach) as Hwf.
  destruct (delete_birthday_done now d uid nm r d' Hwf Hdel Hs)
    as (_ & Hnone & u & b' & Hget & Hid & Hin & Hbu & Hn & Hd1 & Hd2).
  split; [|split].
  - unfold active_count. apply length_zero_iff_nil.
    destruct (List.filter _ _) as [|x l] eqn:E; [reflexivity|].
    assert (Hx : x ∈ List.filter (fun b => iexact (name b) (strip nm))
                   (active_of_user d' uid))
      by (rewrite E; left).
    apply filter_elem in Hx as [Hx Hxn]. rewrite (Hnone x Hx) in Hxn. discriminate.
  - intros x Hx. unfold get_user_birthdays in Hx. rewrite Hget, Hid in Hx.
    rewrite merge_sort_Permutation in Hx. apply Hnone, Hx.
  - exists b'. split; [|auto].
    unfold get_user_birthdays. rewrite Hget, Hid.
    rewrite merge_sort_Permutation. apply filter_elem. split; [exact Hin|].
    apply Z.eqb_eq, Hbu.
Qed.

End Compositions.

(** * Dates as text *)

Section DateText.
Import Text InputValidator.


Lemma mod10_cases n :
  n mod 10 = 0 \/ n mod 10 = 1 \/ n mod 10 = 2 \/ n mod 10 = 3 \/ n mod 10 = 4 \/
  n mod 10 = 5 \/ n mod 10 = 6 \/ n mod 10 = 7 \/ n mod 10 = 8 \/ n mod 10 = 9.
Proof. pose proof (Z.mod_pos_bound n 10 ltac:(lia)). lia. Qed.

Lemma digit_char_props n :
  isdigit (digit_char n) = true /\ digit_val (digit_char n) = n mod 10.
Proof.
  unfold digit_char.
  destruct (mod10_cases n) as [H|[H|[H|[H|[H|[H|[H|[H|[H|H]]]]]]]]];
    rewrite H; split; reflexivity.
Qed.


Lemma zfill4 n :
  0 <= n < 10000 ->
  zfill 4 n =
  String (digit_char (n / 10 / 10 / 10)) (String (digit_char (n / 10 / 10))
    (String (digit_char (n / 10)) (String (digit_char n) ""))).
Proof.
  intros Hn. unfold zfill.
  set (k := Z.to_nat (Z.log2_up (n + 1))).
  change (4 + k + 1)%nat with (S (S (S (S (k + 1))))).
  cbn [digits_fuel Nat.pred Nat.eqb]. rewrite !andb_false_r.
  assert (n / 10 / 10 / 10 / 10 = 0) as -> by (Z.div_mod_to_equations; lia).
  reflexivity.
Qed.

Lemma zfill2 n :
  0 <= n < 100 ->
  zfill 2 n = String (digit_char (n / 10)) (String (digit_char n) "").
Proof.
  intros Hn. unfold zfill.
  set (k := Z.to_nat (Z.log2_up (n + 1))).
  change (2 + k + 1)%nat with (S (S (k + 1))).
  cbn [digits_fuel Nat.pred Nat.eqb]. rewrite !andb_false_r.
  assert (n / 10 / 10 = 0) as -> by (Z.div_mod_to_equations; lia).
  reflexivity.
Qed.

Lemma days_in_month_le y m : days_in_month y m <= 31.
Proof.
  unfold days_in_month.
  destruct m as [|p|p]; try lia.
  repeat (destruct p as [p|p|]; try lia); destruct (is_leap y); lia.
Qed.

(** The ISO text of a calendar date. *)
Lemma str_of_date_chars d :
  date_ok d = true ->
  str_of_date d =
  String (digit_char (year d / 10 / 10 / 10)) (String (digit_char (year d / 10 / 10))
  (String (digit_char (year d / 10)) (String (digit_char (year d))
  (String "-" (String (digit_char (month d / 10)) (String (digit_char (month d))
  (String "-" (String (digit_char (day d / 10)) (String (digit_char (day d))
  ""))))))))).
Proof.
  unfold date_ok. intros (Hy & Hm & Hd)%check_date_fields_spec.
  pose proof (days_in_month_le (year d) (month d)).
  unfold MINYEAR, MAXYEAR in Hy.
  unfold str_of_date.
  rewrite zfill4, !zfill2 by lia. reflexivity.
Qed.

(** X9: the text of a stored date parses back to the date: for every
    calendar date whose year lies between 1900 and the current year plus 50,
    [parse_date] of its ISO text [YYYY-MM-DD] returns that date. *)
Theorem parse_date_of_str (now : datetime) (d : date) :
  date_ok d = true ->
  1900 <= year d <= year (dt_date now) + 50 ->
  parse_date now (str_of_date d) = Some d.
Proof.
  intros Hok Hy. rewrite (str_of_date_chars d Hok).
  pose proof Hok as Hok'. unfold date_ok in Hok'.
  apply check_date_fields_spec in Hok' as (Hyr & Hm & Hd).
  pose proof (days_in_month_le (year d) (month d)) as Hdim.
  unfold MINYEAR, MAXYEAR in Hyr.
  unfold parse_date, date_shape.
  repeat rewrite (proj1 (digit_char_props _)).
  cbn [andb negb Ascii.eqb Bool.eqb String.eqb orb].
  unfold strptime_ymd.
  cbn [String.length Nat.eqb negb substring int_of_digits].
  rewrite !(proj2 (digit_char_props _)).
  replace (10 * (10 * (10 * (10 * 0 + (year d / 10 / 10 / 10) mod 10)
                       + (year d / 10 / 10) mod 10)
                 + (year d / 10) mod 10) + year d mod 10)
    with (year d) by (Z.div_mod_to_equations; lia).
  replace (10 * (10 * 0 + (month d / 10) mod 10) + month d mod 10)
    with (month d) by (Z.div_mod_to_equations; lia).
  replace (10 * (10 * 0 + (day d / 10) mod 10) + day d mod 10)
    with (day d) by (Z.div_mod_to_equations; lia).
  unfold new_date. fold (date_ok d). rewrite Hok.
  cbn [year].
  destruct ((year d <? 1900) || (year (dt_date now) + 50 <? year d)) eqn:E.
  - apply orb_true_iff in E as [E | E]; apply Z.ltb_lt in E; lia.
  - destruct d; reflexivity.
Qed.


End DateText.

(** * More on days until the next birthday and on ages *)

Section DaysMore.
Import UserStatistics.

Lemma check_date_fields_other_year y y' m d :
  check_date_fields y m d = true ->
  MINYEAR <= y' <= MAXYEAR ->
  ~ (m = 2 /\ d = 29) ->
  check_date_fields y' m d = true.
Proof.
  intros (Hy & Hm & Hd)%check_date_fields_spec Hy' Hleap.
  apply check_date_fields_spec. split; [exact Hy'|]. split; [exact Hm|].
  unfold days_in_month in *.
  destruct m as [|p|p]; try lia.
  repeat (destruct p as [p|p|]; try lia).
  destruct (is_leap y), (is_leap y'); lia.
Qed.

Lemma days_until_next_defined bd today :
  date_ok bd = true -> date_ok today = true -> year today < MAXYEAR ->
  ~ (month bd = 2 /\ day bd = 29) ->
  exists n, days_until_next bd today = Return n.
Proof.
  intros Hbd Ht Hy Hleap. unfold date_ok in Hbd, Ht.
  pose proof Ht as Ht'. apply check_date_fields_spec in Ht' as (Hty & _).
  unfold days_until_next, replace_month_day, replace_year, new_date.
  rewrite (check_date_fields_other_year _ (year today) _ _ Hbd Hty Hleap).
  cbn [mbind result_bind mret result_ret].
  destruct (date_lt _ today); cbn [year month day]; [|eauto].
  rewrite (check_date_fields_other_year _ (year today + 1) _ _ Hbd) by
    (unfold MINYEAR, MAXYEAR in *; auto; lia).
  cbn [mbind result_bind mret result_ret]. eauto.
Qed.

Lemma next_birthday_loop_defined today bs :
  (forall b, b ∈ bs -> exists n, days_until_next (birthdate b) today = Return n) ->
  forall min_days nb, exists res,
    next_birthday_loop today bs min_days nb = Return res.
Proof.
  induction bs as [|b bs IH]; intros Hall min_days nb; [eexists; reflexivity|].
  cbn [next_birthday_loop].
  destruct (Hall b ltac:(left)) as [n ->]. cbn [mbind result_bind].
  destruct (below n min_days); apply IH; intros x Hx; apply Hall; right; exact Hx.
Qed.

(** X11: [get_user_stats] returns a dictionary whenever today is before the
    year 9999 and no active record of the user is a leap-day birthday: the
    leap day is the only birthdate that makes it fail. *)
Theorem get_user_stats_returns (half_up : Z -> Z -> bool) (today : date)
    (d : db) (uid : Z) :
  date_ok today = true -> year today < MAXYEAR ->
  (forall b, b ∈ active_of_user d uid ->
     date_ok (birthdate b) = true /\
     ~ (month (birthdate b) = 2 /\ day (birthdate b) = 29)) ->
  exists s, get_user_stats half_up today d uid = Return s.
Proof.
  intros Ht Hy Hall. unfold get_user_stats.
  destruct (get_or_none d uid) as [u|] eqn:Hu; [|eexists; reflexivity].
  rewrite (get_or_none_user_id _ _ _ Hu).
  destruct (length (active_of_user d uid) =? 0)%nat; [eexists; reflexivity|].
  destruct (next_birthday_loop_defined today (active_of_user d uid)) with
    (min_days := @None Z) (nb := @None NextBirthday) as [res Hres].
  { intros b Hb. destruct (Hall b Hb) as [Hok Hleap].
    apply days_until_next_defined; assumption. }
  rewrite Hres. eexists. reflexivity.
Qed.

Lemma is_leap_next y : is_leap y = true -> is_leap (y + 1) = false.
Proof.
  unfold is_leap. intros H. apply andb_true_iff in H as [H4 _].
  apply Z.eqb_eq in H4.
  assert (((y + 1) mod 4 =? 0) = false) as ->; [|reflexivity].
  apply Z.eqb_neq. Z.div_mod_to_equations. lia.
Qed.

Lemma leap_day_after_february today bd :
  month bd = 2 -> day bd = 29 ->
  md_gt (month today) (day today) 2 29 = true ->
  days_until_next bd today = Raise ValueError.
Proof.
  intros Hm Hd Hgt.
  destruct (days_until_next bd today) as [n|e] eqn:E;
    [|f_equal; apply (days_until_next_Raise _ _ _ E)].
  exfalso. unfold days_until_next, replace_month_day, replace_year in E.
  rewrite Hm, Hd in E.
  destruct (new_date (year today) 2 29) as [t|] eqn:H1;
    cbn [mbind result_bind] in E; [|discriminate].
  apply new_date_Return in H1 as [-> H1].
  destruct today as [ty tm td]. cbn [year month day] in *.
  rewrite date_lt_same_year, Hgt in E.
  destruct (new_date (ty + 1) 2 29) as [t|] eqn:H2;
    cbn [mbind result_bind] in E; [|discriminate].
  apply new_date_Return in H2 as [_ H2].
  apply check_date_fields_spec in H1 as (_ & _ & H1).
  apply check_date_fields_spec in H2 as (_ & _ & H2).
  unfold days_in_month in H1, H2.
  destruct (is_leap ty) eqn:L; [|lia].
  rewrite (is_leap_next ty L) in H2. lia.
Qed.

(** X12: [get_user_stats] also raises [ValueError] in a leap year: when the
    user has an active record born on February 29 and today is after
    February 29, the occurrence looked up in the next year does not exist. *)
Theorem get_user_stats_leap_day_late_raises (half_up : Z -> Z -> bool)
    (today : date) (d : db) (uid : Z) (b : Birthday) :
  is_Some (get_or_none d uid) ->
  b ∈ active_of_user d uid ->
  month (birthdate b) = 2 -> day (birthdate b) = 29 ->
  md_gt (month today) (day today) 2 29 = true ->
  get_user_stats half_up today d uid = Raise ValueError.
Proof.
  intros [u Hu] Hin Hm Hd Hgt.
  unfold get_user_stats. rewrite Hu, (get_or_none_user_id _ _ _ Hu).
  destruct (active_of_user d uid) as [|a bs] eqn:Hbs; [inversion Hin|].
  change (length (a :: bs) =? 0)%nat with false. cbv iota.
  rewrite (next_birthday_loop_raises today (a :: bs) b Hin
             (leap_day_after_february today _ Hm Hd Hgt)).
  reflexivity.
Qed.

(** The record the loop keeps is the first of those with the fewest days. *)
Lemma next_birthday_loop_spec today bs :
  forall min_days nb res,
    next_birthday_loop today bs min_days nb = Return res ->
    (res = nb /\
     forall b n, b ∈ bs -> days_until_next (birthdate b) today = Return n ->
                 below n min_days = false) \/
    (exists l1 b l2 n,
       bs = l1 ++ b :: l2 /\
       days_until_next (birthdate b) today = Return n /\
       res = Some (mkNext (name b) (birthdate b) n (category b)) /\
       below n min_days = true /\
       (forall b' n', b' ∈ l1 ->
          days_until_next (birthdate b') today = Return n' -> n < n') /\
       (forall b' n', b' ∈ l2 ->
          days_until_next (birthdate b') today = Return n' -> n <= n')).
Proof.
  induction bs as [|a bs IH]; intros min_days nb res Hres.
  - left. injection Hres as <-. split; [reflexivity|]. intros b n Hb. inversion Hb.
  - cbn [next_birthday_loop] in Hres.
    destruct (days_until_next (birthdate a) today) as [na|] eqn:Ha;
      cbn [mbind result_bind] in Hres; [|discriminate].
    destruct (below na min_days) eqn:Hbelow.
    + destruct (IH _ _ _ Hres) as [[-> Hnone] | (l1 & b & l2 & n & -> & Hb & -> & Hlt & H1 & H2)].
      * right. exists [], a, bs, na. repeat split; auto.
        -- intros b' n' Hb'. inversion Hb'.
        -- intros b' n' Hb' Hn'. specialize (Hnone b' n' Hb' Hn').
           simpl in Hnone. apply Z.ltb_ge in Hnone. exact Hnone.
      * right. exists (a :: l1), b, l2, n. simpl in Hlt. apply Z.ltb_lt in Hlt.
        repeat split; auto.
        -- destruct min_days as [m|]; [|reflexivity].
           simpl in *. apply Z.ltb_lt in Hbelow. apply Z.ltb_lt. lia.
        -- intros b' n' Hb' Hn'. apply elem_of_cons in Hb' as [-> | Hb'];
             [rewrite Ha in Hn'; injection Hn' as <-; lia | eauto].
    + destruct (IH _ _ _ Hres) as [[-> Hnone] | (l1 & b & l2 & n & -> & Hb & -> & Hlt & H1 & H2)].
      * left. split; [reflexivity|]. intros b n Hb Hn.
        apply elem_of_cons in Hb as [-> | Hb]; [|eauto].
        rewrite Ha in Hn. injection Hn as <-. exact Hbelow.
      * right. exists (a :: l1), b, l2, n. repeat split; auto.
        intros b' n' Hb' Hn'. apply elem_of_cons in Hb' as [-> | Hb']; [|eauto].
        rewrite Ha in Hn'. injection Hn' as <-.
        destruct min_days as [m|]; [|discriminate].
        simpl in *. apply Z.ltb_lt in Hlt. apply Z.ltb_ge in Hbelow. lia.
Qed.

(** X13: when [get_user_stats] returns for a user with active records, the
    next birthday it reports is a record of the user with the fewest days
    until its next occurrence, and among those the first in the order the
    records are read: every record read before it is strictly further away. *)
Theorem next_birthday_is_soonest (half_up : Z -> Z -> bool) (today : date)
    (d : db) (uid : Z) (s : UserStats) :
  get_user_stats half_up today d uid = Return (Stats s) ->
  active_of_user d uid <> [] ->
  exists l1 b l2 n,
    active_of_user d uid = l1 ++ b :: l2 /\
    next_birthday s = Some (mkNext (name b) (birthdate b) n (category b)) /\
    days_until_next (birthdate b) today = Return n /\
    (forall b' n', b' ∈ l1 ->
       days_until_next (birthdate b') today = Return n' -> n < n') /\
    (forall b' n', b' ∈ l2 ->
       days_until_next (birthdate b') today = Return n' -> n <= n').
Proof.
  unfold get_user_stats.
  destruct (get_or_none d uid) as [u|] eqn:Hu; [|discriminate].
  rewrite (get_or_none_user_id _ _ _ Hu).
  destruct (active_of_user d uid) as [|a bs] eqn:Hbs; [congruence|].
  change (length (a :: bs) =? 0)%nat with false. cbv iota.
  destruct (next_birthday_loop today (a :: bs) None None) as [res|] eqn:Hl;
    cbn [mbind result_bind]; [|discriminate].
  intros [= <-] _. cbn [next_birthday].
  destruct (next_birthday_loop_spec _ _ _ _ _ Hl)
    as [[-> Hnone] | (l1 & b & l2 & n & Heq & Hb & -> & _ & H1 & H2)].
  - exfalso.
    destruct (days_until_next (birthdate a) today) as [na|] eqn:Ha.
    + specialize (Hnone a na ltac:(left) Ha). discriminate.
    + cbn [next_birthday_loop] in Hl. rewrite Ha in Hl. discriminate.
  - exists l1, b, l2, n. auto.
Qed.

End DaysMore.

Section AgeSteps.

(** X14: from one day to the next the age never decreases and grows by at
    most one, and it grows by one on the day whose month and day are those
    of the birthdate. *)
Theorem age_day_by_day (bd today : date) :
  date_ok bd = true -> date_ok today = true ->
  age bd today <= age bd (tomorrow today) <= age bd today + 1 /\
  (month (tomorrow today) = month bd -> day (tomorrow today) = day bd ->
   age bd (tomorrow today) = age bd today + 1).
Proof.
  unfold date_ok.
  intros (_ & Hbm & Hbd)%check_date_fields_spec
         (_ & Htm & Htd)%check_date_fields_spec.
  pose proof (days_in_month_le (year bd) (month bd)) as Hb31.
  pose proof (days_in_month_le (year today) (month today)) as Ht31.
  destruct today as [ty tm td], bd as [byr bm bdd]. cbn [year month day] in *.
  unfold age, tomorrow. cbn [year month day].
  destruct (td <? days_in_month ty tm) eqn:E1; cbn [year month day].
  - apply Z.ltb_lt in E1.
    destruct (md_gt bm bdd tm td) eqn:G1;
      destruct (md_gt bm bdd tm (td + 1)) eqn:G2;
      rewrite ?md_gt_spec, ?md_gt_false in *; lia.
  - apply Z.ltb_ge in E1.
    destruct (tm <? 12) eqn:E2; cbn [year month day].
    + apply Z.ltb_lt in E2.
      destruct (md_gt bm bdd tm td) eqn:G1;
        destruct (md_gt bm bdd (tm + 1) 1) eqn:G2;
        rewrite ?md_gt_spec, ?md_gt_false in *; lia.
    + apply Z.ltb_ge in E2.
      destruct (md_gt bm bdd tm td) eqn:G1;
        destruct (md_gt bm bdd 1 1) eqn:G2;
        rewrite ?md_gt_spec, ?md_gt_false in *; lia.
Qed.

End AgeSteps.

(** * Reminders *)

(** Case analysis on a month variable known to lie in 1..12. *)
Ltac by_month m :=
  let H := fresh "Hm" in
  assert (H : m = 1 \/ m = 2 \/ m = 3 \/ m = 4 \/ m = 5 \/ m = 6 \/ m = 7 \/
              m = 8 \/ m = 9 \/ m = 10 \/ m = 11 \/ m = 12) by lia;
  repeat (destruct H as [H | H]); subst m.

Section AddDays.

Lemma tomorrow_year t : year t <= year (tomorrow t).
Proof.
  unfold tomorrow.
  destruct (day t <? days_in_month (year t) (month t)); [simpl; lia|].
  destruct (month t <? 12); simpl; lia.
Qed.

Lemma add_days_raw_year t k : year t <= year (add_days_raw t k).
Proof.
  revert t. induction k as [|k IH]; intros t; simpl; [lia|].
  pose proof (tomorrow_year t). pose proof (IH (tomorrow t)). lia.
Qed.

Lemma tomorrow_ok t :
  date_ok t = true -> year (tomorrow t) <= MAXYEAR -> date_ok (tomorrow t) = true.
Proof.
  destruct t as [y m dd]. unfold date_ok. cbn [year month day].
  intros (Hy & Hm & Hd)%check_date_fields_spec Hmax.
  apply check_date_fields_spec. revert Hmax. unfold tomorrow.
  cbn [year month day].
  destruct (dd <? days_in_month y m) eqn:E1; cbn [year month day].
  - apply Z.ltb_lt in E1. lia.
  - destruct (m <? 12) eqn:E2; cbn [year month day].
    + apply Z.ltb_lt in E2. intros _. split; [lia|]. split; [lia|].
      unfold days_in_month. by_month m; destruct (is_leap y); simpl; lia.
    + intros Hmax. unfold MINYEAR in *. simpl. lia.
Qed.

Lemma add_days_raw_ordinal t k :
  date_ok t = true -> year (add_days_raw t k) <= MAXYEAR ->
  date_ok (add_days_raw t k) = true /\
  toordinal (add_days_raw t k) = toordinal t + Z.of_nat k.
Proof.
  revert t. induction k as [|k IH]; intros t Hok Hmax.
  - simpl. split; [exact Hok | lia].
  - cbn [add_days_raw] in *.
    pose proof (add_days_raw_year (tomorrow t) k) as Hy.
    assert (Hok' : date_ok (tomorrow t) = true) by (apply tomorrow_ok; [auto | lia]).
    destruct (IH (tomorrow t) Hok' Hmax) as [H1 H2].
    split; [exact H1|]. rewrite H2, (toordinal_tomorrow t Hok). lia.
Qed.

Lemma days_before_year_far y y' :
  y + 2 <= y' -> days_before_year y + 730 <= days_before_year y'.
Proof. unfold days_before_year. intros H. Z.div_mod_to_equations. lia. Qed.

Lemma days_before_year_le y y' :
  y <= y' -> days_before_year y <= days_before_year y'.
Proof. unfold days_before_year. intros H. Z.div_mod_to_equations. lia. Qed.

(** A date reached in one to three days is in the same year, or in January
    of the next year when today is in December. *)
Lemma few_days_ahead t f k :
  date_ok t = true -> date_ok f = true ->
  toordinal f = toordinal t + k -> 1 <= k <= 3 ->
  (year f = year t /\ md_gt (month t) (day t) (month f) (day f) = false) \/
  (year f = year t + 1 /\ month f = 1 /\ month t = 12).
Proof.
  unfold date_ok.
  intros (Hty & Htm & Htd)%check_date_fields_spec
         (Hfy & Hfm & Hfd)%check_date_fields_spec Hord Hk.
  destruct t as [ty tm td], f as [fy fm fd]. cbn [year month day] in *.
  unfold toordinal in Hord. cbn [year month day] in Hord.
  pose proof (day_of_year_range ty tm td Htm Htd) as Rt.
  pose proof (day_of_year_range fy fm fd Hfm Hfd) as Rf.
  assert (Hcases : fy = ty \/ fy = ty + 1).
  { destruct (Z_lt_le_dec fy ty) as [Hlt | Hge].
    - pose proof (days_before_year_le fy (ty - 1) ltac:(lia)).
      pose proof (days_before_year_succ (ty - 1)) as Hs.
      replace (ty - 1 + 1) with ty in Hs by lia.
      destruct (is_leap fy), (is_leap ty), (is_leap (ty - 1)); lia.
    - destruct (Z_le_gt_dec (ty + 2) fy) as [Hfar | Hnear]; [|lia].
      pose proof (days_before_year_far ty fy Hfar).
      destruct (is_leap fy), (is_leap ty); lia. }
  destruct Hcases as [-> | ->].
  - left. split; [reflexivity|].
    destruct (md_gt tm td fm fd) eqn:G; [|reflexivity].
    pose proof (day_of_year_mono ty fm fd tm td Hfm Hfd Htm Htd G). lia.
  - right. split; [reflexivity|].
    rewrite days_before_year_succ in Hord.
    unfold days_before_month, days_in_month in *.
    destruct (is_leap ty), (is_leap (ty + 1));
      by_month tm; by_month fm; simpl in *; lia.
Qed.

End AddDays.

Section Reminders.
Import BirthdayReminder UserStatistics.

Lemma on_day_elem bs t b :
  b ∈ on_day bs t <->
  b ∈ bs /\ is_deleted b = false /\
  month (birthdate b) = month t /\ day (birthdate b) = day t.
Proof.
  unfold on_day. rewrite filter_elem, !andb_true_iff, negb_true_iff, !Z.eqb_eq.
  tauto.
Qed.

Lemma birthdays_of_elem d u b :
  b ∈ birthdays_of d u <-> b ∈ birthdays d /\ user b = user_id u.
Proof. unfold birthdays_of. rewrite filter_elem, Z.eqb_eq. tauto. Qed.

(** X15: the same-day check reminds exactly of the matches: every record in
    a reminder is an active record of the non-deleted user reminded, born on
    the month and day of that user's local today, and every such record of
    every non-deleted user is in a reminder for that user; no reminder is
    empty. *)
Theorem today_reminders_exact (get_user_time : string -> datetime)
    (today : date) (d : db) :
  (forall uid entries,
     BirthdayReminderSent uid entries ∈ check_birthdays_today get_user_time today d ->
     entries <> [] /\
     exists u, u ∈ users d /\ user_id u = uid /\ user_is_deleted u = false /\
       forall e, e ∈ entries ->
         te_birthday e ∈ birthdays d /\ user (te_birthday e) = uid /\
         is_deleted (te_birthday e) = false /\
         month (birthdate (te_birthday e))
           = month (dt_date (get_user_time (timezone u))) /\
         day (birthdate (te_birthday e))
           = day (dt_date (get_user_time (timezone u)))) /\
  (forall u b,
     u ∈ users d -> user_is_deleted u = false ->
     b ∈ birthdays d -> user b = user_id u -> is_deleted b = false ->
     month (birthdate b) = month (dt_date (get_user_time (timezone u))) ->
     day (birthdate b) = day (dt_date (get_user_time (timezone u))) ->
     exists entries,
       BirthdayReminderSent (user_id u) entries
         ∈ check_birthdays_today get_user_time today d /\
       mkToday b (year today - year (birthdate b)) ∈ entries).
Proof.
  unfold check_birthdays_today. split.
  - intros uid entries Hev.
    apply list_elem_of_In, in_flat_map in Hev as (u & Hu & Hev).
    apply list_elem_of_In, filter_elem in Hu as [Hu Hdel].
    apply negb_true_iff in Hdel.
    destruct (on_day (birthdays_of d u) (dt_date (get_user_time (timezone u))))
      as [|b0 bs] eqn:Hon; [inversion Hev|].
    destruct Hev as [Hev | []]. rewrite <- Hon in Hev.
    unfold _send_birthday_reminder in Hev.
    injection Hev as <- <-. split; [rewrite Hon; discriminate|].
    exists u. split; [exact Hu|]. split; [reflexivity|]. split; [exact Hdel|].
    intros e He. apply list_elem_of_fmap in He as (b & -> & Hb).
    apply on_day_elem in Hb as (Hb & ? & ? & ?).
    apply birthdays_of_elem in Hb as [? ?]. cbn [te_birthday]. auto.
  - intros u b Hu Hdel Hb Hown Hact Hm Hd.
    assert (Hon : b ∈ on_day (birthdays_of d u)
                        (dt_date (get_user_time (timezone u)))).
    { apply on_day_elem. repeat split; auto. apply birthdays_of_elem. auto. }
    exists ((fun b => mkToday b (year today - year (birthdate b)))
              <$> on_day (birthdays_of d u) (dt_date (get_user_time (timezone u)))).
    split.
    + apply list_elem_of_In, in_flat_map. exists u. split.
      * apply list_elem_of_In, filter_elem. rewrite Hdel. auto.
      * destruct (on_day (birthdays_of d u)
                    (dt_date (get_user_time (timezone u)))) as [|b0 bs] eqn:E;
          [inversion Hon|]. left. reflexivity.
    + apply (list_elem_of_fmap_2 (fun b => mkToday b (year today - year (birthdate b)))).
      exact Hon.
Qed.

(** X16: the age printed in a same-day reminder is the record's age on the
    user's local today whenever the server's date is in the same year. *)
Theorem today_reminder_age (get_user_time : string -> datetime)
    (today : date) (d : db) (uid : Z) (entries : list TodayEntry)
    (e : TodayEntry) :
  BirthdayReminderSent uid entries ∈ check_birthdays_today get_user_time today d ->
  e ∈ entries ->
  exists u, u ∈ users d /\ user_id u = uid /\
    (year (dt_date (get_user_time (timezone u))) = year today ->
     te_age e = age (birthdate (te_birthday e))
                  (dt_date (get_user_time (timezone u)))).
Proof.
  unfold check_birthdays_today. intros Hev He.
  apply list_elem_of_In, in_flat_map in Hev as (u & Hu & Hev).
  apply list_elem_of_In, filter_elem in Hu as [Hu _].
  destruct (on_day (birthdays_of d u) (dt_date (get_user_time (timezone u))))
    as [|b0 bs] eqn:Hon; [inversion Hev|].
  destruct Hev as [Hev | []]. rewrite <- Hon in Hev.
  unfold _send_birthday_reminder in Hev.
  injection Hev as <- <-. exists u. split; [exact Hu|]. split; [reflexivity|].
  intros Hy. apply list_elem_of_fmap in He as (b & -> & Hb).
  apply on_day_elem in Hb as (_ & _ & Hm & Hd).
  cbn [te_age te_birthday]. unfold age. rewrite Hm, Hd, Hy.
  assert (md_gt (month (dt_date (get_user_time (timezone u))))
                (day (dt_date (get_user_time (timezone u))))
                (month (dt_date (get_user_time (timezone u))))
                (day (dt_date (get_user_time (timezone u)))) = false) as ->
    by (apply md_gt_false; lia).
  reflexivity.
Qed.

Lemma upcoming_of_elem bs t offsets : forall l b k,
  upcoming_of bs t offsets = Return l ->
  (b, k) ∈ l ->
  k ∈ offsets /\ exists f, add_days t k = Return f /\ b ∈ on_day bs f.
Proof.
  induction offsets as [|k0 offs IH]; intros l b k Hl Hin.
  - injection Hl as <-. inversion Hin.
  - cbn [upcoming_of] in Hl.
    destruct (add_days t k0) as [f|] eqn:Hf; cbn [mbind result_bind] in Hl;
      [|discriminate].
    destruct (upcoming_of bs t offs) as [more|] eqn:Hm;
      cbn [mbind result_bind] in Hl; [|discriminate].
    injection Hl as <-. apply elem_of_app in Hin as [Hin | Hin].
    + apply list_elem_of_fmap in Hin as (b0 & [= -> ->] & Hb0).
      split; [left|]. eauto.
    + destruct (IH more b k eq_refl Hin) as [Hk Hex]. split; [right; exact Hk | exact Hex].
Qed.

Lemma upcoming_loop_elem get_user_time today d us ev :
  ev ∈ upcoming_loop get_user_time today d us ->
  exists u l,
    u ∈ us /\
    upcoming_of (birthdays_of d u) (dt_date (get_user_time (timezone u)))
      [1; 2; 3]%nat = Return l /\
    ev = _send_upcoming_reminder today u l.
Proof.
  induction us as [|u us IH]; cbn [upcoming_loop]; [intros H; inversion H|].
  destruct (upcoming_of (birthdays_of d u) (dt_date (get_user_time (timezone u)))
              [1%nat; 2%nat; 3%nat]) as [[|m ms]|] eqn:Hup.
  - intros Hev. destruct (IH Hev) as (u' & l & Hu' & Hl & ->).
    exists u', l. split; [right; exact Hu' | auto].
  - intros Hev. apply elem_of_cons in Hev as [-> | Hev].
    + exists u, (m :: ms). split; [left | auto].
    + destruct (IH Hev) as (u' & l & Hu' & Hl & ->).
      exists u', l. split; [right; exact Hu' | auto].
  - intros H. inversion H.
Qed.

(** X17: every entry of an upcoming reminder is an active record of the
    non-deleted user reminded, matched at an offset of one to three days, and
    the offset is the number of days until the record's next occurrence as
    the statistics compute it from the user's local today. *)
Theorem upcoming_offset_is_days_until (get_user_time : string -> datetime)
    (today : date) (d : db) (uid : Z) (entries : list UpcomingEntry)
    (e : UpcomingEntry) :
  (forall u, u ∈ users d ->
     date_ok (dt_date (get_user_time (timezone u))) = true) ->
  UpcomingReminderSent uid entries
    ∈ check_upcoming_birthdays get_user_time today d ->
  e ∈ entries ->
  (1 <= ue_days_ahead e <= 3)%nat /\
  ue_birthday e ∈ birthdays d /\ user (ue_birthday e) = uid /\
  is_deleted (ue_birthday e) = false /\
  exists u, u ∈ users d /\ user_id u = uid /\ user_is_deleted u = false /\
    days_until_next (birthdate (ue_birthday e))
      (dt_date (get_user_time (timezone u)))
    = Return (Z.of_nat (ue_days_ahead e)).
Proof.
  intros Hdates Hev He. unfold check_upcoming_birthdays in Hev.
  apply upcoming_loop_elem in Hev as (u & l & Hu & Hl & Hev).
  apply filter_elem in Hu as [Hu Hdel]. apply negb_true_iff in Hdel.
  unfold _send_upcoming_reminder in Hev. injection Hev as -> ->.
  apply list_elem_of_fmap in He as ([b k] & -> & Hbk).
  cbn [ue_days_ahead ue_birthday].
  destruct (upcoming_of_elem _ _ _ _ _ _ Hl Hbk) as (Hk & f & Hf & Hon).
  apply on_day_elem in Hon as (Hb & Hact & Hm & Hd).
  apply birthdays_of_elem in Hb as [Hb Hown].
  assert (Hk3 : (1 <= k <= 3)%nat).
  { repeat (apply elem_of_cons in Hk as [-> | Hk]); try lia. inversion Hk. }
  split; [exact Hk3|]. split; [exact Hb|]. split; [exact Hown|].
  split; [exact Hact|].
  exists u. split; [exact Hu|]. split; [reflexivity|]. split; [exact Hdel|].
  set (t := dt_date (get_user_time (timezone u))) in *.
  pose proof (Hdates u Hu) as Hok. fold t in Hok.
  unfold add_days in Hf.
  destruct (year (add_days_raw t k) <=? MAXYEAR) eqn:Hmax; [|discriminate].
  injection Hf as <-. apply Z.leb_le in Hmax.
  destruct (add_days_raw_ordinal t k Hok Hmax) as [Hfok Hord].
  set (f := add_days_raw t k) in *.
  destruct (few_days_ahead t f (Z.of_nat k) Hok Hfok Hord ltac:(lia))
    as [[Hy Hnot] | (Hy & Hf1 & Ht12)].
  - unfold days_until_next, replace_month_day, replace_year, new_date.
    rewrite Hm, Hd, <- Hy. fold (date_ok f). rewrite Hfok.
    cbn [mbind result_bind mret result_ret].
    assert (date_lt (mkdate (year f) (month f) (day f)) t = false) as ->.
    { destruct t as [ty tm td]. cbn [year] in Hy. rewrite Hy.
      rewrite date_lt_same_year. exact Hnot. }
    cbn [mbind result_bind mret result_ret]. f_equal.
    unfold sub_days.
    replace (mkdate (year f) (month f) (day f)) with f by (destruct f; reflexivity).
    lia.
  - pose proof Hok as Hok'. unfold date_ok in Hok'.
    apply check_date_fields_spec in Hok' as (Hty & _).
    pose proof Hfok as Hfok'. unfold date_ok in Hfok'.
    apply check_date_fields_spec in Hfok' as (_ & _ & Hfd).
    rewrite Hf1 in Hfd. change (days_in_month (year f) 1) with 31 in Hfd.
    unfold days_until_next, replace_month_day, replace_year, new_date.
    rewrite Hm, Hd, Hf1.
    assert (check_date_fields (year t) 1 (day f) = true) as ->.
    { apply check_date_fields_spec. change (days_in_month (year t) 1) with 31. lia. }
    cbn [mbind result_bind mret result_ret].
    assert (date_lt (mkdate (year t) 1 (day f)) t = true) as ->.
    { destruct t as [ty tm td]. cbn [year month day] in *.
      rewrite date_lt_same_year. apply md_gt_spec. lia. }
    cbn [year month day]. rewrite <- Hy.
    assert (check_date_fields (year f) 1 (day f) = true) as ->.
    { rewrite <- Hf1 at 1. exact Hfok. }
    cbn [mbind result_bind mret result_ret]. f_equal.
    unfold sub_days.
    assert (toordinal (mkdate (year f) 1 (day f)) = toordinal f) as ->
      by (unfold toordinal; cbn [year month day]; rewrite Hf1; reflexivity).
    lia.
Qed.

End Reminders.

(** * Statistics *)

Section Histograms.
Import UserStatistics AdminService.

Lemma foldl_count_category bs : forall m0 c,
  foldl count_category m0 bs !! c =
  if (count_if (fun b => String.eqb (category b) c) bs =? 0)%nat
  then m0 !! c
  else Some (default 0%nat (m0 !! c)
             + count_if (fun b => String.eqb (category b) c) bs)%nat.
Proof.
  unfold count_if.
  induction bs as [|b bs IH]; intros m0 c; [reflexivity|].
  cbn [foldl List.filter]. rewrite IH. unfold count_category.
  destruct (String.eqb (category b) c) eqn:E.
  - apply String.eqb_eq in E. subst c. rewrite lookup_insert_eq.
    cbn [length default Nat.eqb].
    destruct (length _ =? 0)%nat eqn:E0.
    + apply Nat.eqb_eq in E0. rewrite E0. unfold Datatypes.id. f_equal; lia.
    + unfold Datatypes.id. f_equal; lia.
  - apply String.eqb_neq in E. rewrite lookup_insert_ne by exact E. reflexivity.
Qed.

Lemma month_name_inj i j :
  1 <= i <= 12 -> 1 <= j <= 12 -> month_name i = month_name j -> i = j.
Proof.
  intros Hi Hj. by_month i; by_month j; intros H;
    first [reflexivity | discriminate H].
Qed.

Lemma zero_months_lookup i :
  1 <= i <= 12 -> zero_months !! month_name i = Some 0%nat.
Proof. intros Hi. by_month i; reflexivity. Qed.

Lemma foldl_count_month bs : forall m0 i,
  1 <= i <= 12 ->
  (forall b, b ∈ bs -> 1 <= month (birthdate b) <= 12) ->
  foldl count_month m0 bs !! month_name i =
  (fun v => (v + count_if (fun b => Z.eqb (month (birthdate b)) i) bs)%nat)
    <$> (m0 !! month_name i).
Proof.
  unfold count_if.
  induction bs as [|b bs IH]; intros m0 i Hi Hall.
  - cbn [foldl List.filter length]. destruct (m0 !! month_name i); simpl;
      [f_equal; lia | reflexivity].
  - cbn [foldl List.filter].
    rewrite IH by (auto; intros x Hx; apply Hall; right; exact Hx).
    unfold count_month.
    destruct (month (birthdate b) =? i) eqn:E.
    + apply Z.eqb_eq in E. rewrite E, lookup_alter_eq.
      destruct (m0 !! month_name i); simpl; [f_equal; lia | reflexivity].
    + apply Z.eqb_neq in E. rewrite lookup_alter_ne; [reflexivity|].
      intros Hn. apply E. apply month_name_inj; auto. apply Hall. left.
Qed.

(** X18: when [get_user_stats] returns for a user with active records whose
    birthdates are calendar dates, the total is the number of active
    records, the category breakdown holds for each category the number of
    active records in it (and no entry for a category without records), and
    the monthly distribution holds for each of the twelve months the number
    of active records born in it. *)
Theorem user_stats_histograms (half_up : Z -> Z -> bool) (today : date)
    (d : db) (uid : Z) (s : UserStats) :
  get_user_stats half_up today d uid = Return (Stats s) ->
  active_of_user d uid <> [] ->
  (forall b, b ∈ active_of_user d uid -> date_ok (birthdate b) = true) ->
  UserStatistics.total_birthdays s = length (active_of_user d uid) /\
  (forall c,
     category_breakdown s !! c =
     if (count_if (fun b => String.eqb (category b) c) (active_of_user d uid)
         =? 0)%nat
     then None
     else Some (count_if (fun b => String.eqb (category b) c)
                  (active_of_user d uid))) /\
  (forall i, 1 <= i <= 12 ->
     UserStatistics.monthly_distribution s !! month_name i =
     Some (count_if (fun b => month (birthdate b) =? i) (active_of_user d uid))).
Proof.
  unfold get_user_stats.
  destruct (get_or_none d uid) as [u|] eqn:Hu; [|discriminate].
  rewrite (get_or_none_user_id _ _ _ Hu).
  intros Hret Hne Hok.
  destruct (length (active_of_user d uid) =? 0)%nat eqn:E0.
  { apply Nat.eqb_eq in E0. destruct (active_of_user d uid); [congruence|discriminate]. }
  destruct (next_birthday_loop today (active_of_user d uid) None None) as [nb|];
    cbn [mbind result_bind] in Hret; [|discriminate].
  injection Hret as <-.
  cbn [UserStatistics.total_birthdays category_breakdown
       UserStatistics.monthly_distribution].
  split; [reflexivity|]. split.
  - intros c. rewrite foldl_count_category, lookup_empty. reflexivity.
  - intros i Hi. rewrite foldl_count_month, zero_months_lookup; auto.
    intros b Hb. specialize (Hok b Hb). unfold date_ok in Hok.
    apply check_date_fields_spec in Hok. tauto.
Qed.

End Histograms.

Section AgeStatistics.
Import UserStatistics AdminService.

Lemma foldr_min_spec x l :
  foldr Z.min x l ∈ x :: l /\ forall y, y ∈ x :: l -> foldr Z.min x l <= y.
Proof.
  induction l as [|a l [IH1 IH2]]; simpl.
  - split; [left|]. intros y Hy. apply list_elem_of_singleton in Hy. lia.
  - split.
    + destruct (Z.min_spec a (foldr Z.min x l)) as [[_ ->] | [_ ->]].
      * right. left.
      * apply elem_of_cons in IH1 as [-> | IH1]; [left | right; right; exact IH1].
    + intros y Hy. pose proof (IH2 x ltac:(left)).
      apply elem_of_cons in Hy as [-> | Hy]; [lia|].
      apply elem_of_cons in Hy as [-> | Hy]; [lia|].
      pose proof (IH2 y ltac:(right; exact Hy)). lia.
Qed.

Lemma foldr_max_spec x l :
  foldr Z.max x l ∈ x :: l /\ forall y, y ∈ x :: l -> y <= foldr Z.max x l.
Proof.
  induction l as [|a l [IH1 IH2]]; simpl.
  - split; [left|]. intros y Hy. apply list_elem_of_singleton in Hy. lia.
  - split.
    + destruct (Z.max_spec a (foldr Z.max x l)) as [[_ ->] | [_ ->]].
      * apply elem_of_cons in IH1 as [-> | IH1]; [left | right; right; exact IH1].
      * right. left.
    + intros y Hy. pose proof (IH2 x ltac:(left)).
      apply elem_of_cons in Hy as [-> | Hy]; [lia|].
      apply elem_of_cons in Hy as [-> | Hy]; [lia|].
      pose proof (IH2 y ltac:(right; exact Hy)). lia.
Qed.

Lemma min_max_spec l :
  l <> [] ->
  minZ l ∈ l /\ maxZ l ∈ l /\ forall y, y ∈ l -> minZ l <= y <= maxZ l.
Proof.
  destruct l as [|x l]; [congruence|]. intros _. unfold minZ, maxZ.
  destruct (foldr_min_spec x l) as [H1 H2].
  destruct (foldr_max_spec x l) as [H3 H4].
  split; [exact H1|]. split; [exact H3|]. intros y Hy. split; auto.
Qed.

Lemma sumZ_bounds l a b :
  (forall x, x ∈ l -> a <= x <= b) ->
  a * Z.of_nat (length l) <= sumZ l <= b * Z.of_nat (length l).
Proof.
  induction l as [|x l IH]; intros H; [simpl; lia|].
  specialize (IH ltac:(intros y Hy; apply H; right; exact Hy)).
  pose proof (H x ltac:(left)).
  cbn [sumZ foldr length] in *. fold (sumZ l). lia.
Qed.

(** The nearest tenth of a quotient that lies between two integers lies
    between their tenfolds. *)
Lemma round1_between half_up num den a b :
  0 < den -> a * den <= num <= b * den ->
  10 * a <= round1 half_up num den <= 10 * b.
Proof.
  intros Hden Hab. pose proof (round1_nearest half_up num den Hden) as Hn.
  set (r := round1 half_up num den) in *. split; nia.
Qed.

Lemma average_between half_up l :
  l <> [] ->
  10 * minZ l <= round1 half_up (sumZ l) (Z.of_nat (length l)) <= 10 * maxZ l.
Proof.
  intros Hne. destruct (min_max_spec l Hne) as (_ & _ & Hb).
  pose proof (sumZ_bounds l (minZ l) (maxZ l) Hb).
  apply round1_between; [destruct l; [congruence | simpl; lia] | lia].
Qed.

(** X19: the age statistics of the report over a non-empty set of active
    records are consistent: the minimum and the maximum are ages of records
    and bound every age, the median lies between them, and so does the
    average (reported in tenths). *)
Theorem analytics_age_statistics (half_up : Z -> Z -> bool) (now : datetime)
    (d : db) (r : Report) :
  get_analytics_report half_up now d = Analytics r ->
  report_ages now (get_all_birthdays d true) <> [] ->
  as_min (age_statistics r) ∈ report_ages now (get_all_birthdays d true) /\
  as_max (age_statistics r) ∈ report_ages now (get_all_birthdays d true) /\
  (forall x, x ∈ report_ages now (get_all_birthdays d true) ->
     as_min (age_statistics r) <= x <= as_max (age_statistics r)) /\
  as_min (age_statistics r) <= as_median (age_statistics r)
    <= as_max (age_statistics r) /\
  10 * as_min (age_statistics r) <= as_average (age_statistics r)
    <= 10 * as_max (age_statistics r).
Proof.
  intros Hr Hne.
  assert (Hage : age_statistics r =
                 mkAge (round1 half_up
                          (sumZ (report_ages now (get_all_birthdays d true)))
                          (Z.of_nat (length (report_ages now (get_all_birthdays d true)))))
                       (minZ (report_ages now (get_all_birthdays d true)))
                       (maxZ (report_ages now (get_all_birthdays d true)))
                       (median (report_ages now (get_all_birthdays d true)))).
  { revert Hr Hne. unfold get_analytics_report, report_ages.
    destruct (get_all_birthdays d true); [discriminate|].
    intros [= <-] Hne. cbn [age_statistics].
    destruct (ages_of _); [congruence | reflexivity]. }
  rewrite Hage. cbn [as_min as_max as_median as_average].
  set (ages := report_ages now (get_all_birthdays d true)) in *.
  destruct (min_max_spec ages Hne) as (H1 & H2 & H3).
  split; [exact H1|]. split; [exact H2|]. split; [exact H3|].
  split; [|apply average_between, Hne].
  apply H3. pose proof (median_lookup ages Hne) as Hm.
  apply list_elem_of_lookup_2 in Hm.
  rewrite merge_sort_Permutation in Hm. exact Hm.
Qed.

(** X20: when [get_user_stats] returns for a user with active records, the
    age range it reports is made of ages of records of the user that bound
    all of them, and the average age (in tenths) lies within the range. *)
Theorem user_stats_ages (half_up : Z -> Z -> bool) (today : date)
    (d : db) (uid : Z) (s : UserStats) :
  get_user_stats half_up today d uid = Return (Stats s) ->
  active_of_user d uid <> [] ->
  exists lo hi,
    age_range s = Some (lo, hi) /\
    (exists b, b ∈ active_of_user d uid /\ lo = age (birthdate b) today) /\
    (exists b, b ∈ active_of_user d uid /\ hi = age (birthdate b) today) /\
    (forall b, b ∈ active_of_user d uid -> lo <= age (birthdate b) today <= hi) /\
    10 * lo <= average_age s <= 10 * hi.
Proof.
  unfold get_user_stats.
  destruct (get_or_none d uid) as [u|] eqn:Hu; [|discriminate].
  rewrite (get_or_none_user_id _ _ _ Hu).
  intros Hret Hne.
  destruct (length (active_of_user d uid) =? 0)%nat eqn:E0.
  { apply Nat.eqb_eq in E0. destruct (active_of_user d uid); [congruence|discriminate]. }
  destruct (next_birthday_loop today (active_of_user d uid) None None) as [nb|];
    cbn [mbind result_bind] in Hret; [|discriminate].
  injection Hret as <-. cbn [age_range average_age].
  set (ages := (fun b => age (birthdate b) today) <$> active_of_user d uid).
  assert (Hages : ages <> []).
  { unfold ages. destruct (active_of_user d uid); [congruence | discriminate]. }
  destruct (min_max_spec ages Hages) as (H1 & H2 & H3).
  exists (minZ ages), (maxZ ages). split; [reflexivity|].
  split; [apply list_elem_of_fmap in H1 as (b & Hb & Hin); eauto|].
  split; [apply list_elem_of_fmap in H2 as (b & Hb & Hin); eauto|].
  split; [|apply average_between, Hages].
  intros b Hb. apply H3. unfold ages.
  apply (list_elem_of_fmap_2 (fun b => age (birthdate b) today)). exact Hb.
Qed.

End AgeStatistics.

(** * The report's counts *)

Section ReportCounts.
Import AdminService Spec Invariant.

Lemma filter_split_length {A} (p : A -> bool) (l : list A) :
  (length (List.filter p l) + length (List.filter (fun x => negb (p x)) l)
   = length l)%nat.
Proof.
  induction l as [|a l IH]; [reflexivity|].
  simpl. destruct (p a); simpl; lia.
Qed.

Lemma size_list_to_set_le (l : list Z) :
  (size (list_to_set l : gset Z) <= length l)%nat.
Proof.
  induction l as [|a l IH]; [rewrite list_to_set_nil, size_empty; lia|].
  rewrite list_to_set_cons, size_union_alt, size_singleton. simpl.
  pose proof (subseteq_size (list_to_set l ∖ {[a]} : gset Z) (list_to_set l)
                ltac:(set_solver)).
  lia.
Qed.

Lemma dom_count_user df : forall m0,
  dom (foldl count_user m0 df) ⊆ dom m0 ∪ list_to_set (df_user_id <$> df).
Proof.
  induction df as [|b df IH]; intros m0; [set_solver|].
  cbn [foldl]. etrans; [apply IH|].
  unfold count_user. rewrite fmap_cons, list_to_set_cons.
  destruct (df_is_deleted b); [set_solver|].
  rewrite dom_insert_L. set_solver.
Qed.

Lemma report_user_activity half_up now d r :
  get_analytics_report half_up now d = Analytics r ->
  total_active_users (user_activity r) =
  size (foldl count_user ∅ (df_data_of now (get_all_birthdays d true))).
Proof.
  unfold get_analytics_report.
  destruct (get_all_birthdays d true); [discriminate|].
  intros [= <-]. cbn [user_activity].
  destruct (bool_decide _); reflexivity.
Qed.

(** X21: the overview of the report is consistent with the store and with
    the counting functions: the total is the number of rows, the active and
    deleted counts are those of [get_birthday_count] and
    [get_deleted_birthdays_count] and add up to the total, and there are at
    most as many users with active records as users with records, and at
    most as many of those as rows. *)
Theorem analytics_overview_counts (half_up : Z -> Z -> bool) (now : datetime)
    (d : db) (r : Report) :
  get_analytics_report half_up now d = Analytics r ->
  total_birthdays (overview r) = length (birthdays d) /\
  active_birthdays (overview r) = get_birthday_count d /\
  deleted_birthdays (overview r) = get_deleted_birthdays_count d /\
  (active_birthdays (overview r) + deleted_birthdays (overview r)
   = total_birthdays (overview r))%nat /\
  (total_active_users (user_activity r) <= total_users (overview r)
   <= total_birthdays (overview r))%nat.
Proof.
  intros Hr. destruct (analytics_report_inv _ _ _ _ Hr) as (Ho & _ & _).
  rewrite (report_user_activity _ _ _ _ Hr), Ho.
  cbn [total_birthdays active_birthdays deleted_birthdays total_users].
  unfold get_all_birthdays, get_birthday_count, get_deleted_birthdays_count,
    count_if.
  rewrite !length_fmap.
  pose proof (filter_split_length (fun b => is_deleted b) (birthdays d)) as Hs.
  split; [reflexivity|]. split; [reflexivity|]. split; [lia|]. split; [lia|].
  split.
  - rewrite <- size_dom.
    etrans; [apply subseteq_size, dom_count_user|].
    rewrite dom_empty_L, (left_id_L ∅ (∪)).
    unfold df_data_of. rewrite <- list_fmap_compose. reflexivity.
  - etrans; [apply size_list_to_set_le|]. rewrite !length_fmap. reflexivity.
Qed.

Lemma category_counts_eq active :
  (forall a, a ∈ active -> r_category a ∈ category_keys) ->
  (category_count active "love" + category_count active "family" +
   category_count active "relative" + category_count active "work" +
   category_count active "friend" + category_count active "other"
   = length active)%nat.
Proof.
  unfold category_count, count_if.
  induction active as [|a l IH]; intros Hall; [reflexivity|].
  specialize (IH ltac:(intros x Hx; apply Hall; right; exact Hx)).
  pose proof (Hall a ltac:(left)) as Ha. cbn [List.filter].
  unfold category_keys in Ha. cbn in Ha.
  repeat (apply elem_of_cons in Ha as [-> | Ha]); [..|inversion Ha];
    cbn [String.eqb Ascii.eqb Bool.eqb andb length]; lia.
Qed.

Lemma month_counts_eq df :
  (forall b, b ∈ df -> 1 <= df_birth_month b <= 12) ->
  (month_count df 1 + month_count df 2 + month_count df 3 + month_count df 4 +
   month_count df 5 + month_count df 6 + month_count df 7 + month_count df 8 +
   month_count df 9 + month_count df 10 + month_count df 11 + month_count df 12
   = count_if (fun b => negb (df_is_deleted b)) df)%nat.
Proof.
  unfold month_count, count_if.
  induction df as [|a l IH]; intros Hall; [reflexivity|].
  specialize (IH ltac:(intros x Hx; apply Hall; right; exact Hx)).
  pose proof (Hall a ltac:(left)) as Ha. cbn [List.filter].
  remember (df_birth_month a) as m eqn:Em. clear Em.
  destruct (df_is_deleted a); by_month m;
    cbn [Z.eqb Pos.eqb andb negb length]; lia.
Qed.

Lemma count_not_deleted now d bs :
  count_if (fun b => negb (df_is_deleted b)) (df_data_of now (row_of d <$> bs))
  = length (List.filter (fun b => negb (is_deleted b)) bs).
Proof.
  unfold count_if, df_data_of.
  induction bs as [|b bs IH]; [reflexivity|].
  rewrite !fmap_cons. cbn [List.filter df_is_deleted row_of r_is_deleted].
  destruct (is_deleted b); cbn [negb length]; rewrite IH; reflexivity.
Qed.

(** X22: in the report over a store the service has produced, the six
    category counts add up to the number of active records, and so do the
    twelve monthly counts: each active record is counted in exactly one
    category and one month. *)
Theorem analytics_histograms_partition (url_ok : string -> bool)
    (half_up : Z -> Z -> bool) (now : datetime) (d : db) (r : Report) :
  reachable url_ok d ->
  get_analytics_report half_up now d = Analytics r ->
  category_count_total r = active_birthdays (overview r) /\
  monthly_total r = active_birthdays (overview r).
Proof.
  intros Hreach Hr.
  destruct (analytics_report_inv _ _ _ _ Hr) as (Ho & Hc & _).
  assert (Hm : AdminService.monthly_distribution r
               = monthly_of (df_data_of now (get_all_birthdays d true))).
  { revert Hr. unfold get_analytics_report.
    destruct (get_all_birthdays d true); [discriminate|].
    intros [= <-]. reflexivity. }
  rewrite Ho. cbn [active_birthdays].
  unfold category_count_total, monthly_total. rewrite Hc, Hm. split.
  - cbn [fmap list_fmap BIRTHDAY_CATEGORIES snd foldr].
    rewrite (category_stats_lookup half_up _ "love")
      by (apply (bool_decide_unpack _); vm_compute; exact I).
    rewrite (category_stats_lookup half_up _ "family")
      by (apply (bool_decide_unpack _); vm_compute; exact I).
    rewrite (category_stats_lookup half_up _ "relative")
      by (apply (bool_decide_unpack _); vm_compute; exact I).
    rewrite (category_stats_lookup half_up _ "work")
      by (apply (bool_decide_unpack _); vm_compute; exact I).
    rewrite (category_stats_lookup half_up _ "friend")
      by (apply (bool_decide_unpack _); vm_compute; exact I).
    rewrite (category_stats_lookup half_up _ "other")
      by (apply (bool_decide_unpack _); vm_compute; exact I).
    cbn [from_option cs_count].
    rewrite <- (category_counts_eq (get_all_birthdays d false)); [lia|].
    intros a Ha. unfold get_all_birthdays in Ha.
    apply list_elem_of_fmap in Ha as (b & -> & Hb).
    apply filter_elem in Hb as [Hb _]. cbn [r_category row_of].
    apply (reachable_rows_ok url_ok d Hreach b Hb).
  - cbn [fmap list_fmap month_names foldr].
    rewrite (monthly_of_lookup _ 1 "Jan"), (monthly_of_lookup _ 2 "Feb"),
      (monthly_of_lookup _ 3 "Mar"), (monthly_of_lookup _ 4 "Apr"),
      (monthly_of_lookup _ 5 "May"), (monthly_of_lookup _ 6 "Jun"),
      (monthly_of_lookup _ 7 "Jul"), (monthly_of_lookup _ 8 "Aug"),
      (monthly_of_lookup _ 9 "Sep"), (monthly_of_lookup _ 10 "Oct"),
      (monthly_of_lookup _ 11 "Nov"), (monthly_of_lookup _ 12 "Dec")
      by (apply (bool_decide_unpack _); vm_compute; exact I).
    cbn [default from_option Datatypes.id]. unfold Datatypes.id.
    unfold get_all_birthdays. rewrite length_fmap, <- (count_not_deleted now d).
    rewrite <- month_counts_eq; [lia|].
    intros x Hx. unfold df_data_of in Hx.
    apply list_elem_of_fmap in Hx as (row & -> & Hrow).
    apply list_elem_of_fmap in Hrow as (b & -> & Hb).
    cbn [df_birth_month r_birthdate row_of].
    destruct (reachable_rows_ok url_ok d Hreach b Hb) as (Hok & _).
    unfold date_ok in Hok. apply check_date_fields_spec in Hok. tauto.
Qed.

End ReportCounts.

(** * Listings, names and users *)

Section Listings.
Import Text InputValidator BirthdayService Invariant.


Lemma birthdate_le_total : Total birthdate_le.
Proof.
  intros a b. unfold birthdate_le, date_le.
  destruct (date_lt (birthdate b) (birthdate a)) eqn:E1; [|left; reflexivity].
  right. apply negb_true_iff. unfold date_lt in *.
  apply orb_true_iff in E1.
  apply orb_false_iff. rewrite andb_false_iff, Z.ltb_ge, Z.eqb_neq, md_gt_false.
  rewrite andb_true_iff, Z.ltb_lt, Z.eqb_eq, md_gt_spec in E1. lia.
Qed.


Lemma get_user_birthdays_elem d uid include_deleted b :
  b ∈ get_user_birthdays d uid include_deleted <->
  is_Some (get_or_none d uid) /\ b ∈ birthdays d /\ user b = uid /\
  (include_deleted = false -> is_deleted b = false).
Proof.
  unfold get_user_birthdays.
  destruct (get_or_none d uid) as [u|] eqn:Hu.
  - rewrite (get_or_none_user_id _ _ _ Hu).
    destruct include_deleted; rewrite merge_sort_Permutation.
    + rewrite filter_elem, Z.eqb_eq.
      split; [intros [? ?] | intros (_ & ? & ? & _)]; repeat split; eauto.
      discriminate.
    + rewrite active_elem.
      split; [intros (? & ? & ?) | intros (_ & ? & ? & ?)]; repeat split; eauto.
  - split; [intros H; inversion H|]. intros ([? ?] & _). discriminate.
Qed.

(** X24: the listing of a user's birthdays is sorted by birthdate and holds
    exactly the rows of the user, without the deleted ones unless they are
    asked for; it is empty for an unknown user. *)
Theorem user_listing (d : db) (uid : Z) (include_deleted : bool) :
  Sorted birthdate_le (get_user_birthdays d uid include_deleted) /\
  forall b,
    b ∈ get_user_birthdays d uid include_deleted <->
    is_Some (get_or_none d uid) /\ b ∈ birthdays d /\ user b = uid /\
    (include_deleted = false -> is_deleted b = false).
Proof.
  split; [|apply get_user_birthdays_elem].
  unfold get_user_birthdays.
  destruct (get_or_none d uid) as [u|]; [|constructor].
  destruct include_deleted;
    apply (@Sorted_merge_sort _ birthdate_le _ birthdate_le_total).
Qed.

(** X25: the listing of a category is sorted by birthdate and holds exactly
    the user's active records whose stored category is the lower-cased
    argument, and nothing when the argument is no category; in a store the
    service has produced the six category listings together hold every
    active record of the user. *)
Theorem category_listing (url_ok : string -> bool) (d : db) (uid : Z) :
  reachable url_ok d ->
  (forall cat,
     Sorted birthdate_le (get_birthdays_by_category d uid cat) /\
     forall b,
       b ∈ get_birthdays_by_category d uid cat <->
       validate_category cat = true /\ is_Some (get_or_none d uid) /\
       b ∈ active_of_user d uid /\ category b = lower cat) /\
  (forall b,
     b ∈ get_user_birthdays d uid false ->
     exists cat, cat ∈ category_keys /\ b ∈ get_birthdays_by_category d uid cat).
Proof.
  intros Hreach.
  assert (Hlist : forall cat,
     Sorted birthdate_le (get_birthdays_by_category d uid cat) /\
     forall b,
       b ∈ get_birthdays_by_category d uid cat <->
       validate_category cat = true /\ is_Some (get_or_none d uid) /\
       b ∈ active_of_user d uid /\ category b = lower cat).
  { intros cat. unfold get_birthdays_by_category.
    destruct (validate_category cat) eqn:Hv; cbn [negb].
    - destruct (get_or_none d uid) as [u|] eqn:Hu.
      + rewrite (get_or_none_user_id _ _ _ Hu). split.
        * apply (@Sorted_merge_sort _ birthdate_le _ birthdate_le_total).
        * intros b. rewrite merge_sort_Permutation, filter_elem, active_elem.
          rewrite !andb_true_iff, negb_true_iff, Z.eqb_eq, String.eqb_eq.
          split; [intros (? & (? & ?) & ?) | intros (_ & _ & (? & ? & ?) & ?)];
            repeat split; eauto.
      + split; [constructor|]. intros b. split; [intros H; inversion H|].
        intros (_ & [? ?] & _). discriminate.
    - split; [constructor|]. intros b. split; [intros H; inversion H|].
      intros (? & _). discriminate. }
  split; [exact Hlist|].
  intros b Hb. unfold get_user_birthdays in Hb.
  destruct (get_or_none d uid) as [u|] eqn:Hu; [|inversion Hb].
  rewrite (get_or_none_user_id _ _ _ Hu), merge_sort_Permutation in Hb.
  pose proof Hb as Hact. apply active_elem in Hb as (Hb & _ & _).
  destruct (reachable_rows_ok url_ok d Hreach b Hb) as (_ & _ & Hc & _).
  exists (category b). split; [exact Hc|].
  assert (validate_category (category b) = true /\ lower (category b) = category b)
    as [Hv Hl].
  { unfold category_keys in Hc. cbn in Hc.
    repeat (apply elem_of_cons in Hc as [-> | Hc]); [..|inversion Hc];
      split; reflexivity. }
  apply (proj2 (proj2 (Hlist (category b)) b)).
  split; [exact Hv|]. split; [eauto|]. split; [exact Hact | congruence].
Qed.

Lemma first_by_name_deleted_ext d uid nm nm' flag :
  upper nm' = upper nm ->
  first_by_name_deleted d uid nm' flag = first_by_name_deleted d uid nm flag.
Proof.
  intros H. unfold first_by_name_deleted, iexact. rewrite H. reflexivity.
Qed.

(** X26: names are looked up without regard to case and to surrounding white
    space: two spellings whose trimmed forms agree up to case make
    [delete_birthday] and [restore_deleted_birthday] succeed or fail alike
    and leave the same store. *)
Theorem name_lookup_ignores_case (now : datetime) (d : db) (uid : Z)
    (nm nm' : string) :
  upper (strip nm') = upper (strip nm) ->
  success (delete_birthday now d uid nm').1
    = success (delete_birthday now d uid nm).1 /\
  (delete_birthday now d uid nm').2 = (delete_birthday now d uid nm).2 /\
  success (restore_deleted_birthday now d uid nm').1
    = success (restore_deleted_birthday now d uid nm).1 /\
  (restore_deleted_birthday now d uid nm').2
    = (restore_deleted_birthday now d uid nm).2.
Proof.
  intros H. unfold delete_birthday, restore_deleted_birthday.
  destruct (get_or_none d uid) as [u|]; [|auto].
  rewrite !(first_by_name_deleted_ext d (user_id u) (strip nm) (strip nm') _ H).
  destruct (first_by_name_deleted d (user_id u) (strip nm) false);
    destruct (first_by_name_deleted d (user_id u) (strip nm) true); auto.
Qed.

(** [User.get_or_create] never overwrites: calling it again for the
    same identifier, with whatever defaults, returns the user of the first
    call and leaves the store as the first call left it, and every user the
    store knew is still returned by [get_or_none] as before. *)
Lemma get_or_create_idempotent (now now' : datetime) (d : db) (uid : Z)
    (un fn un' fn' : option string) (sa sa' : bool) :
  get_or_create now' (get_or_create now d uid un fn sa).2 uid un' fn' sa'
    = get_or_create now d uid un fn sa /\
  forall uid' u', get_or_none d uid' = Some u' ->
                  get_or_none (get_or_create now d uid un fn sa).2 uid' = Some u'.
Proof.
  pose proof (get_or_create_spec now d uid un fn sa) as (_ & _ & Hget & _ & _).
  split.
  - set (r := get_or_create now d uid un fn sa) in *. clearbody r.
    unfold get_or_create. rewrite Hget. destruct r; reflexivity.
  - intros uid' u' Hu'. unfold get_or_create.
    destruct (get_or_none d uid) eqn:E; [exact Hu'|].
    unfold get_or_none in *. cbn [users snd]. rewrite find_app, Hu'. reflexivity.
Qed.

(** X27: a successful [add_birthday] stores what was validated: the returned
    record is then the only active record of the user under that name, it is
    listed among the user's birthdays, and it carries the parsed date, the
    lower-cased category, the photo and the notes of the call. *)
Theorem add_birthday_stores_record (url_ok : string -> bool) (now : datetime)
    (d : db) (uid : Z) (nm ds cat : string) (img nts : option string)
    (r : reply) (d1 : db) :
  reachable url_ok d ->
  add_birthday url_ok now d uid nm ds cat img nts = (r, d1) ->
  success r = true ->
  exists b,
    birthday r = Some b /\
    b ∈ get_user_birthdays d1 uid false /\
    active_count d1 uid (strip nm) = 1%nat /\
    parse_date now ds = Some (birthdate b) /\
    category b = lower cat /\ category b ∈ category_keys /\
    image_url b = img /\ notes b = nts /\ is_deleted b = false.
Proof.
  intros Hreach Hadd Hs. pose proof (reachable_wf _ _ Hreach) as Hwf.
  destruct (add_birthday_success _ _ _ _ _ _ _ _ _ _ _ Hwf Hadd Hs)
    as (b & bd & Hr & Hp & _ & Hc & Hb & Hn & Hbd & Hcat & Hi & Hnt & _ & _ & Hwf1).
  exists b. split; [exact Hr|].
  pose proof Hb as Hb'. apply active_elem in Hb' as (Hb1 & Hb2 & Hb3).
  split.
  - apply get_user_birthdays_elem.
    split; [rewrite <- Hb2; apply (wf_owner _ Hwf1), Hb1 | auto].
  - split; [apply (active_count_one d1 uid (strip nm) b Hwf1 Hb Hn)|].
    rewrite Hbd. split; [exact Hp|]. split; [exact Hcat|].
    split; [rewrite Hcat; apply validate_category_keys, Hc | auto].
Qed.

End Listings.

Section UpdateAndReminders.
Import Text InputValidator BirthdayService Invariant BirthdayReminder.

(** X28: a successful [update_birthday] saves the matched row with exactly
    the patches given: the date when a non-empty date string is given (which
    then is a valid date), the lower-cased category when a non-empty category
    is given (which then is one of the six), the photo and the notes when
    they are given (an empty string clears them); key, owner, name and
    creation time stay, and the row stays active. *)
Theorem update_birthday_applies (url_ok : string -> bool) (now : datetime)
    (d : db) (uid : Z) (nm : string) (nd nc ni nn : option string)
    (b : Birthday) (r : reply) (d' : db) :
  reachable url_ok d ->
  b ∈ active_of_user d uid -> iexact (name b) (strip nm) = true ->
  update_birthday url_ok now d uid nm nd nc ni nn = (r, d') ->
  success r = true ->
  exists b',
    d' = save now b' d /\
    touched now b' ∈ active_of_user d' uid /\
    identity b' = identity b /\
    (if truthy nd
     then parse_date now (default "" nd) = Some (birthdate b')
     else birthdate b' = birthdate b) /\
    (if truthy nc
     then validate_category (default "" nc) = true /\
          category b' = lower (default "" nc)
     else category b' = category b) /\
    image_url b' = match ni with
                   | None => image_url b
                   | Some i => if truthy (Some i) then Some i else None
                   end /\
    notes b' = match nn with
               | None => notes b
               | Some n => if truthy (Some n) then Some n else None
               end.
Proof.
  intros Hreach Hb Hn Hupd Hs. pose proof (reachable_wf _ _ Hreach) as Hwf.
  apply active_elem in Hb as (Hb1 & Hb2 & Hb3).
  unfold update_birthday in Hupd.
  destruct (owner_lookup d b Hwf Hb1) as (u & Hu & Hid).
  rewrite Hb2 in Hu, Hid. rewrite Hu, Hid in Hupd.
  rewrite (first_by_name_deleted_unique d uid (strip nm) false b Hwf Hb1 Hb2 Hn),
    Hb3 in Hupd.
  cbn [Bool.eqb] in Hupd.
  assert (Hact : forall b0, id b0 = id b -> user b0 = uid -> is_deleted b0 = false ->
                   touched now b0 ∈ active_of_user (save now b0 d) uid).
  { intros b0 H1 H2 H3. apply active_elem. split; [|simpl; auto].
    apply (save_row_in now b); auto. }
  repeat case_match; simplify_eq; try discriminate;
    (eexists; split; [reflexivity|]; split; [apply Hact; reflexivity || assumption|];
     cbn [identity id user name created_at birthdate category image_url notes];
     repeat split; try reflexivity; try assumption;
     try (apply negb_false_iff; assumption)).
Qed.

Lemma today_reminder_entry get_user_time today d uid entries e :
  BirthdayReminderSent uid entries ∈ check_birthdays_today get_user_time today d ->
  e ∈ entries -> te_birthday e ∈ active_of_user d uid.
Proof.
  unfold check_birthdays_today. intros Hev He.
  apply list_elem_of_In, in_flat_map in Hev as (u & Hu & Hev).
  destruct (on_day (birthdays_of d u) (dt_date (get_user_time (timezone u))))
    as [|b0 bs] eqn:Hon; [inversion Hev|].
  destruct Hev as [Hev | []]. rewrite <- Hon in Hev.
  unfold _send_birthday_reminder in Hev. injection Hev as <- <-.
  apply list_elem_of_fmap in He as (b & -> & Hb).
  apply on_day_elem in Hb as (Hb & ? & _).
  apply birthdays_of_elem in Hb as [? ?]. apply active_elem. auto.
Qed.

Lemma upcoming_reminder_entry get_user_time today d uid entries e :
  UpcomingReminderSent uid entries
    ∈ check_upcoming_birthdays get_user_time today d ->
  e ∈ entries -> ue_birthday e ∈ active_of_user d uid.
Proof.
  unfold check_upcoming_birthdays. intros Hev He.
  apply upcoming_loop_elem in Hev as (u & l & _ & Hl & Hev).
  unfold _send_upcoming_reminder in Hev. injection Hev as -> ->.
  apply list_elem_of_fmap in He as ([b k] & -> & Hbk).
  destruct (upcoming_of_elem _ _ _ _ _ _ Hl Hbk) as (_ & f & _ & Hon).
  apply on_day_elem in Hon as (Hb & ? & _).
  apply birthdays_of_elem in Hb as [? ?]. apply active_elem. auto.
Qed.

(** X29: a deleted birthday is not reminded of: after a successful
    [delete_birthday], neither the same-day check nor the upcoming check
    puts a record of that user with that name into a reminder. *)
Theorem deleted_record_not_reminded (url_ok : string -> bool)
    (get_user_time : string -> datetime) (today : date) (now : datetime)
    (d : db) (uid : Z) (nm : string) (r : reply) (d' : db) :
  reachable url_ok d ->
  delete_birthday now d uid nm = (r, d') -> success r = true ->
  (forall entries e,
     BirthdayReminderSent uid entries
       ∈ check_birthdays_today get_user_time today d' ->
     e ∈ entries -> iexact (name (te_birthday e)) (strip nm) = false) /\
  (forall entries e,
     UpcomingReminderSent uid entries
       ∈ check_upcoming_birthdays get_user_time today d' ->
     e ∈ entries -> iexact (name (ue_birthday e)) (strip nm) = false).
Proof.
  intros Hreach Hdel Hs. pose proof (reachable_wf _ _ Hreach) as Hwf.
  destruct (delete_birthday_done now d uid nm r d' Hwf Hdel Hs) as (_ & Hnone & _).
  split; intros entries e Hev He; apply Hnone.
  - apply (today_reminder_entry get_user_time today d' uid entries e Hev He).
  - apply (upcoming_reminder_entry get_user_time today d' uid entries e Hev He).
Qed.

End UpdateAndReminders.

(** * Concrete runs *)

Section Scenarios.
Import Text InputValidator BirthdayService Invariant Samples UserStatistics
  AdminService BirthdayReminder Spec.

(** The sample stores are stores the service produces. *)
Lemma reachable_samples :
  reachable http_url db_six /\ reachable http_url db_today /\
  reachable http_url db_in_two_days.
Proof.
  unfold db_six, db_today, db_in_two_days, add_for7.
  repeat split; repeat apply reach_add; apply reach_empty.
Qed.

Lemma john_row_stored : john_row ∈ birthdays db_john.
Proof. vm_compute. apply list_elem_of_here. Qed.

Lemma active_db_john : active_of_user db_john 7 = [john_row].
Proof. vm_compute. reflexivity. Qed.

Lemma active_name_unique_witness :
  reachable http_url db_john /\ (active_count db_john 7 "John" <= 1)%nat.
Proof.
  split; [exact reachable_db_john|].
  apply (active_name_unique http_url db_john 7 "John" reachable_db_john).
Defined.

Lemma stored_rows_valid_witness :
  reachable http_url db_john /\ john_row ∈ birthdays db_john /\
  row_ok john_row /\ validate_category (category john_row) = true /\
  lower (category john_row) = category john_row.
Proof.
  split; [exact reachable_db_john|]. split; [exact john_row_stored|].
  apply (stored_rows_valid http_url db_john john_row reachable_db_john
           john_row_stored).
Defined.

(** John is added a second time, Bob is deleted and updated without being
    there, and John is restored while active: four failures. *)
Lemma failed_mutation_keeps_store_witness :
  reachable http_url db_john /\
  (add_birthday http_url now_nov4 db_john 7 "john" "1995-09-27" "family"
     None None).2 = db_john /\
  (delete_birthday now_nov4 db_john 7 "Bob").2 = db_john /\
  (update_birthday http_url now_nov4 db_john 7 "Bob" (Some "1990-01-01")
     None None None).2 = db_john /\
  (restore_deleted_birthday now_nov4 db_john 7 "John").2 = db_john.
Proof.
  split; [exact reachable_db_john|].
  destruct (failed_mutation_keeps_store http_url now_nov4 db_john 7 "john"
              "1995-09-27" "family" None None (Some "1990-01-01") None None None
              reachable_db_john) as (Ha & _).
  destruct (failed_mutation_keeps_store http_url now_nov4 db_john 7 "Bob"
              "1995-09-27" "family" None None (Some "1990-01-01") None None None
              reachable_db_john) as (_ & Hd & Hu & _).
  destruct (failed_mutation_keeps_store http_url now_nov4 db_john 7 "John"
              "1995-09-27" "family" None None (Some "1990-01-01") None None None
              reachable_db_john) as (_ & _ & _ & Hr).
  split; [apply Ha; reflexivity|]. split; [apply Hd; reflexivity|].
  split; [apply Hu; reflexivity|]. apply Hr; reflexivity.
Defined.

Lemma mutations_only_grow_witness :
  reachable http_url db_john /\
  grows db_john (add_birthday http_url now_nov4 db_john 8 "Bob" "1991-11-05"
                   "work" None None).2 /\
  grows db_john (delete_birthday now_nov4 db_john 7 "John").2 /\
  grows db_john (update_birthday http_url now_nov4 db_john 7 "John"
                   (Some "1996-01-02") None None None).2 /\
  grows db_john (restore_deleted_birthday now_nov4 db_john 7 "John").2.
Proof.
  split; [exact reachable_db_john|].
  destruct (mutations_only_grow http_url now_nov4 db_john 8 "Bob" "1991-11-05"
              "work" None None None None None None reachable_db_john)
    as (Ha & _).
  destruct (mutations_only_grow http_url now_nov4 db_john 7 "John" "1991-11-05"
              "work" None None (Some "1996-01-02") None None None
              reachable_db_john) as (_ & Hd & Hu & Hr).
  auto.
Defined.

(** What user 8 does leaves the rows of user 7 alone. *)
Lemma mutations_keep_other_users_witness :
  reachable http_url db_john /\ 7 <> 8 /\
  rows_of_user (add_birthday http_url now_nov4 db_john 8 "John" "1991-11-05"
                  "work" None None).2 7 = rows_of_user db_john 7 /\
  rows_of_user (delete_birthday now_nov4 db_john 8 "John").2 7
    = rows_of_user db_john 7 /\
  rows_of_user (update_birthday http_url now_nov4 db_john 8 "John"
                  (Some "1996-01-02") None None None).2 7
    = rows_of_user db_john 7 /\
  rows_of_user (restore_deleted_birthday now_nov4 db_john 8 "John").2 7
    = rows_of_user db_john 7.
Proof.
  split; [exact reachable_db_john|].
  assert (Hne : 7 <> 8) by lia.
  split; [exact Hne|].
  apply (mutations_keep_other_users http_url now_nov4 db_john 8 7 "John"
           "1991-11-05" "work" None None (Some "1996-01-02") None None None
           reachable_db_john Hne).
Defined.

Lemma add_delete_restore_roundtrip_witness :
  exists r1,
    reachable http_url empty_db /\
    add_birthday http_url now_nov3 empty_db 7 "John" "1995-09-27" "family"
      None None = (r1, db_john) /\
    success r1 = true /\
    exists b,
      birthday r1 = Some b /\
      success (delete_birthday now_nov4 db_john 7 "John").1 = true /\
      success (restore_deleted_birthday now_nov5
                 (delete_birthday now_nov4 db_john 7 "John").2 7 "John").1
        = true /\
      (restore_deleted_birthday now_nov5
         (delete_birthday now_nov4 db_john 7 "John").2 7 "John").2
        = save now_nov5 b db_john /\
      touched now_nov5 b ∈ active_of_user (save now_nov5 b db_john) 7 /\
      deleted_at b = None.
Proof.
  eexists. split; [apply reach_empty|].
  split; [vm_compute; reflexivity|]. split; [reflexivity|].
  eapply (add_delete_restore_roundtrip http_url now_nov3 now_nov4 now_nov5
           empty_db 7 "John" "1995-09-27" "family" None None _ db_john
           (reach_empty http_url));
    [vm_compute; reflexivity | reflexivity].
Defined.

(** John is deleted and added again as "john", with a new date, category,
    photo and notes. *)
Lemma delete_then_add_reuses_row_witness :
  reachable http_url db_john /\
  john_row ∈ active_of_user db_john 7 /\
  iexact (name john_row) (strip "john") = true /\
  validate_name "john" = true /\
  parse_date now_nov5 "1996-01-02" = Some (mkdate 1996 1 2) /\
  validate_category "Work" = true /\
  validate_image_url http_url (Some "https://example.com/j.png") = true /\
  add_birthday http_url now_nov5 (delete_birthday now_nov4 db_john 7 "john").2
    7 "john" "1996-01-02" "Work" (Some "https://example.com/j.png")
    (Some "new")
  = (mkreply true
       ("Birthday restored for " +:+ "John" +:+ " (" +:+ "1996-01-02" +:+ ")")
       (Some (mkBirthday 1 7 "John" (mkdate 1996 1 2) "work"
                (Some "https://example.com/j.png") (Some "new")
                now_nov3 now_nov5 false None)),
     save now_nov5
       (mkBirthday 1 7 "John" (mkdate 1996 1 2) "work"
          (Some "https://example.com/j.png") (Some "new")
          now_nov3 now_nov5 false None) db_john).
Proof.
  split; [exact reachable_db_john|]. split; [exact john_row_active|].
  do 5 (split; [vm_compute; reflexivity|]).
  apply (delete_then_add_reuses_row http_url now_nov4 now_nov5 db_john 7 "john"
           "1996-01-02" "Work" (Some "https://example.com/j.png") (Some "new")
           john_row (mkdate 1996 1 2) reachable_db_john john_row_active);
    try (intros _); vm_compute; reflexivity.
Defined.

Lemma delete_birthday_effect_witness :
  exists r,
    reachable http_url db_john /\
    delete_birthday now_nov3 db_john 7 "John" = (r, db_john_deleted) /\
    success r = true /\
    active_count db_john_deleted 7 (strip "John") = 0%nat /\
    (forall x, x ∈ get_user_birthdays db_john_deleted 7 false ->
               iexact (name x) (strip "John") = false) /\
    exists b', b' ∈ get_user_birthdays db_john_deleted 7 true /\
               iexact (name b') (strip "John") = true /\
               is_deleted b' = true /\ deleted_at b' = Some now_nov3.
Proof.
  eexists. split; [exact reachable_db_john|].
  split; [vm_compute; reflexivity|]. split; [reflexivity|].
  eapply (delete_birthday_effect http_url now_nov3 db_john 7 "John" _
           db_john_deleted reachable_db_john);
    [vm_compute; reflexivity | reflexivity].
Defined.

Lemma parse_date_of_str_witness :
  date_ok (mkdate 1995 9 27) = true /\
  1900 <= year (mkdate 1995 9 27) <= year (dt_date now_nov3) + 50 /\
  parse_date now_nov3 (str_of_date (mkdate 1995 9 27)) = Some (mkdate 1995 9 27).
Proof.
  split; [reflexivity|]. split; [simpl; lia|].
  apply (parse_date_of_str now_nov3 (mkdate 1995 9 27)); [reflexivity | simpl; lia].
Defined.


Lemma get_user_stats_returns_witness :
  date_ok nov3 = true /\ year nov3 < MAXYEAR /\
  (forall b, b ∈ active_of_user db_john 7 ->
     date_ok (birthdate b) = true /\
     ~ (month (birthdate b) = 2 /\ day (birthdate b) = 29)) /\
  exists s, get_user_stats round_half_up nov3 db_john 7 = Return s.
Proof.
  assert (Hrows : forall b, b ∈ active_of_user db_john 7 ->
            date_ok (birthdate b) = true /\
            ~ (month (birthdate b) = 2 /\ day (birthdate b) = 29)).
  { rewrite active_db_john. intros b Hb%list_elem_of_singleton. subst b.
    split; [reflexivity|]. simpl. lia. }
  split; [reflexivity|]. split; [reflexivity|]. split; [exact Hrows|].
  apply (get_user_stats_returns round_half_up nov3 db_john 7);
    [reflexivity | reflexivity | exact Hrows].
Defined.

(** On 2028-03-01, in a leap year, the next 29 February is looked up in
    2029. *)
Lemma get_user_stats_leap_day_late_raises_witness :
  is_Some (get_or_none db_leap 7) /\
  leap_row ∈ active_of_user db_leap 7 /\
  month (birthdate leap_row) = 2 /\ day (birthdate leap_row) = 29 /\
  is_leap (year mar1_2028) = true /\
  md_gt (month mar1_2028) (day mar1_2028) 2 29 = true /\
  get_user_stats round_half_up mar1_2028 db_leap 7 = Raise ValueError.
Proof.
  assert (Hu : is_Some (get_or_none db_leap 7)) by (eexists; reflexivity).
  assert (Hin : leap_row ∈ active_of_user db_leap 7)
    by (vm_compute; apply list_elem_of_here).
  split; [exact Hu|]. split; [exact Hin|].
  do 4 (split; [reflexivity|]).
  apply (get_user_stats_leap_day_late_raises round_half_up mar1_2028 db_leap 7
           leap_row Hu Hin); reflexivity.
Defined.

(** Of the birthdays 52, 2 and 17 days ahead, the second one is next. *)
Lemma next_birthday_is_soonest_witness :
  exists s,
    get_user_stats round_half_up nov3 db_three 7 = Return (Stats s) /\
    active_of_user db_three 7 <> [] /\
    next_birthday s = Some (mkNext "Bob" (mkdate 1991 11 5) 2 "work") /\
    exists l1 b l2 n,
      active_of_user db_three 7 = l1 ++ b :: l2 /\
      next_birthday s = Some (mkNext (name b) (birthdate b) n (category b)) /\
      days_until_next (birthdate b) nov3 = Return n /\
      (forall b' n', b' ∈ l1 ->
         days_until_next (birthdate b') nov3 = Return n' -> n < n') /\
      (forall b' n', b' ∈ l2 ->
         days_until_next (birthdate b') nov3 = Return n' -> n <= n').
Proof.
  eexists. split; [vm_compute; reflexivity|].
  split; [vm_compute; discriminate|]. split; [reflexivity|].
  apply (next_birthday_is_soonest round_half_up nov3 db_three 7);
    [vm_compute; reflexivity | vm_compute; discriminate].
Defined.

(** The day before the 31st birthday. *)
Lemma age_day_by_day_witness :
  date_ok (mkdate 1995 9 27) = true /\ date_ok (mkdate 2026 9 26) = true /\
  age (mkdate 1995 9 27) (mkdate 2026 9 26) = 30 /\
  age (mkdate 1995 9 27) (tomorrow (mkdate 2026 9 26)) = 31 /\
  age (mkdate 1995 9 27) (mkdate 2026 9 26)
    <= age (mkdate 1995 9 27) (tomorrow (mkdate 2026 9 26))
    <= age (mkdate 1995 9 27) (mkdate 2026 9 26) + 1.
Proof.
  do 4 (split; [reflexivity|]).
  apply (age_day_by_day (mkdate 1995 9 27) (mkdate 2026 9 26)); reflexivity.
Defined.

Lemma today_row_reminded :
  BirthdayReminderSent 7 [mkToday today_row 36]
    ∈ check_birthdays_today local_nov3 nov3 db_today.
Proof. vm_compute. apply list_elem_of_here. Qed.

(** The same-day check of 2026-11-03 over a store with one birthday on that
    day. *)
Lemma today_reminders_exact_witness :
  exists u entries,
    u ∈ users db_today /\ user_id u = 7 /\
    BirthdayReminderSent 7 entries
      ∈ check_birthdays_today local_nov3 nov3 db_today /\
    mkToday today_row 36 ∈ entries.
Proof.
  assert (Hu : mkUser 7 None None false "UTC" now_nov3 false None ∈ users db_today)
    by (vm_compute; apply list_elem_of_here).
  assert (Hb : today_row ∈ birthdays db_today)
    by (vm_compute; apply list_elem_of_here).
  destruct (proj2 (today_reminders_exact local_nov3 nov3 db_today) _ today_row
              Hu eq_refl Hb eq_refl eq_refl eq_refl eq_refl)
    as (entries & Hev & He).
  exists (mkUser 7 None None false "UTC" now_nov3 false None), entries.
  split; [exact Hu|]. split; [reflexivity|]. split; [exact Hev|exact He].
Defined.

Lemma today_reminder_age_witness :
  BirthdayReminderSent 7 [mkToday today_row 36]
    ∈ check_birthdays_today local_nov3 nov3 db_today /\
  mkToday today_row 36 ∈ [mkToday today_row 36] /\
  exists u, u ∈ users db_today /\ user_id u = 7 /\
    (year (dt_date (local_nov3 (timezone u))) = year nov3 ->
     te_age (mkToday today_row 36)
     = age (birthdate (te_birthday (mkToday today_row 36)))
         (dt_date (local_nov3 (timezone u)))).
Proof.
  assert (He : mkToday today_row 36 ∈ [mkToday today_row 36])
    by apply list_elem_of_here.
  split; [exact today_row_reminded|]. split; [exact He|].
  apply (today_reminder_age local_nov3 nov3 db_today 7 [mkToday today_row 36]
           (mkToday today_row 36) today_row_reminded He).
Defined.

Lemma ann_row_upcoming :
  UpcomingReminderSent 7 [mkUpcoming ann_row 2 37]
    ∈ check_upcoming_birthdays local_nov3 nov3 db_in_two_days.
Proof. vm_compute. apply list_elem_of_here. Qed.

(** Two days before a birthday on 2026-11-05. *)
Lemma upcoming_offset_is_days_until_witness :
  (forall u, u ∈ users db_in_two_days ->
     date_ok (dt_date (local_nov3 (timezone u))) = true) /\
  UpcomingReminderSent 7 [mkUpcoming ann_row 2 37]
    ∈ check_upcoming_birthdays local_nov3 nov3 db_in_two_days /\
  mkUpcoming ann_row 2 37 ∈ [mkUpcoming ann_row 2 37] /\
  exists u, u ∈ users db_in_two_days /\ user_id u = 7 /\
    user_is_deleted u = false /\
    days_until_next (birthdate ann_row) (dt_date (local_nov3 (timezone u)))
    = Return 2.
Proof.
  assert (Hok : forall u, u ∈ users db_in_two_days ->
            date_ok (dt_date (local_nov3 (timezone u))) = true)
    by (intros u _; reflexivity).
  assert (He : mkUpcoming ann_row 2 37 ∈ [mkUpcoming ann_row 2 37])
    by apply list_elem_of_here.
  split; [exact Hok|]. split; [exact ann_row_upcoming|]. split; [exact He|].
  apply (upcoming_offset_is_days_until local_nov3 nov3 db_in_two_days 7
           [mkUpcoming ann_row 2 37] (mkUpcoming ann_row 2 37) Hok
           ann_row_upcoming He).
Defined.

Lemma user_stats_histograms_witness :
  exists s,
    get_user_stats round_half_up nov3 db_three 7 = Return (Stats s) /\
    active_of_user db_three 7 <> [] /\
    (forall b, b ∈ active_of_user db_three 7 -> date_ok (birthdate b) = true) /\
    UserStatistics.total_birthdays s = 3%nat /\
    category_breakdown s !! "friend" = Some 2%nat /\
    category_breakdown s !! "love" = None /\
    UserStatistics.monthly_distribution s !! month_name 11 = Some 2%nat.
Proof.
  assert (Hrows : forall b, b ∈ active_of_user db_three 7 ->
            date_ok (birthdate b) = true).
  { intros b Hb. vm_compute in Hb.
    repeat (apply elem_of_cons in Hb as [-> | Hb]; [reflexivity|]).
    inversion Hb. }
  eexists. split; [vm_compute; reflexivity|].
  split; [vm_compute; discriminate|]. split; [exact Hrows|].
  destruct (user_stats_histograms round_half_up nov3 db_three 7 _
              ltac:(vm_compute; reflexivity) ltac:(vm_compute; discriminate)
              Hrows) as (Ht & Hc & Hm).
  split; [exact Ht|].
  split; [rewrite (Hc "friend"); vm_compute; reflexivity|].
  split; [rewrite (Hc "love"); vm_compute; reflexivity|].
  rewrite (Hm 11) by lia. vm_compute; reflexivity.
Defined.

Lemma analytics_age_statistics_witness :
  exists r,
    get_analytics_report round_half_up now_nov3 db_four = Analytics r /\
    report_ages now_nov3 (get_all_birthdays db_four true) <> [] /\
    as_min (age_statistics r) = 1 /\ as_max (age_statistics r) = 4 /\
    as_min (age_statistics r) <= as_median (age_statistics r)
      <= as_max (age_statistics r) /\
    10 * as_min (age_statistics r) <= as_average (age_statistics r)
      <= 10 * as_max (age_statistics r).
Proof.
  eexists. split; [vm_compute; reflexivity|].
  split; [vm_compute; discriminate|].
  do 2 (split; [reflexivity|]).
  eapply (analytics_age_statistics round_half_up now_nov3 db_four);
    [vm_compute; reflexivity | vm_compute; discriminate].
Defined.

Lemma user_stats_ages_witness :
  exists s,
    get_user_stats round_half_up nov3 db_four 7 = Return (Stats s) /\
    active_of_user db_four 7 <> [] /\
    exists lo hi,
      age_range s = Some (lo, hi) /\
      (exists b, b ∈ active_of_user db_four 7 /\ lo = age (birthdate b) nov3) /\
      (exists b, b ∈ active_of_user db_four 7 /\ hi = age (birthdate b) nov3) /\
      (forall b, b ∈ active_of_user db_four 7 ->
                 lo <= age (birthdate b) nov3 <= hi) /\
      10 * lo <= average_age s <= 10 * hi.
Proof.
  eexists. split; [vm_compute; reflexivity|].
  split; [vm_compute; discriminate|].
  apply (user_stats_ages round_half_up nov3 db_four 7);
    [vm_compute; reflexivity | vm_compute; discriminate].
Defined.

Lemma analytics_overview_counts_witness :
  exists r,
    get_analytics_report round_half_up now_nov3 db_john_deleted = Analytics r /\
    total_birthdays (overview r) = length (birthdays db_john_deleted) /\
    active_birthdays (overview r) = get_birthday_count db_john_deleted /\
    deleted_birthdays (overview r) = get_deleted_birthdays_count db_john_deleted /\
    (active_birthdays (overview r) + deleted_birthdays (overview r)
     = total_birthdays (overview r))%nat /\
    (total_active_users (user_activity r) <= total_users (overview r)
     <= total_birthdays (overview r))%nat.
Proof.
  eexists. split; [vm_compute; reflexivity|].
  apply (analytics_overview_counts round_half_up now_nov3 db_john_deleted).
  vm_compute; reflexivity.
Defined.

Lemma analytics_histograms_partition_witness :
  exists r,
    reachable http_url db_six /\
    get_analytics_report round_half_up now_nov3 db_six = Analytics r /\
    category_count_total r = active_birthdays (overview r) /\
    monthly_total r = active_birthdays (overview r).
Proof.
  eexists. split; [exact (proj1 reachable_samples)|].
  split; [vm_compute; reflexivity|].
  apply (analytics_histograms_partition http_url round_half_up now_nov3 db_six _
           (proj1 reachable_samples)).
  vm_compute; reflexivity.
Defined.

Lemma category_listing_witness :
  reachable http_url db_john /\
  john_row ∈ get_birthdays_by_category db_john 7 "Family" /\
  (forall b,
     b ∈ get_user_birthdays db_john 7 false ->
     exists cat, cat ∈ category_keys /\
                 b ∈ get_birthdays_by_category db_john 7 cat).
Proof.
  split; [exact reachable_db_john|].
  destruct (category_listing http_url db_john 7 reachable_db_john) as [Hl Hall].
  split; [|exact Hall].
  apply (proj2 (proj2 (Hl "Family") john_row)).
  split; [reflexivity|]. split; [eexists; reflexivity|].
  split; [exact john_row_active|reflexivity].
Defined.

(** John is deleted under the spelling "  jOHN ". *)
Lemma name_lookup_ignores_case_witness :
  upper (strip "  jOHN ") = upper (strip "John") /\
  success (delete_birthday now_nov4 db_john 7 "  jOHN ").1 = true /\
  (delete_birthday now_nov4 db_john 7 "  jOHN ").2
    = (delete_birthday now_nov4 db_john 7 "John").2.
Proof.
  assert (Hn : upper (strip "  jOHN ") = upper (strip "John")) by reflexivity.
  split; [exact Hn|].
  destruct (name_lookup_ignores_case now_nov4 db_john 7 "John" "  jOHN " Hn)
    as (Hs & Hd & _).
  split; [rewrite Hs; reflexivity | exact Hd].
Defined.

Lemma add_birthday_stores_record_witness :
  exists r,
    reachable http_url empty_db /\
    add_birthday http_url now_nov3 empty_db 7 "John" "1995-09-27" "Family"
      None (Some "brother") = (r, (add_birthday http_url now_nov3 empty_db 7
                                     "John" "1995-09-27" "Family" None
                                     (Some "brother")).2) /\
    success r = true /\
    exists b,
      birthday r = Some b /\
      b ∈ get_user_birthdays
            (add_birthday http_url now_nov3 empty_db 7 "John" "1995-09-27"
               "Family" None (Some "brother")).2 7 false /\
      active_count
        (add_birthday http_url now_nov3 empty_db 7 "John" "1995-09-27"
           "Family" None (Some "brother")).2 7 (strip "John") = 1%nat /\
      parse_date now_nov3 "1995-09-27" = Some (birthdate b) /\
      category b = lower "Family" /\ category b ∈ category_keys /\
      image_url b = None /\ notes b = Some "brother" /\ is_deleted b = false.
Proof.
  eexists. split; [apply reach_empty|].
  split; [vm_compute; reflexivity|]. split; [reflexivity|].
  eapply (add_birthday_stores_record http_url now_nov3 empty_db 7 "John"
            "1995-09-27" "Family" None (Some "brother") _ _
            (reach_empty http_url));
    [vm_compute; reflexivity | reflexivity].
Defined.

(** John gets a new date and category, the photo is cleared and the notes
    are left alone. *)
Lemma update_birthday_applies_witness :
  exists r d',
    reachable http_url db_john /\
    john_row ∈ active_of_user db_john 7 /\
    iexact (name john_row) (strip "john") = true /\
    update_birthday http_url now_nov4 db_john 7 "john" (Some "1996-01-02")
      (Some "WORK") (Some "") None = (r, d') /\
    success r = true /\
    exists b',
      d' = save now_nov4 b' db_john /\
      touched now_nov4 b' ∈ active_of_user d' 7 /\
      identity b' = identity john_row /\
      parse_date now_nov4 "1996-01-02" = Some (birthdate b') /\
      (validate_category "WORK" = true /\ category b' = lower "WORK") /\
      image_url b' = None /\
      notes b' = notes john_row.
Proof.
  eexists. eexists. split; [exact reachable_db_john|].
  split; [exact john_row_active|]. split; [reflexivity|].
  split; [vm_compute; reflexivity|]. split; [reflexivity|].
  eapply (update_birthday_applies http_url now_nov4 db_john 7 "john"
            (Some "1996-01-02") (Some "WORK") (Some "") None john_row _ _
            reachable_db_john john_row_active);
    [reflexivity | vm_compute; reflexivity | reflexivity].
Defined.

(** A birthday of today is deleted before the checks run. *)
Lemma deleted_record_not_reminded_witness :
  exists r d',
    reachable http_url db_today /\
    delete_birthday now_nov3 db_today 7 "Ann" = (r, d') /\
    success r = true /\
    check_birthdays_today local_nov3 nov3 db_today <> [] /\
    (forall entries e,
       BirthdayReminderSent 7 entries
         ∈ check_birthdays_today local_nov3 nov3 d' ->
       e ∈ entries -> iexact (name (te_birthday e)) (strip "Ann") = false) /\
    (forall entries e,
       UpcomingReminderSent 7 entries
         ∈ check_upcoming_birthdays local_nov3 nov3 d' ->
       e ∈ entries -> iexact (name (ue_birthday e)) (strip "Ann") = false).
Proof.
  eexists. eexists. split; [exact (proj1 (proj2 reachable_samples))|].
  split; [vm_compute; reflexivity|]. split; [reflexivity|].
  split; [vm_compute; discriminate|].
  eapply (deleted_record_not_reminded http_url local_nov3 nov3 now_nov3
            db_today 7 "Ann" _ _ (proj1 (proj2 reachable_samples)));
    [vm_compute; reflexivity | reflexivity].
Defined.

End Scenarios.
